(** * maple_flame: the sample / extract / score / decide loop

    A shallow embedding of the two scripts of the repository,
    [dropRate_MesosObt.py] (keyword policy) and [test2.py] (comparative
    policy), and of [modules/ocr.py], [modules/window.py],
    [modules/automation.py] and the regions of [modules/screenshot.py],
    followed by the properties of the stat parsers, the scorer, the
    stuck detector, the two decision loops, the window lookup and the
    retry actions.

    Conventions of the embedding.
    - A Python [str] is a Rocq [string]; its characters are the code
      points 0..255 (Latin-1).  Text that Tesseract returns outside that
      range is not covered.
    - A Python [int] is a [Z]; the limit [int()] puts on the number of
      digits of its argument (4300 by default since Python 3.11) is not
      part of the model.  A Python [float] is the rational number it
      denotes ([Q], compared with [==]); binary64 rounding and overflow
      are not part of the model.
    - A raised exception is the [Raise] case of [result]; [try]/[except]
      is [try_except], which handles the listed exception classes only.
    - The collaborators (window lookup, screen capture, Tesseract, the
      keyboard, the mouse) are oracles of an environment [env], indexed
      by the number of calls made so far; every call is recorded in a
      chronological trace.  Time is not modelled otherwise: a sleep is
      an event of the trace carrying its duration, and the retry action
      is one event.  What the scripts print or log is kept only where a
      property needs it (errors, and the log entries of the keyword
      loop).
    - The loops see a retry action as one oracle of [env]; what the
      retry actions and the window lookup do to the machine is modelled
      apart, in the module [Desktop], over a record of the processes
      and windows and of the calls that raise.
    - [while True] is [while_true], bounded by a fuel; a run that has
      not stopped when the fuel is spent returns [None] for its
      outcome. *)

From Stdlib Require Import ZArith QArith Bool Ascii String List Lia.
From stdpp Require Import base option list strings gmap sorting.

Set Default Proof Using "Type".
Local Open Scope string_scope.

(* ===================================================================== *)
(** * Python values and exceptions *)
(* ===================================================================== *)

Module Py.

(** The exception classes the sources raise or handle. *)
Inductive exn : Type :=
| IndexError
| ValueError
| KeyError
| OtherException (msg : string).

Inductive result (A : Type) : Type :=
| Ok (a : A)
| Raise (e : exn).
Arguments Ok {A} a.
Arguments Raise {A} e.

Definition bind {A B} (r : result A) (k : A -> result B) : result B :=
  match r with
  | Ok a => k a
  | Raise e => Raise e
  end.

Declare Scope result_scope.
Delimit Scope result_scope with result.
Notation "x <- r ;; k" := (bind r (fun x => k))
  (at level 100, r at next level, right associativity) : result_scope.
Local Open Scope result_scope.

(** [try: body except (classes): handler]. *)
Definition try_except {A} (body : result A) (handles : exn -> bool)
    (handler : result A) : result A :=
  match body with
  | Ok a => Ok a
  | Raise e => if handles e then handler else Raise e
  end.

(** [except (IndexError, ValueError)]. *)
Definition IndexError_or_ValueError (e : exn) : bool :=
  match e with
  | IndexError | ValueError => true
  | _ => false
  end.

(** ** Characters *)

Definition code (c : ascii) : nat := nat_of_ascii c.

Definition in_range (lo hi : nat) (c : ascii) : bool :=
  (lo <=? code c)%nat && (code c <=? hi)%nat.

(** [c.isspace()], also the class [\s] of [re] on [str]: the white space
    of the Latin-1 range. *)
Definition isspace (c : ascii) : bool :=
  in_range 9 13 c || in_range 28 32 c
  || (code c =? 133)%nat || (code c =? 160)%nat.

(** Decimal digits, also the class [\d] of [re] on [str]. *)
Definition isdigit (c : ascii) : bool := in_range 48 57 c.

Definition digit_value (c : ascii) : Z := Z.of_nat (code c - 48).

(** [c.lower()]: A..Z and the accented capitals of Latin-1 (all of
    0xC0..0xDE but the multiplication sign 0xD7) move up by 32. *)
Definition lower_char (c : ascii) : ascii :=
  if in_range 65 90 c || (in_range 192 222 c && negb (code c =? 215)%nat)
  then ascii_of_nat (code c + 32)
  else c.

(** ** Strings *)

(** [s.lower()] *)
Fixpoint lower (s : string) : string :=
  match s with
  | "" => ""
  | String c t => String (lower_char c) (lower t)
  end.

(** [s.startswith(p)] *)
Fixpoint startswith (p s : string) : bool :=
  match p, s with
  | "", _ => true
  | String a p', String b s' => if Ascii.eqb a b then startswith p' s' else false
  | String _ _, "" => false
  end.

(** [sub in s] *)
Fixpoint contains (sub s : string) : bool :=
  startswith sub s ||
  match s with
  | "" => false
  | String _ t => contains sub t
  end.

(** [s.split(sep)] for a separator of one character. *)
Fixpoint split (sep : ascii) (s : string) : list string :=
  match s with
  | "" => [""]
  | String c t =>
      if Ascii.eqb c sep then "" :: split sep t
      else match split sep t with
           | w :: ws => String c w :: ws
           | [] => [String c ""]
           end
  end.

(** [s.replace(old, new)] for a non-empty [old]: occurrences are replaced
    from the left and do not overlap.  [skip] counts the characters of an
    occurrence of [old] that are still to be dropped. *)
Fixpoint replace_from (old new : string) (skip : nat) (s : string) : string :=
  match s with
  | "" => ""
  | String c t =>
      match skip with
      | S k => replace_from old new k t
      | O =>
          if startswith old s
          then new ++ replace_from old new (String.length old - 1) t
          else String c (replace_from old new 0 t)
      end
  end.

Definition replace (old new s : string) : string := replace_from old new 0 s.

(** [l[i]] *)
Definition getitem {A} (l : list A) (i : nat) : result A :=
  match l !! i with
  | Some a => Ok a
  | None => Raise IndexError
  end.

(** ** [int(s)]

    Base 10: optional white space around, an optional sign, then digits;
    one underscore may stand between two digits.  Anything else raises
    [ValueError].  The white space [int] strips is that of [isspace]
    without the separators 0x1C..0x1F. *)
Definition int_space (c : ascii) : bool :=
  in_range 9 13 c || (code c =? 32)%nat
  || (code c =? 133)%nat || (code c =? 160)%nat.

Fixpoint int_lstrip (s : string) : string :=
  match s with
  | "" => ""
  | String c t => if int_space c then int_lstrip t else s
  end.

Fixpoint int_rstrip (s : string) : string :=
  match s with
  | "" => ""
  | String c t =>
      match int_rstrip t with
      | "" => if int_space c then "" else String c ""
      | t' => String c t'
      end
  end.

Fixpoint digits_value (acc : Z) (after_digit : bool) (s : string) : option Z :=
  match s with
  | "" => if after_digit then Some acc else None
  | String c t =>
      if isdigit c then digits_value (10 * acc + digit_value c) true t
      else if Ascii.eqb c "_"
           then if after_digit then digits_value acc false t else None
           else None
  end.

Definition int (s : string) : result Z :=
  let body := int_rstrip (int_lstrip s) in
  let signed :=
    match body with
    | String "+" t => digits_value 0 false t
    | String "-" t => Z.opp <$> digits_value 0 false t
    | _ => digits_value 0 false body
    end in
  match signed with
  | Some n => Ok n
  | None => Raise ValueError
  end.

End Py.

(* ===================================================================== *)
(** * modules/ocr.py: the keyword-mode parser *)
(* ===================================================================== *)

Module Ocr.
Import Py.
Local Open Scope result_scope.

(** ** The fragment of [re] the two patterns use

    A pattern is a sequence of pieces; a piece is one character class
    under a quantifier, possibly inside a capturing group.  Matching is
    by backtracking, greedy alternatives first, as in [re]. *)

Inductive atom : Type :=
| Chr (c : ascii)   (* a literal character *)
| Space             (* \s *)
| Digit.            (* \d *)

Inductive quantifier : Type :=
| Once              (* x  *)
| Optional          (* x? *)
| ZeroOrMore        (* x* *)
| OneOrMore.        (* x+ *)

Record piece : Type := Piece {
  piece_quantifier : quantifier;
  piece_atom : atom;
  piece_captures : bool
}.

Definition pattern : Type := list piece.

(** Whether the class accepts the character; [ignorecase] is the flag
    [re.IGNORECASE]. *)
Definition accepts (ignorecase : bool) (a : atom) (c : ascii) : bool :=
  match a with
  | Chr x =>
      if ignorecase then Ascii.eqb (lower_char x) (lower_char c)
      else Ascii.eqb x c
  | Space => isspace c
  | Digit => isdigit c
  end.

(** A successful match: the text of the capturing groups, in order, and
    what follows the match. *)
Definition matched : Type := list string * string.

Definition orelse (a b : option matched) : option matched :=
  match a with
  | Some m => Some m
  | None => b
  end.

(** [x*] from the current position: take one more character first, and
    give it back if what follows the piece ([k]) does not match. *)
Fixpoint greedy (ok : ascii -> bool) (k : string -> string -> option matched)
    (taken s : string) : option matched :=
  match s with
  | String c t =>
      if ok c
      then orelse (greedy ok k (taken ++ String c "") t) (k taken s)
      else k taken s
  | "" => k taken s
  end.

Fixpoint match_here (ignorecase : bool) (p : pattern) (s : string)
    : option matched :=
  match p with
  | [] => Some ([], s)
  | Piece q a captures :: p' =>
      let k (taken rest : string) : option matched :=
        match match_here ignorecase p' rest with
        | Some (groups, after) =>
            Some (if captures then taken :: groups else groups, after)
        | None => None
        end in
      let ok := accepts ignorecase a in
      match q with
      | Once =>
          match s with
          | String c t => if ok c then k (String c "") t else None
          | "" => None
          end
      | Optional =>
          match s with
          | String c t => if ok c then orelse (k (String c "") t) (k "" s) else k "" s
          | "" => k "" s
          end
      | ZeroOrMore => greedy ok k "" s
      | OneOrMore =>
          match s with
          | String c t => if ok c then greedy ok k (String c "") t else None
          | "" => None
          end
      end
  end.

(** [re.finditer(pattern, text, flags)]: the matches from left to right,
    each search starting where the previous match ended.  [skip] counts
    the characters of the last match still to be passed.  (The two
    patterns below never match the empty string.) *)
Fixpoint finditer_from (ignorecase : bool) (p : pattern) (skip : nat)
    (s : string) : list matched :=
  match s with
  | "" => []
  | String _ t =>
      match skip with
      | S n => finditer_from ignorecase p n t
      | O =>
          match match_here ignorecase p s with
          | Some (groups, after) =>
              (groups, after)
                :: finditer_from ignorecase p
                     (String.length s - String.length after - 1) t
          | None => finditer_from ignorecase p 0 t
          end
      end
  end.

Definition finditer (ignorecase : bool) (p : pattern) (text : string)
    : list matched :=
  finditer_from ignorecase p 0 text.

(** [match.group(i)] for [i >= 1] *)
Definition group (m : matched) (i : nat) : result string :=
  getitem (fst m) (i - 1).

(** ** The patterns *)

Definition literal (c : ascii) : piece := Piece Once (Chr c) false.

Fixpoint literally (s : string) : pattern :=
  match s with
  | "" => []
  | String c t => literal c :: literally t
  end.

(** [:?\s*\+?(\d+)%] *)
Definition percent_value : pattern :=
  [ Piece Optional (Chr ":") false;
    Piece ZeroOrMore Space false;
    Piece Optional (Chr "+") false;
    Piece OneOrMore Digit true;
    Piece Once (Chr "%") false ].

(** [r"Item Drop Rate:?\s*\+?(\d+)%"] *)
Definition item_drop_rate_pattern : pattern :=
  (literally "Item Drop Rate" ++ percent_value)%list.

(** [r"Mesos Obtained:?\s*\+?(\d+)%"] *)
Definition mesos_obtained_pattern : pattern :=
  (literally "Mesos Obtained" ++ percent_value)%list.

(** ** The extractors *)

(** The body of both [for match in matches] loops:
    [try: total += int(match.group(1)) except (IndexError, ValueError): pass] *)
Definition accumulate (total : result Z) (m : matched) : result Z :=
  total <- total ;;
  try_except
    (g <- group m 1 ;; n <- int g ;; Ok (total + n)%Z)
    IndexError_or_ValueError
    (Ok total).

Definition extract_item_drop_rate (text : string) : result Z :=
  let matches := finditer true item_drop_rate_pattern text in
  fold_left accumulate matches (Ok 0%Z).

Definition extract_mesos_obtained (text : string) : result Z :=
  let matches := finditer true mesos_obtained_pattern text in
  fold_left accumulate matches (Ok 0%Z).

End Ocr.

(* ===================================================================== *)
(** * The collaborators *)
(* ===================================================================== *)

Module Sys.
Import Py.

(** What one run observes of the outside world.  Each oracle is indexed
    by the number of earlier calls of the same kind. *)
Record env : Type := Env {
  (** [get_maplestory_window()] before the loop starts *)
  window_at_start : result unit;
  (** [keyboard.is_pressed(...)] at the n-th call of [check_stop_key] *)
  stop_key : nat -> bool;
  (** the n-th sampling of a screen region: window lookup, capture,
      debug image and Tesseract; the text, or what one of them raised *)
  region_text : nat -> result string;
  (** the n-th retry action ([click_reroll_button], [reroll]) *)
  retry_action : nat -> result unit
}.

(** Entries of the session log of the keyword policy. *)
Inductive log_entry : Type :=
| OcrScan (text : string) (item_drop_rate mesos_obtained : Z)
    (prime_line_count : nat)
| TextUnchanged (last_text : string)
| Success (max_mode : bool) (item_drop_rate mesos_obtained : Z)
    (prime_lines_found : nat).

Inductive event : Type :=
| StopKey (pressed : bool)
| Sample (text : result string)
| ErrorPrinted (e : exn)
| Logged (entry : log_entry)
| Reroll (r : result unit)
| Sleep (seconds : Q).

Record state : Type := State {
  polls : nat;                  (* calls of check_stop_key so far *)
  samples : nat;                (* regions sampled so far *)
  rerolls : nat;                (* retry actions so far *)
  trace : list event;           (* everything done so far, oldest first *)
  text_history : list string    (* [text_history] of the keyword policy *)
}.

Definition initial : state := State 0 0 0 [] [].

Definition emit (e : event) (st : state) : state :=
  State (polls st) (samples st) (rerolls st) (trace st ++ [e]) (text_history st).

(** Computations: they read the environment, update the state and
    return or raise. *)
Definition M (A : Type) : Type := env -> state -> result A * state.

Definition ret {A} (a : A) : M A := fun _ st => (Ok a, st).

Definition raise {A} (e : exn) : M A := fun _ st => (Raise e, st).

Definition mbind {A B} (m : M A) (k : A -> M B) : M B :=
  fun w st =>
    match m w st with
    | (Ok a, st') => k a w st'
    | (Raise e, st') => (Raise e, st')
    end.

(** [try: body except Exception as e: handler e] *)
Definition try_catch {A} (body : M A) (handler : exn -> M A) : M A :=
  fun w st =>
    match body w st with
    | (Ok a, st') => (Ok a, st')
    | (Raise e, st') => handler e w st'
    end.

Definition lift {A} (r : result A) : M A := fun _ st => (r, st).

Declare Scope sys_scope.
Delimit Scope sys_scope with sys.
Notation "x <- m ; k" := (mbind m (fun x => k))
  (at level 100, m at next level, right associativity) : sys_scope.
Notation "m ;; k" := (mbind m (fun _ => k))
  (at level 100, right associativity) : sys_scope.
Local Open Scope sys_scope.

Definition check_stop_key : M bool :=
  fun w st =>
    let pressed := stop_key w (polls st) in
    (Ok pressed,
     emit (StopKey pressed)
       (State (S (polls st)) (samples st) (rerolls st) (trace st)
          (text_history st))).

Definition sample_region : M string :=
  fun w st =>
    let r := region_text w (samples st) in
    (r,
     emit (Sample r)
       (State (polls st) (S (samples st)) (rerolls st) (trace st)
          (text_history st))).

Definition invoke_retry_action : M unit :=
  fun w st =>
    let r := retry_action w (rerolls st) in
    (r,
     emit (Reroll r)
       (State (polls st) (samples st) (S (rerolls st)) (trace st)
          (text_history st))).

Definition get_window_at_start : M unit :=
  fun w st => (window_at_start w, st).

Definition sleep (seconds : Q) : M unit :=
  fun _ st => (Ok tt, emit (Sleep seconds) st).

Definition print_error (e : exn) : M unit :=
  fun _ st => (Ok tt, emit (ErrorPrinted e) st).

Definition log (entry : log_entry) : M unit :=
  fun _ st => (Ok tt, emit (Logged entry) st).

Definition get_text_history : M (list string) :=
  fun _ st => (Ok (text_history st), st).

Definition set_text_history (h : list string) : M unit :=
  fun _ st =>
    (Ok tt, State (polls st) (samples st) (rerolls st) (trace st) h).

(** How a run ends.  [Failed] is the handler around the whole of [main]:
    the exception is printed and the process ends. *)
Inductive outcome : Type :=
| Succeeded
| Stuck
| Cancelled
| Failed (e : exn).

(** What the body of [while True] does next: [break], or [return] from
    [main] (both [Stop]), or go round again. *)
Inductive control : Type :=
| Stop (o : outcome)
| Again.

(** The delay after a retry action:
    [for _ in range(split_delay): if check_stop_key(): return;
     time.sleep(split_time)].
    The result tells whether the stop key was seen. *)
Fixpoint sliced_delay (slices : nat) (split_time : Q) : M bool :=
  match slices with
  | O => ret false
  | S n =>
      pressed <- check_stop_key ;
      if pressed then ret true
      else (sleep split_time ;; sliced_delay n split_time)
  end.

(** [while True: body], unrolled at most [fuel] times; [None] when the
    loop is still running after that. *)
Fixpoint while_true (fuel : nat) (body : M control) : M (option outcome) :=
  match fuel with
  | O => ret None
  | S n =>
      c <- body ;
      match c with
      | Stop o => ret (Some o)
      | Again => while_true n body
      end
  end.

End Sys.

(* ===================================================================== *)
(** * dropRate_MesosObt.py: the keyword policy *)
(* ===================================================================== *)

Module Keyword.
Import Py Ocr Sys.
Local Open Scope sys_scope.

(** The dictionary [scan_for_stats] returns; its five keys are fixed. *)
Record stats : Type := Stats {
  item_drop_rate : Z;
  mesos_obtained : Z;
  has_item_keyword : bool;
  has_mesos_keyword : bool;
  raw_text : string
}.

Definition count_keywords (has_item has_mesos : bool) : nat :=
  (if has_item then 1 else 0) + (if has_mesos then 1 else 0).

(** [scan_for_stats()]: the dictionary, or [None] when anything in the
    body raised. *)
Definition scan_for_stats : M (option stats) :=
  try_catch
    (text <- sample_region ;
     let text_lower := lower text in
     let has_item_keyword := contains "item drop" text_lower in
     let has_mesos_keyword := contains "mesos" text_lower in
     let prime_line_count := count_keywords has_item_keyword has_mesos_keyword in
     item_drop_rate <- lift (extract_item_drop_rate text) ;
     mesos_obtained <- lift (extract_mesos_obtained text) ;
     log (OcrScan text item_drop_rate mesos_obtained prime_line_count) ;;
     ret (Some (Stats item_drop_rate mesos_obtained
                  has_item_keyword has_mesos_keyword text)))
    (fun e => print_error e ;; ret None).

Definition reroll_delay : Q := 1.
Definition split_delay : nat := 4.
Definition split_time : Q := reroll_delay / inject_Z (Z.of_nat split_delay).

(** [len(text_history) == 3 and
     text_history[0] == text_history[1] == text_history[2]] *)
Definition unchanged_for_3_tries (text_history : list string) : result bool :=
  if (length text_history =? 3)%nat
  then bind (getitem text_history 0) (fun a =>
       bind (getitem text_history 1) (fun b =>
       if String.eqb a b
       then bind (getitem text_history 2) (fun c => Ok (String.eqb b c))
       else Ok false))
  else Ok false.

(** [text_history.append(current_text)], then
    [if len(text_history) > 3: text_history.pop(0)] *)
Definition remember (text_history : list string) (current_text : string)
    : list string :=
  let appended := (text_history ++ [current_text])%list in
  if (3 <? length appended)%nat then drop 1 appended else appended.

(** Lines 211-225: the first [if result:] of the loop. *)
Definition check_stuck (result : option stats) : M control :=
  match result with
  | Some r =>
      let current_text := raw_text r in
      h <- get_text_history ;
      set_text_history (remember h current_text) ;;
      h <- get_text_history ;
      unchanged <- lift (unchanged_for_3_tries h) ;
      if unchanged
      then (log (TextUnchanged current_text) ;; ret (Stop Stuck))
      else ret Again
  | None => ret Again
  end.

Definition count_prime_lines (r : stats) : nat :=
  let prime_lines_found := 0 in
  let prime_lines_found :=
    if has_item_keyword r then prime_lines_found + 1 else prime_lines_found in
  let prime_lines_found :=
    if has_mesos_keyword r then prime_lines_found + 1 else prime_lines_found in
  prime_lines_found.

(** Lines 227-249: the second [if result:] of the loop. *)
Definition check_goal (max_mode : bool) (result : option stats) : M control :=
  match result with
  | Some r =>
      let prime_lines_found := count_prime_lines r in
      if (negb max_mode && (0 <? prime_lines_found)%nat)
         || (max_mode && (2 <=? prime_lines_found)%nat)
      then (log (Success max_mode (item_drop_rate r) (mesos_obtained r)
                   prime_lines_found) ;;
            ret (Stop Succeeded))
      else ret Again
  | None => ret Again
  end.

(** Lines 251-260: reroll, then the sliced delay. *)
Definition reroll_and_wait : M control :=
  invoke_retry_action ;;
  pressed <- sliced_delay split_delay split_time ;
  if pressed then ret (Stop Cancelled) else ret Again.

(** The body of [while True] (lines 201-260). *)
Definition loop_body (max_mode : bool) : M control :=
  pressed <- check_stop_key ;
  if pressed then ret (Stop Cancelled)
  else
    result <- scan_for_stats ;
    stuck <- check_stuck result ;
    match stuck with
    | Stop o => ret (Stop o)
    | Again =>
        goal <- check_goal max_mode result ;
        match goal with
        | Stop o => ret (Stop o)
        | Again => reroll_and_wait
        end
    end.

(** [main()] with [args.max = max_mode]. *)
Definition main (fuel : nat) (max_mode : bool) : M (option outcome) :=
  set_text_history [] ;;
  try_catch
    (get_window_at_start ;;
     while_true fuel (loop_body max_mode))
    (fun e => print_error e ;; ret (Some (Failed e))).

Definition run (fuel : nat) (max_mode : bool) (w : env)
    : result (option outcome) * state :=
  main fuel max_mode w initial.

End Keyword.

(* ===================================================================== *)
(** * test2.py: the comparative policy *)
(* ===================================================================== *)

Module Comparative.
Import Py Sys.

Definition STR : string := "STR".
Definition DEX : string := "DEX".
Definition INT : string := "INT".
Definition LUK : string := "LUK".

Definition REROLL_DELAY : Q := 1 # 10.
Definition SPLIT_DELAY : nat := 4.

Section Configuration.

(** The two module-level settings, [MAIN_STAT] and [SECONDARY_STAT]. *)
Variables MAIN_STAT SECONDARY_STAT : string.

Definition initial_stats : gmap string Z :=
  <["main_stat" := 0%Z]>
  (<["secondary_stat" := 0%Z]>
  (<["weapon_attack" := 0%Z]>
  (<["magic_attack" := 0%Z]>
  (<["all_stat_percent" := 0%Z]> ∅)))).

(** [try: stats[key] = int(text) except (IndexError, ValueError): pass],
    where [text] stands for the expression under [int]. *)
Definition try_assign (stats : gmap string Z) (key : string)
    (text : result string) : result (gmap string Z) :=
  try_except
    (bind text (fun v => bind (int v) (fun n => Ok (<[key := n]> stats))))
    IndexError_or_ValueError
    (Ok stats).

(** [line.replace(" +", "+").replace("+ ", "+")] *)
Definition normalize (line : string) : string :=
  replace "+ " "+" (replace " +" "+" line).

(** The body of [for line in lines] (lines 173-204). *)
Definition parse_line (stats : gmap string Z) (line : string)
    : result (gmap string Z) :=
  let line := normalize line in
  bind (if contains MAIN_STAT line
        then try_assign stats "main_stat" (getitem (split "+" line) 1)
        else Ok stats) (fun stats =>
  bind (if contains SECONDARY_STAT line
        then try_assign stats "secondary_stat" (getitem (split "+" line) 1)
        else Ok stats) (fun stats =>
  bind (if contains "WEAPON ATTACK" line || contains "WEAPON ATT" line
        then try_assign stats "weapon_attack" (getitem (split "+" line) 1)
        else Ok stats) (fun stats =>
  if contains "All Stats" line
  then try_assign stats "all_stat_percent"
         (bind (getitem (split "+" line) 1) (fun value =>
          Ok (replace "%" "" value)))
  else Ok stats))).

Fixpoint parse_lines (stats : gmap string Z) (lines : list string)
    : result (gmap string Z) :=
  match lines with
  | [] => Ok stats
  | line :: rest => bind (parse_line stats line) (fun stats => parse_lines stats rest)
  end.

(** Lines 161-207 of [extract_stats]: from the OCR text to the stats. *)
Definition stats_of_text (text : string) : result (gmap string Z) :=
  parse_lines initial_stats (split "010" text).

(** [extract_stats(image, is_before)], the capture of the image included. *)
Definition extract_stats : M (gmap string Z) :=
  mbind sample_region (fun text => lift (stats_of_text text)).

End Configuration.

(** [stats[key]] *)
Definition lookup_key (stats : gmap string Z) (key : string) : result Z :=
  match stats !! key with
  | Some v => Ok v
  | None => Raise KeyError
  end.

(** [calculate_flame_score(stats)]: the sum of three [int]s and the
    [float] [stats["secondary_stat"] / 8]. *)
Definition calculate_flame_score (stats : gmap string Z) : result Q :=
  bind (lookup_key stats "main_stat") (fun main_stat_value =>
  bind (lookup_key stats "weapon_attack") (fun weapon_attack =>
  let weapon_att_value := (weapon_attack * 4)%Z in
  bind (lookup_key stats "all_stat_percent") (fun all_stat_percent =>
  let all_stat_value := (all_stat_percent * 8)%Z in
  bind (lookup_key stats "secondary_stat") (fun secondary_stat =>
  let secondary_stat_value := (inject_Z secondary_stat / 8)%Q in
  let flame_score :=
    (inject_Z (main_stat_value + weapon_att_value + all_stat_value)
     + secondary_stat_value)%Q in
  Ok flame_score)))).

(** [a < b] on floats *)
Definition float_lt (a b : Q) : bool := negb (Qle_bool b a).

Section Loop.
Variables MAIN_STAT SECONDARY_STAT : string.
Local Open Scope sys_scope.

Definition split_time : Q := REROLL_DELAY / inject_Z (Z.of_nat SPLIT_DELAY).

(** The body of [while True] (lines 374-411). *)
Definition loop_body : M control :=
  pressed <- check_stop_key ;
  if pressed then ret (Stop Cancelled)
  else
    before_stats <- extract_stats MAIN_STAT SECONDARY_STAT ;
    before_score <- lift (calculate_flame_score before_stats) ;
    after_stats <- extract_stats MAIN_STAT SECONDARY_STAT ;
    after_score <- lift (calculate_flame_score after_stats) ;
    pressed <- check_stop_key ;
    if pressed then ret (Stop Cancelled)
    else if float_lt after_score before_score
    then
      (invoke_retry_action ;;
       pressed <- sliced_delay SPLIT_DELAY split_time ;
       if pressed then ret (Stop Cancelled) else ret Again)
    else ret (Stop Succeeded).

Definition main (fuel : nat) : M (option outcome) :=
  try_catch
    (get_window_at_start ;;
     while_true fuel loop_body)
    (fun e => print_error e ;; ret (Some (Failed e))).

Definition run (fuel : nat) (w : env) : result (option outcome) * state :=
  main fuel w initial.

End Loop.

End Comparative.


(* ===================================================================== *)
(** * modules/window.py, modules/automation.py and the retry action of
      test2.py: what is done to the machine *)
(* ===================================================================== *)

Module Desktop.
Import Py.
Local Open Scope list_scope.

(** [proc.info] of a process that [psutil.process_iter(["pid", "name"])]
    yields; the name is [None] when it could not be read. *)
Record process : Type := Process {
  pid : Z;
  name : option string
}.

(** A rectangle of the screen, [(left, upper, right, lower)]. *)
Definition bbox : Type := (Z * Z * Z * Z)%type.

(** A top-level window as [EnumWindows] meets it. *)
Record window : Type := Window {
  hwnd : Z;
  visible : bool;    (* win32gui.IsWindowVisible(hwnd) *)
  owner : Z          (* win32process.GetWindowThreadProcessId(hwnd)[1] *)
}.

(** The calls that act on the machine. *)
Inductive action : Type :=
| DispatchShell                      (* win32com.client.Dispatch *)
| ShowWindow (hwnd : Z) (cmd : Z)    (* win32gui.ShowWindow *)
| SendKeys (keys : string)           (* shell.SendKeys *)
| SetForegroundWindow (hwnd : Z)     (* win32gui.SetForegroundWindow *)
| MoveTo (x y : Z) (duration : Q)    (* pyautogui.moveTo *)
| Click                              (* pyautogui.click *)
| Press (key : string)               (* pyautogui.press *)
| MakeDirs                           (* os.makedirs(temp_dir, exist_ok=True) *)
| Grab (box : bbox)                  (* ImageGrab.grab(bbox=box) *)
| Save (filename : string)           (* screenshot.save *)
| Remove (path : string).            (* os.remove *)

(** What happened: a call that went through, a call that raised, a
    [time.sleep], an exception printed by a handler. *)
Inductive entry : Type :=
| Did (a : action)
| Raised (a : action) (e : exn)
| Slept (seconds : Q)
| Printed (e : exn).

(** What a function observes of the machine: the processes and the
    windows in the order of their enumeration (the enumerations
    themselves are taken not to raise), and what the n-th call that acts
    on the machine raises, if it raises. *)
Record world : Type := World {
  processes : list process;
  windows : list window;
  fault : nat -> option exn
}.

Record dstate : Type := DState {
  calls : nat;            (* calls that acted on the machine so far *)
  done : list entry       (* what happened so far, oldest first *)
}.

Definition D (A : Type) : Type := world -> dstate -> result A * dstate.

Definition ret {A} (a : A) : D A := fun _ st => (Ok a, st).

Definition raise {A} (e : exn) : D A := fun _ st => (Raise e, st).

Definition dbind {A B} (m : D A) (k : A -> D B) : D B :=
  fun w st =>
    match m w st with
    | (Ok a, st') => k a w st'
    | (Raise e, st') => (Raise e, st')
    end.

(** [try: body except Exception as e: handler e] *)
Definition try_catch {A} (body : D A) (handler : exn -> D A) : D A :=
  fun w st =>
    match body w st with
    | (Ok a, st') => (Ok a, st')
    | (Raise e, st') => handler e w st'
    end.

Declare Scope desktop_scope.
Delimit Scope desktop_scope with desktop.
Notation "x <- m ; k" := (dbind m (fun x => k))
  (at level 100, m at next level, right associativity) : desktop_scope.
Notation "m ;; k" := (dbind m (fun _ => k))
  (at level 100, right associativity) : desktop_scope.
Local Open Scope desktop_scope.

Definition act (a : action) : D unit :=
  fun w st =>
    match fault w (calls st) with
    | None => (Ok tt, DState (S (calls st)) (done st ++ [Did a]))
    | Some e => (Raise e, DState (S (calls st)) (done st ++ [Raised a e]))
    end.

Definition sleep (seconds : Q) : D unit :=
  fun _ st => (Ok tt, DState (calls st) (done st ++ [Slept seconds])).

Definition print_error (e : exn) : D unit :=
  fun _ st => (Ok tt, DState (calls st) (done st ++ [Printed e])).

(** ** modules/window.py (test2.py holds a copy of the function) *)

(** [proc.info["name"] and proc.info["name"].lower() == "maplestory.exe"] *)
Definition is_maplestory (p : process) : bool :=
  match name p with
  | Some n => negb (String.eqb n "") && String.eqb (lower n) "maplestory.exe"
  | None => false
  end.

(** The [for proc in ...] loop with its [break]: [maplestory_pid]. *)
Fixpoint find_pid (procs : list process) : option Z :=
  match procs with
  | [] => None
  | proc :: rest =>
      if is_maplestory proc then Some (pid proc) else find_pid rest
  end.

(** [callback(hwnd, hwnds)] *)
Definition callback (maplestory_pid : Z) (hwnds : list Z) (w : window)
    : list Z :=
  if visible w
  then if (owner w =? maplestory_pid)%Z then hwnds ++ [hwnd w] else hwnds
  else hwnds.

(** [win32gui.EnumWindows(callback, hwnds)] from [hwnds = []]. *)
Definition enum_windows (maplestory_pid : Z) (ws : list window) : list Z :=
  fold_left (callback maplestory_pid) ws [].

Definition not_running : exn :=
  OtherException "MapleStory.exe is not running!".

Definition window_not_found : exn :=
  OtherException "MapleStory window not found!".

(** [if not maplestory_pid] holds for [None] and for the pid 0. *)
Definition find_and_activate_maplestory : D Z :=
  fun w =>
    match find_pid (processes w) with
    | None => raise not_running w
    | Some maplestory_pid =>
        if (maplestory_pid =? 0)%Z then raise not_running w
        else
          match enum_windows maplestory_pid (windows w) with
          | [] => raise window_not_found w
          | h :: _ =>
              (act DispatchShell ;;
               act (ShowWindow h 9) ;;
               act (SendKeys "%") ;;
               act (SetForegroundWindow h) ;;
               sleep (2 # 10) ;;
               ret h) w
          end
    end.

(** ** modules/automation.py *)

Definition click_reroll_button (window_rect : bbox) : D bool :=
  let '(x1, y1, _, _) := window_rect in
  let button_x := (x1 + 647)%Z in
  let button_y := (y1 + 550)%Z in
  find_and_activate_maplestory ;;
  sleep (1 # 10) ;;
  try_catch
    (act (MoveTo button_x button_y (3 # 10)) ;;
     sleep (5 # 100) ;;
     act Click ;;
     sleep (5 # 100) ;;
     act (Press "enter") ;;
     sleep (5 # 100) ;;
     act (Press "enter") ;;
     sleep (5 # 100) ;;
     act (Press "enter") ;;
     sleep (5 # 10) ;;
     ret true)
    (fun e => print_error e ;; ret false).

(** ** test2.py: the retry action *)



(** ** The regions that are captured *)

(** The box [capture_screen_region] passes to [ImageGrab.grab]
    (modules/screenshot.py). *)
Definition region_box (rect : bbox) (region_x region_y width height : Z)
    : bbox :=
  let '(x1, y1, _, _) := rect in
  let abs_x := (x1 + region_x)%Z in
  let abs_y := (y1 + region_y)%Z in
  (abs_x, abs_y, (abs_x + width)%Z, (abs_y + height)%Z).

(** The region [scan_for_stats] captures (dropRate_MesosObt.py). *)
Definition stat_region (window_rect : bbox) : bbox :=
  let region_x := 607%Z in
  let region_y := 449%Z in
  let width := 168%Z in
  let height := 75%Z in
  region_box window_rect region_x region_y width height.

(** The box [capture_stat_box] passes to [ImageGrab.grab] (test2.py). *)
Definition stat_box (rect : bbox) (is_before : bool) : bbox :=
  let '(x1, y1, _, _) := rect in
  let box_width := 167%Z in
  let box_height := 104%Z in
  let '(box_x, box_y) :=
    if is_before then ((x1 + 607)%Z, (y1 + 350)%Z)
    else ((x1 + 607)%Z, (y1 + 495)%Z) in
  (box_x, box_y, (box_x + box_width)%Z, (box_y + box_height)%Z).

(** ** dropRate_MesosObt.py: the queue of debug screenshots
       (scan_for_stats, lines 93-101) *)

(** [sorted(l)] on strings, by insertion; the order is that of the code
    points, and two strings that compare equal are the same string. *)
Fixpoint insert_sorted (x : string) (l : list string) : list string :=
  match l with
  | [] => [x]
  | y :: l' => if String.leb x y then x :: l else y :: insert_sorted x l'
  end.

Definition sorted (l : list string) : list string :=
  fold_right insert_sorted [] l.

Definition screenshot_queue_size : nat := 7.

(** [all_screenshots[:-screenshot_queue_size]] when there are more than
    [screenshot_queue_size] screenshots, nothing otherwise; [listing] is
    what [glob.glob] returned. *)
Definition old_screenshots (listing : list string) : list string :=
  let all_screenshots := sorted listing in
  if (screenshot_queue_size <? length all_screenshots)%nat
  then take (length all_screenshots - screenshot_queue_size) all_screenshots
  else [].

(** [for old_screenshot in ...: try: os.remove(old_screenshot)
     except Exception as e: print(...)] *)
Fixpoint remove_each (paths : list string) : D unit :=
  match paths with
  | [] => ret tt
  | old_screenshot :: rest =>
      try_catch (act (Remove old_screenshot)) (fun e => print_error e) ;;
      remove_each rest
  end.

Definition prune_screenshots (listing : list string) : D unit :=
  remove_each (old_screenshots listing).

End Desktop.

(* ===================================================================== *)
(** * dropRate_MesosObt.py: what is written to the log on success *)
(* ===================================================================== *)

Module Report.
Import Py.

(** [str(n)] for an [int]: the decimal digits, most significant first,
    after a minus sign when [n] is negative.  [fuel] bounds the number
    of digits. *)
Definition digit_char (d : N) : ascii := ascii_of_N (48 + d).

Fixpoint digits_of (fuel : nat) (n : N) (acc : string) : string :=
  match fuel with
  | O => acc
  | S fuel' =>
      let acc' := String (digit_char (n mod 10)) acc in
      if (n / 10 =? 0)%N then acc' else digits_of fuel' (n / 10) acc'
  end.

Definition str_natural (n : N) : string :=
  digits_of (S (N.to_nat (N.log2 n))) n "".

Definition str (n : Z) : string :=
  match n with
  | Z0 => "0"
  | Zpos p => str_natural (Npos p)
  | Zneg p => "-" ++ str_natural (Npos p)
  end.

Definition nl : string := String "010" "".

(** What [main] appends to the log file when the goal is reached
    (lines 243-248). *)
Definition success_record (max_mode : bool)
    (item_drop_rate mesos_obtained : Z) (prime_lines_found : nat) : string :=
  let success_header :=
    if negb max_mode then "SUCCESS: DESIRED STATS FOUND"
    else "SUCCESS: " ++ str (Z.of_nat prime_lines_found)
         ++ " PRIME LINES FOUND" in
  (nl ++ "===== " ++ success_header ++ " =====" ++ nl)
  ++ ("Item Drop Rate: +" ++ str item_drop_rate ++ "%" ++ nl)
  ++ ("Mesos Obtained: +" ++ str mesos_obtained ++ "%" ++ nl)
  ++ ("Total Prime Lines: " ++ str (Z.of_nat prime_lines_found) ++ nl).

End Report.
(* ===================================================================== *)
(** * Vocabulary of the statements *)
(* ===================================================================== *)

Import Py Ocr Sys.
Local Open Scope list_scope.

(** ** States and traces *)

(** The state after the events [evs], with the counters moved on. *)
Definition after (st : state) (polls' samples' rerolls' : nat)
    (evs : list event) (history : list string) : state :=
  State polls' samples' rerolls' (trace st ++ evs) history.

(** The texts of the samples taken so far, oldest first. *)
Fixpoint sampled_texts (tr : list event) : list string :=
  match tr with
  | [] => []
  | Sample (Ok text) :: tr' => text :: sampled_texts tr'
  | _ :: tr' => sampled_texts tr'
  end.

(** The last [n] elements of a list. *)
Definition last_n {A} (n : nat) (l : list A) : list A :=
  drop (length l - n) l.

(** What [sliced_delay] does when it starts at the poll number [p]: the
    events, whether the stop key was seen, and the number of the next
    poll. *)
Fixpoint delay_events (w : env) (d : Q) (n p : nat) : list event :=
  match n with
  | O => []
  | S n' =>
      if stop_key w p then [StopKey true]
      else StopKey false :: Sleep d :: delay_events w d n' (S p)
  end.

Fixpoint delay_pressed (w : env) (n p : nat) : bool :=
  match n with
  | O => false
  | S n' => if stop_key w p then true else delay_pressed w n' (S p)
  end.

Fixpoint delay_polls (w : env) (n p : nat) : nat :=
  match n with
  | O => p
  | S n' => if stop_key w p then S p else delay_polls w n' (S p)
  end.

(** The history holds the last three sampled texts, oldest first. *)
Definition fifo (st : state) : Prop :=
  text_history st = last_n 3 (sampled_texts (trace st)).

(** ** Pacing of a trace

    A trace is well paced when it is accepted by the automaton below:
    a successful retry action opens a delay of [slices] slices; inside
    the delay a poll of the stop key and a sleep of one slice alternate,
    and a poll closes it; a sleep occurs nowhere else; nothing follows a
    poll that found the stop key down. *)

Inductive pace : Type :=
| Idle                          (* outside a delay *)
| Waiting (slices_left : nat)   (* in a delay: a poll is due *)
| Polled (slices_left : nat)    (* polled, key up: a sleep of one slice is due *)
| Stopped.                      (* the stop key was seen *)

Definition pace_step (slices : nat) (slice : Q) (p : pace) (e : event)
    : option pace :=
  match p, e with
  | Stopped, _ => None
  | Polled n, Sleep x => if Qeq_bool x slice then Some (Waiting n) else None
  | Polled _, _ => None
  | Waiting _, StopKey true => Some Stopped
  | Waiting (S n), StopKey false => Some (Polled n)
  | Waiting O, StopKey false => Some Idle
  | Waiting _, _ => None
  | Idle, StopKey true => Some Stopped
  | Idle, Reroll (Ok _) => Some (Waiting slices)
  | Idle, Sleep _ => None
  | Idle, _ => Some Idle
  end.

Fixpoint pace_run (slices : nat) (slice : Q) (p : pace) (tr : list event)
    : option pace :=
  match tr with
  | [] => Some p
  | e :: tr' =>
      match pace_step slices slice p e with
      | Some q => pace_run slices slice q tr'
      | None => None
      end
  end.

(** The events of one delay of at most [n] slices, as far as the trace
    goes: a poll; if the key is down nothing more; if it is up a sleep of
    one slice and the rest of the delay; after the last slice one more
    poll, the one at the entry of the loop. *)
Fixpoint delay_shape (slice : Q) (n : nat) (l : list event) : Prop :=
  match l with
  | [] => True
  | StopKey true :: rest => rest = []
  | StopKey false :: rest =>
      match n with
      | O => True
      | S n' =>
          match rest with
          | [] => True
          | Sleep x :: rest' => x == slice /\ delay_shape slice n' rest'
          | _ :: _ => False
          end
      end
  | _ :: _ => False
  end.

(** What the claims say of the trace and the outcome of a run. *)
Definition well_paced (slices : nat) (slice : Q)
    (run : result (option outcome) * state) : Prop :=
  let tr := trace (snd run) in
  (* a sleep lasts one slice, comes directly after a poll that found the
     key up, and is directly followed by a poll *)
  (forall i x,
     tr !! i = Some (Sleep x) ->
     x == slice
     /\ (exists j, i = S j /\ tr !! j = Some (StopKey false))
     /\ (tr !! S i = None \/ exists b, tr !! S i = Some (StopKey b)))
  (* a retry action that succeeded is followed by a delay of [slices] slices *)
  /\ (forall i,
        tr !! i = Some (Reroll (Ok tt)) ->
        delay_shape slice slices (drop (S i) tr))
  (* a poll that finds the key down is the last event, and the run is
     cancelled; a cancelled run ends with such a poll *)
  /\ (forall i,
        tr !! i = Some (StopKey true) ->
        S i = length tr /\ fst run = Ok (Some Cancelled))
  /\ (fst run = Ok (Some Cancelled) -> last tr = Some (StopKey true)).

(** The body of a loop polls the stop key before anything else, and
    stops as [Cancelled] at once when the key is down. *)
Definition polled_at_entry (body : M control) (w : env) (st : state)
    : Prop :=
  (stop_key w (polls st) = true ->
   body w st
   = (Ok (Stop Cancelled),
      after st (S (polls st)) (samples st) (rerolls st) [StopKey true]
        (text_history st)))
  /\ exists evs,
       trace (snd (body w st))
       = trace st ++ StopKey (stop_key w (polls st)) :: evs.

(** Where the automaton stands when the body of the loop starts. *)
Definition at_loop_entry (slices : nat) (slice : Q) (st : state) : Prop :=
  pace_run slices slice Idle (trace st) = Some Idle
  \/ pace_run slices slice Idle (trace st) = Some (Waiting 0).

(** The trace is well paced, and it ends with the stop key seen exactly
    when the outcome is [Cancelled]. *)
Definition paced (slices : nat) (slice : Q)
    (r : result (option outcome)) (st : state) : Prop :=
  exists q,
    pace_run slices slice Idle (trace st) = Some q
    /\ (q = Stopped <-> r = Ok (Some Cancelled)).

(** What the body of a loop owes for [paced] to hold of the run. *)
Definition paced_body (slices : nat) (slice : Q) (body : M control)
    (w : env) : Prop :=
  forall st,
    at_loop_entry slices slice st ->
    match body w st with
    | (Ok Again, st') => at_loop_entry slices slice st'
    | (Ok (Stop o), st') => paced slices slice (Ok (Some o)) st'
    | (Raise _, st') => pace_run slices slice Idle (trace st') = Some Idle
    end.

(** ** The keyword policy *)

(** The stuck detector as a truth value. *)
Definition stuck (h : list string) : bool :=
  match Keyword.unchanged_for_3_tries h with
  | Ok b => b
  | Raise _ => false
  end.

Definition total (r : result Z) : Z :=
  match r with
  | Ok n => n
  | Raise _ => 0%Z
  end.

(** The dictionary [scan_for_stats] builds from a text, and its entry in
    the session log. *)
Definition scanned (text : string) : Keyword.stats :=
  Keyword.Stats
    (total (extract_item_drop_rate text)) (total (extract_mesos_obtained text))
    (contains "item drop" (lower text)) (contains "mesos" (lower text)) text.

Definition scan_entry (text : string) : event :=
  Logged (OcrScan text (total (extract_item_drop_rate text))
            (total (extract_mesos_obtained text))
            (Keyword.count_keywords (contains "item drop" (lower text))
               (contains "mesos" (lower text)))).

(** The number of categories whose label is in the lower-cased text. *)
Definition prime_line_count (text : string) : nat :=
  (if contains "item drop" (lower text) then 1 else 0)
  + (if contains "mesos" (lower text) then 1 else 0).

(** 1 in standard operation, 2 in max mode. *)
Definition threshold (max_mode : bool) : nat := if max_mode then 2 else 1.

Definition goal_reached (max_mode : bool) (r : Keyword.stats) : bool :=
  (negb max_mode && (0 <? Keyword.count_prime_lines r)%nat)
  || (max_mode && (2 <=? Keyword.count_prime_lines r)%nat).

Definition success_entry (max_mode : bool) (text : string) : event :=
  Logged (Success max_mode (Keyword.item_drop_rate (scanned text))
            (Keyword.mesos_obtained (scanned text))
            (Keyword.count_prime_lines (scanned text))).

(** ** The comparative policy *)

(** The text between the first plus sign of a line and the next one (or
    the end of the line); [None] when the line has no plus sign. *)
Fixpoint up_to_plus (s : string) : string :=
  match s with
  | "" => ""
  | String c t => if Ascii.eqb c "+" then "" else String c (up_to_plus t)
  end.

Fixpoint after_first_plus (s : string) : option string :=
  match s with
  | "" => None
  | String c t =>
      if Ascii.eqb c "+" then Some (up_to_plus t) else after_first_plus t
  end.

(** The integer following the first plus sign, when there is one. *)
Definition integer_after_plus (line : string) : option Z :=
  match after_first_plus line with
  | Some v => match int v with Ok n => Some n | Raise _ => None end
  | None => None
  end.

(** The same with the per cent signs removed first. *)
Definition percent_after_plus (line : string) : option Z :=
  match after_first_plus line with
  | Some v =>
      match int (replace "%" "" v) with Ok n => Some n | Raise _ => None end
  | None => None
  end.

Definition assign (stats : gmap string Z) (key : string) (v : option Z)
    : gmap string Z :=
  match v with
  | Some n => <[key := n]> stats
  | None => stats
  end.

(** [s] does not contain the character [c]. *)
Definition free_of (c : ascii) (s : string) : Prop :=
  contains (String c "") s = false.

Section ComparativeVocabulary.
Variables MAIN_STAT SECONDARY_STAT : string.

(** What one line contributes to the field [key]: the integer after the
    first plus sign of the normalized line, when the label of the field
    is on that line. *)
Definition contribution (key line : string) : option Z :=
  let line := Comparative.normalize line in
  if String.eqb key "main_stat" then
    if contains MAIN_STAT line then integer_after_plus line else None
  else if String.eqb key "secondary_stat" then
    if contains SECONDARY_STAT line then integer_after_plus line else None
  else if String.eqb key "weapon_attack" then
    if contains "WEAPON ATTACK" line || contains "WEAPON ATT" line
    then integer_after_plus line else None
  else if String.eqb key "all_stat_percent" then
    if contains "All Stats" line then percent_after_plus line else None
  else None.

(** The value of a field after some lines: the last contribution, or what
    it was before when no line contributes. *)
Definition latest (key : string) (lines : list string) (before : option Z)
    : option Z :=
  fold_left
    (fun v line =>
       match contribution key line with Some n => Some n | None => v end)
    lines before.

(** The stats after one line. *)
Definition parsed_line (stats : gmap string Z) (line : string)
    : gmap string Z :=
  let l := Comparative.normalize line in
  let stats :=
    if contains MAIN_STAT l then assign stats "main_stat" (integer_after_plus l)
    else stats in
  let stats :=
    if contains SECONDARY_STAT l
    then assign stats "secondary_stat" (integer_after_plus l) else stats in
  let stats :=
    if contains "WEAPON ATTACK" l || contains "WEAPON ATT" l
    then assign stats "weapon_attack" (integer_after_plus l) else stats in
  if contains "All Stats" l
  then assign stats "all_stat_percent" (percent_after_plus l)
  else stats.

(** The flame score of the stats read from a text. *)
Definition score_of (text : string) : Q :=
  match
    Py.bind (Comparative.stats_of_text MAIN_STAT SECONDARY_STAT text)
      Comparative.calculate_flame_score
  with
  | Ok q => q
  | Raise _ => 0%Q
  end.

End ComparativeVocabulary.

(** ** Occurrences of a keyword-mode pattern *)

Fixpoint all_chars (p : ascii -> bool) (s : string) : bool :=
  match s with
  | "" => true
  | String c t => p c && all_chars p t
  end.

(** The number a string of decimal digits denotes. *)
Fixpoint decimal_from (acc : Z) (ds : string) : Z :=
  match ds with
  | "" => acc
  | String c t => decimal_from (10 * acc + digit_value c) t
  end.

Definition decimal (ds : string) : Z := decimal_from 0 ds.

(** [s] is an occurrence of
    [<label> [optional colon] [white space] [optional '+'] <integer> %],
    the label read without regard to case, and [n] is its integer. *)
Inductive occurrence (label : string) : string -> Z -> Prop :=
| Occurrence (lab colon ws plus ds : string) :
    lower lab = lower label ->
    colon = "" \/ colon = ":" ->
    all_chars isspace ws = true ->
    plus = "" \/ plus = "+" ->
    ds <> "" ->
    all_chars isdigit ds = true ->
    occurrence label (lab ++ colon ++ ws ++ plus ++ ds ++ "%")%string
      (decimal ds).

(** No occurrence starts at the beginning of [text]. *)
Definition no_occurrence_here (label text : string) : Prop :=
  forall s n rest, occurrence label s n -> text <> (s ++ rest)%string.

(** The integers of the occurrences met when the text is read from the
    left: where an occurrence starts it is taken and reading goes on
    behind it (so occurrences do not overlap); elsewhere reading moves on
    by one character. *)
Inductive occurrences (label : string) : string -> list Z -> Prop :=
| occurrences_end : occurrences label "" []
| occurrences_here (s rest : string) (n : Z) (ns : list Z) :
    occurrence label s n ->
    occurrences label rest ns ->
    occurrences label (s ++ rest)%string (n :: ns)
| occurrences_skip (c : ascii) (t : string) (ns : list Z) :
    no_occurrence_here label (String c t) ->
    occurrences label t ns ->
    occurrences label (String c t) ns.

Definition sum (ns : list Z) : Z := fold_right Z.add 0%Z ns.

(** *** The patterns, matched without backtracking *)

Fixpoint take_while (p : ascii -> bool) (s : string) : string :=
  match s with
  | "" => ""
  | String c t => if p c then String c (take_while p t) else ""
  end.

Fixpoint drop_while (p : ascii -> bool) (s : string) : string :=
  match s with
  | "" => ""
  | String c t => if p c then drop_while p t else s
  end.

(** [s] without its first character when that is [c]. *)
Definition drop_char (c : ascii) (s : string) : string :=
  match s with
  | String c' t => if Ascii.eqb c c' then t else s
  | "" => ""
  end.

(** [s] without its first [n] characters. *)
Fixpoint drop_chars (n : nat) (s : string) : string :=
  match n, s with
  | O, _ => s
  | S n', String _ t => drop_chars n' t
  | S _, "" => ""
  end.

(** [s] starts with [label], case ignored. *)
Fixpoint starts_with_label (label s : string) : bool :=
  match label, s with
  | "", _ => true
  | String a label', String b s' =>
      Ascii.eqb (lower_char a) (lower_char b) && starts_with_label label' s'
  | String _ _, "" => false
  end.

(** [(\d+)%] at the start of [s]: the digits and what follows. *)
Definition digits_percent (s : string) : option (string * string) :=
  match take_while isdigit s, drop_while isdigit s with
  | String d ds, String c rest =>
      if Ascii.eqb "%" c then Some (String d ds, rest) else None
  | _, _ => None
  end.

(** An occurrence at the start of [s]: its digits and what follows it. *)
Definition occurrence_at (label s : string) : option (string * string) :=
  if starts_with_label label s
  then digits_percent
         (drop_char "+"
            (drop_while isspace
               (drop_char ":" (drop_chars (String.length label) s))))
  else None.

(** A match of the direct matcher as [match_here] reports it. *)
Definition as_match (o : option (string * string)) : option matched :=
  match o with
  | Some (ds, rest) => Some ([ds], rest)
  | None => None
  end.


(** What [match_here] does with the rest of the pattern once a piece has
    taken [taken]. *)
Definition continue_with (ignorecase captures : bool) (p : pattern)
    (taken rest : string) : option matched :=
  match match_here ignorecase p rest with
  | Some (groups, after) =>
      Some (if captures then taken :: groups else groups, after)
  | None => None
  end.


(** The tails of [percent_value]. *)
Definition percent_tail : pattern := [Piece Once (Chr "%") false].
Definition digits_tail : pattern := Piece OneOrMore Digit true :: percent_tail.
Definition plus_digits_tail : pattern := Piece Optional (Chr "+") false :: digits_tail.
Definition space_plus_digits_tail : pattern :=
  Piece ZeroOrMore Space false :: plus_digits_tail.


(** What an extractor with the label [label] returns. *)
Definition extracted (label text : string) : result Z :=
  fold_left accumulate
    (finditer true (literally label ++ percent_value) text) (Ok 0%Z).

(** ** Environments and inputs of the examples *)

(** A keyboard on which the stop key is never pressed, a screen that
    always shows [text], and a retry action that never fails. *)
Definition steady_screen (text : string) : env :=
  Env (Ok tt) (fun _ => false) (fun _ => Ok text) (fun _ => Ok tt).

(** A state of the keyword loop whose history is [h]. *)
Definition with_history (h : list string) : state := State 0 0 0 [] h.

(** A screen that shows the texts of [script] one after the other, then
    [rest] for ever; the stop key is never pressed and the retry action
    never fails. *)
Definition scripted_screen (script : list string) (rest : string) : env :=
  Env (Ok tt) (fun _ => false)
    (fun n => Ok (nth n script rest)) (fun _ => Ok tt).

(** The stats dictionary with the given five values. *)
Definition stats_with (main_stat secondary_stat weapon_attack magic_attack
    all_stat_percent : Z) : gmap string Z :=
  <["main_stat" := main_stat]>
  (<["secondary_stat" := secondary_stat]>
  (<["weapon_attack" := weapon_attack]>
  (<["magic_attack" := magic_attack]>
  (<["all_stat_percent" := all_stat_percent]> ∅)))).

(** The line break. *)
Definition newline : ascii := "010"%char.


(** A screen whose first sampling raises [e] and that shows [text] from
    then on. *)
Definition screen_failing_once (e : exn) (text : string) : env :=
  Env (Ok tt) (fun _ => false)
    (fun n => match n with O => Raise e | S _ => Ok text end)
    (fun _ => Ok tt).

(** Two drop-rate lines between unrelated ones, the second in capitals
    and without colon and plus sign. *)
Definition two_drop_rate_lines : string :=
  ("STR +5" ++ String newline
   ("Item Drop Rate: +12%" ++ String newline
    ("Mesos 0btained +3%" ++ String newline "ITEM DROP RATE 7%")))%string.

(** What the window lookup raises when the window is gone. *)
Definition window_lost : exn := OtherException "MapleStory window not found!".

(** A machine on which the game window is not found: the lookup at the
    start of a run raises [e]. *)
Definition without_window (e : exn) : env :=
  Env (Raise e) (fun _ => false) (fun _ => Ok "") (fun _ => Ok tt).

(* ===================================================================== *)
(** * Vocabulary of the further properties *)
(* ===================================================================== *)

(** ** Runs of the two loops *)

(** The text does not reach the goal of the keyword policy. *)
Definition below_goal (max_mode : bool) (text : string) : Prop :=
  prime_line_count text < threshold max_mode.

(** The run stopped at the first sample that reached the goal: no text
    sampled before the last one reaches it, the last one reaches it
    exactly when the run ended as [Succeeded], and a run that ended as
    [Stuck] read the same text three times in a row. *)
Definition stops_at_first_goal (max_mode : bool)
    (run : result (option outcome) * state) : Prop :=
  let texts := sampled_texts (trace (snd run)) in
  match fst run with
  | Ok (Some Succeeded) =>
      exists earlier t,
        texts = earlier ++ [t]
        /\ Forall (below_goal max_mode) earlier
        /\ threshold max_mode <= prime_line_count t
  | Ok (Some Stuck) =>
      Forall (below_goal max_mode) texts
      /\ exists t, last_n 3 texts = [t; t; t]
  | _ => Forall (below_goal max_mode) texts
  end.

(** The samplings and the retry actions of a run of the keyword loop
    alternate: one sampling before every retry action, and one more
    when the run ended on a sample. *)
Definition keyword_counts (run : result (option outcome) * state) : Prop :=
  let st := snd run in
  match fst run with
  | Ok (Some Succeeded) | Ok (Some Stuck) => samples st = S (rerolls st)
  | _ => samples st = rerolls st
  end.

(** In the comparative loop two samplings precede every retry action. *)
Definition comparative_counts (run : result (option outcome) * state)
    : Prop :=
  let st := snd run in
  match fst run with
  | Ok (Some Succeeded) => samples st = 2 * rerolls st + 2
  | Ok None => samples st = 2 * rerolls st
  | _ => 2 * rerolls st <= samples st <= 2 * rerolls st + 2
  end.




(** A screen whose two boxes always show the same two texts: the
    samplings with an even number read [before], the others [later];
    the stop key is never pressed and the retry action never fails. *)
Definition two_boxes (before later : string) : env :=
  Env (Ok tt) (fun _ => false)
    (fun n => Ok (if Nat.even n then before else later)) (fun _ => Ok tt).

(** ** The comparative parser and the scorer *)

(** The characters [int] accepts somewhere in its argument. *)
Definition int_char (c : ascii) : bool :=
  isdigit c || Ascii.eqb c "_" || int_space c
  || Ascii.eqb c "+" || Ascii.eqb c "-".


(** ** The keyword parser *)

(** The label does not start anywhere in [pre], whatever follows [pre]:
    from every position of [pre] a character of [pre] differs from the
    label, case ignored. *)
Fixpoint mismatch_within (label s : string) : bool :=
  match label, s with
  | String a label', String b s' =>
      negb (Ascii.eqb (lower_char a) (lower_char b))
      || mismatch_within label' s'
  | _, _ => false
  end.

Fixpoint no_start (label pre : string) : bool :=
  match pre with
  | "" => true
  | String _ t => mismatch_within label pre && no_start label t
  end.

(** ** What is done to the machine *)

Module DesktopSpec.
Import Desktop.

(** [x] is the first element of [l] that satisfies [P]. *)
Definition first_such {A} (P : A -> bool) (l : list A) (x : A) : Prop :=
  exists l1 l2,
    l = l1 ++ x :: l2 /\ Forall (fun y => P y = false) l1 /\ P x = true.

(** A visible window of the process [p]. *)
Definition shown_by (p : Z) (w : window) : bool :=
  visible w && (owner w =? p)%Z.

(** The calls that bring the window [h] to the front. *)
Definition activate (h : Z) : D Z :=
  (act DispatchShell ;;
   act (ShowWindow h 9) ;;
   act (SendKeys "%") ;;
   act (SetForegroundWindow h) ;;
   sleep (2 # 10) ;;
   ret h)%desktop.

(** What activating the window [h] leaves in the record. *)
Definition activation (h : Z) : list entry :=
  [Did DispatchShell; Did (ShowWindow h 9); Did (SendKeys "%");
   Did (SetForegroundWindow h); Slept (2 # 10)].

Definition is_input (a : action) : bool :=
  match a with
  | MoveTo _ _ _ | Click | Press _ => true
  | _ => false
  end.


(** The entries of the calls that satisfy [p]. *)
Definition calls_of (p : action -> bool) (tr : list entry) : list entry :=
  List.filter
    (fun e => match e with Did a | Raised a _ => p a | _ => false end) tr.

(** The calls that were attempted, in order, and those that went
    through. *)
Fixpoint attempts (tr : list entry) : list action :=
  match tr with
  | [] => []
  | Did a :: tr' | Raised a _ :: tr' => a :: attempts tr'
  | _ :: tr' => attempts tr'
  end.

Fixpoint successes (tr : list entry) : list action :=
  match tr with
  | [] => []
  | Did a :: tr' => a :: successes tr'
  | _ :: tr' => successes tr'
  end.

(** The time slept. *)
Definition slept (tr : list entry) : Q :=
  fold_right (fun e t => match e with Slept s => s + t | _ => t end)%Q
    0%Q tr.

(** The mouse and keyboard calls of [click_reroll_button] and of
    [reroll], in order. *)
Definition click_plan (rect : bbox) : list action :=
  let '(x1, y1, _, _) := rect in
  [MoveTo (x1 + 647)%Z (y1 + 550)%Z (3 # 10); Click;
   Press "enter"; Press "enter"; Press "enter"].

Definition reroll_plan (rect : bbox) : list action :=
  let '(x1, y1, _, _) := rect in
  [MoveTo (x1 + 700)%Z (y1 + 630)%Z (3 # 10); Click;
   Press "enter"; Press "enter"].

(** The first [k] calls of a plan went through and the next one, if
    there is one, raised [e]. *)
Definition stopped_at (plan : list action) (k : nat) (e : exn)
    : list entry :=
  map Did (take k plan)
  ++ match plan !! k with Some a => [Raised a e] | None => [] end.

(** The box [debug_screenshot] grabs, and its three calls. *)
Definition debug_box (x y size : Z) : bbox :=
  let half := (size / 2)%Z in
  ((x - half)%Z, (y - half)%Z, (x + half)%Z, (y + half)%Z).



(** The point is inside the box; the right and the lower edge are not
    part of a box. *)
Definition inside (box : bbox) (x y : Z) : bool :=
  let '(x_min, y_min, x_max, y_max) := box in
  (x_min <=? x)%Z && (x <? x_max)%Z && (y_min <=? y)%Z && (y <? y_max)%Z.

Definition disjoint (a b : bbox) : Prop :=
  forall x y, inside a x y = true -> inside b x y = false.

(** What [find_and_activate_maplestory] returns from the state [st]:
    the handle of the first visible window of the first process named
    maplestory.exe, after bringing it to the front; or one of its two
    exceptions, nothing done; or what a call of the activation raised. *)
Definition window_lookup (w : world) (st : dstate)
    (r : result Z * dstate) : Prop :=
  match r with
  | (Ok h, st') =>
      exists p x,
        first_such is_maplestory (processes w) p /\ pid p <> 0%Z
        /\ first_such (shown_by (pid p)) (windows w) x /\ h = hwnd x
        /\ done st' = done st ++ activation h
  | (Raise e, st') =>
      (e = not_running /\ st' = st
       /\ (Forall (fun p => is_maplestory p = false) (processes w)
           \/ exists p,
                first_such is_maplestory (processes w) p /\ pid p = 0%Z))
      \/ (e = window_not_found /\ st' = st
          /\ exists p,
               first_such is_maplestory (processes w) p /\ pid p <> 0%Z
               /\ Forall (fun x => shown_by (pid p) x = false) (windows w))
      \/ (exists p x a,
            first_such is_maplestory (processes w) p /\ pid p <> 0%Z
            /\ first_such (shown_by (pid p)) (windows w) x
            /\ last (done st') = Some (Raised a e)
            /\ is_input a = false)
  end.

(** What [click_reroll_button] returns once the window is activated (in
    the state [st1]): [True] after the five calls of its plan and 0.8 s
    of sleep, or [False] after the call that raised, the exception
    printed; it does not raise. *)
Definition click_contract (rect : bbox) (st1 : dstate)
    (r : result bool * dstate) : Prop :=
  match r with
  | (Ok true, st') =>
      exists evs,
        done st' = done st1 ++ evs
        /\ calls_of is_input evs = map Did (click_plan rect)
        /\ calls_of (fun a => negb (is_input a)) evs = []
        /\ slept evs == 8 # 10
  | (Ok false, st') =>
      exists evs k e,
        done st' = done st1 ++ evs
        /\ k < 5
        /\ calls_of is_input evs = stopped_at (click_plan rect) k e
        /\ calls_of (fun a => negb (is_input a)) evs = []
        /\ last evs = Some (Printed e)
  | (Raise _, _) => False
  end.


(** The order of [sorted]. *)
Definition string_le (a b : string) : Prop := String.leb a b = true.

(** Examples: two clients of the game, of which only the second has a
    visible window; a machine on which the third call raises. *)
Definition two_clients : world :=
  World
    [Process 4 (Some "System"); Process 70 (Some "MapleStory.exe");
     Process 90 (Some "maplestory.exe")]
    [Window 1 true 4; Window 2 false 70; Window 3 true 90]
    (fun _ => None).

Definition one_client (fault : nat -> option exn) : world :=
  World [Process 70 (Some "MapleStory.exe")] [Window 2 true 70] fault.

Definition fresh : dstate := DState 0 [].

(** What the mouse raises when the pointer is in a corner of the
    screen, and a machine on which the call number [n] raises it. *)
Definition pointer_lost : exn := OtherException "fail-safe triggered".

Definition failing_at (n : nat) : world :=
  one_client (fun k => if Nat.eqb k n then Some pointer_lost else None).

(** A window of 1366 x 768 at (100, 50). *)
Definition game_window : bbox := (100, 50, 1466, 818)%Z.

(** Ten screenshots, as [glob.glob] may list them. *)
Definition ten_screenshots : list string :=
  ["s_09"; "s_03"; "s_01"; "s_07"; "s_05"; "s_02"; "s_08"; "s_04"; "s_06";
   "s_10"].

(** ** The retry actions inside the loops *)







End DesktopSpec.
(* ===================================================================== *)
(** * Lemmas *)
(* ===================================================================== *)

(** ** The keyword-mode extractors never raise *)

Lemma int_raises_ValueError (s : string) (e : exn) :
  int s = Raise e -> e = ValueError.
Proof.
  unfold int.
  destruct (match int_rstrip (int_lstrip s) with
            | String "+" t => digits_value 0 false t
            | String "-" t => Z.opp <$> digits_value 0 false t
            | _ => digits_value 0 false (int_rstrip (int_lstrip s))
            end); congruence.
Qed.

Lemma accumulate_ok (total : Z) (m : matched) :
  exists total', accumulate (Ok total) m = Ok total'.
Proof.
  unfold accumulate, group, getitem; simpl.
  destruct (fst m !! 0%nat) as [g|]; simpl.
  - destruct (int g) as [n|e] eqn:E; simpl.
    + eexists; reflexivity.
    + apply int_raises_ValueError in E as ->; simpl. eexists; reflexivity.
  - eexists; reflexivity.
Qed.

Lemma fold_accumulate_ok (ms : list matched) (total : Z) :
  exists total', fold_left accumulate ms (Ok total) = Ok total'.
Proof.
  revert total; induction ms as [|m ms IH]; intros total; cbn [fold_left].
  - eexists; reflexivity.
  - destruct (accumulate_ok total m) as [t' ->]. apply IH.
Qed.

Lemma extract_item_drop_rate_ok (text : string) :
  exists n, extract_item_drop_rate text = Ok n.
Proof. apply fold_accumulate_ok. Qed.

Lemma extract_mesos_obtained_ok (text : string) :
  exists n, extract_mesos_obtained text = Ok n.
Proof. apply fold_accumulate_ok. Qed.

(** ** Loops and delays *)

Lemma while_true_invariant (I : state -> Prop)
    (Q : result (option outcome) -> state -> Prop) (body : M control) (w : env) :
  (forall st, I st -> Q (Ok None) st) ->
  (forall st, I st ->
     match body w st with
     | (Ok Again, st') => I st'
     | (Ok (Stop o), st') => Q (Ok (Some o)) st'
     | (Raise e, st') => Q (Raise e) st'
     end) ->
  forall fuel st, I st ->
    Q (fst (while_true fuel body w st)) (snd (while_true fuel body w st)).
Proof.
  intros Hout Hbody fuel; induction fuel as [|fuel IH]; intros st HI.
  - simpl. auto.
  - simpl. unfold mbind. specialize (Hbody st HI).
    destruct (body w st) as [[[o|]|e] st']; simpl; auto.
Qed.

Lemma sampled_texts_app tr1 tr2 :
  sampled_texts (tr1 ++ tr2) = sampled_texts tr1 ++ sampled_texts tr2.
Proof.
  induction tr1 as [|e tr1 IH]; simpl; [reflexivity|].
  destruct e as [| [t|] | | | |]; simpl; rewrite ?IH; reflexivity.
Qed.

Lemma last_n_length {A} (n : nat) (l : list A) : length (last_n n l) <= n.
Proof. unfold last_n. rewrite length_drop. lia. Qed.

Lemma sliced_delay_spec (w : env) (d : Q) (n : nat) (st : state) :
  sliced_delay n d w st =
    (Ok (delay_pressed w n (polls st)),
     State (delay_polls w n (polls st)) (samples st) (rerolls st)
       (trace st ++ delay_events w d n (polls st)) (text_history st)).
Proof.
  revert st; induction n as [|n IH]; intros st; simpl.
  - unfold ret. rewrite app_nil_r. destruct st; reflexivity.
  - unfold mbind, check_stop_key, emit, ret, sleep; simpl.
    destruct (stop_key w (polls st)) eqn:E; simpl.
    + reflexivity.
    + rewrite IH; simpl. rewrite <- !app_assoc. reflexivity.
Qed.

Lemma delay_events_S w d n p :
  delay_events w d (S n) p =
    if stop_key w p then [StopKey true]
    else StopKey false :: Sleep d :: delay_events w d n (S p).
Proof. reflexivity. Qed.

Lemma delay_pressed_S w n p :
  delay_pressed w (S n) p =
    if stop_key w p then true else delay_pressed w n (S p).
Proof. reflexivity. Qed.

Arguments sliced_delay : simpl never.
Arguments delay_events : simpl never.
Arguments delay_pressed : simpl never.
Arguments delay_polls : simpl never.

Lemma sampled_texts_delay w d n p : sampled_texts (delay_events w d n p) = [].
Proof.
  revert p; induction n as [|n IH]; intros p; [reflexivity|].
  rewrite delay_events_S. destruct (stop_key w p); simpl; auto.
Qed.

Lemma never_pressed (w : env) (n p : nat) :
  (forall k, stop_key w k = false) -> delay_pressed w n p = false.
Proof.
  intros H. revert p; induction n as [|n IH]; intros p; [reflexivity|].
  rewrite delay_pressed_S, H. apply IH.
Qed.

(** ** Well-paced traces *)

Section Pacing.
Variable slices : nat.
Variable slice : Q.
Abbreviation run := (pace_run slices slice).
Abbreviation step := (pace_step slices slice).

Lemma pace_run_app (p : pace) (l1 l2 : list event) :
  run p (l1 ++ l2) =
    match run p l1 with
    | Some q => run q l2
    | None => None
    end.
Proof.
  revert p; induction l1 as [|e l1 IH]; intros p; simpl; [reflexivity|].
  destruct (step p e); [apply IH|reflexivity].
Qed.

Lemma pace_run_snoc (p : pace) (l : list event) (e : event) :
  run p (l ++ [e]) =
    match run p l with
    | Some q => step q e
    | None => None
    end.
Proof.
  rewrite pace_run_app. destruct (run p l) as [q|]; [|reflexivity].
  simpl. destruct (step q e); reflexivity.
Qed.

Lemma step_to_polled (p : pace) (e : event) (n : nat) :
  step p e = Some (Polled n) -> e = StopKey false.
Proof.
  destruct p as [|[|k]|k|], e as [[]| | | |[[]|]|x]; simpl; try discriminate;
    try reflexivity.
  all: destruct (Qeq_bool x slice); discriminate.
Qed.

Lemma step_from_polled (p : pace) (e : event) (q : pace) :
  step p e = Some q ->
  match e with
  | Sleep x => x == slice /\ exists n, p = Polled n /\ q = Waiting n
  | _ => True
  end.
Proof.
  destruct e as [[]| | | |[[]|]|x]; try exact (fun _ => I).
  destruct p as [|[|k]|k|]; simpl; try discriminate.
  destruct (Qeq_bool x slice) eqn:E; [|discriminate].
  intros [= <-]. split; [apply Qeq_bool_iff, E|eauto].
Qed.

Lemma step_from_waiting (n : nat) (e : event) (q : pace) :
  step (Waiting n) e = Some q -> exists b, e = StopKey b.
Proof.
  destruct n, e as [[]| | | |[[]|]|x]; simpl; try discriminate; eauto.
Qed.

Lemma step_from_stopped (e : event) : step Stopped e = None.
Proof. reflexivity. Qed.

Lemma step_to_stopped (p : pace) (e : event) :
  step p e = Some Stopped -> e = StopKey true.
Proof.
  destruct p as [|[|k]|k|], e as [[]| | | |[[]|]|x]; simpl; try discriminate;
    try reflexivity.
  all: destruct (Qeq_bool x slice); discriminate.
Qed.

Lemma step_stop_key_true (p : pace) (q : pace) :
  step p (StopKey true) = Some q -> q = Stopped.
Proof. destruct p as [|[|k]|k|]; simpl; congruence. Qed.

(** Reading an accepted trace at one position. *)
Lemma pace_run_middle (p q : pace) (tr : list event) (i : nat) (e : event) :
  run p tr = Some q ->
  tr !! i = Some e ->
  exists p1 p2,
    run p (take i tr) = Some p1 /\ step p1 e = Some p2
    /\ run p2 (drop (S i) tr) = Some q.
Proof.
  intros Hrun Hi.
  rewrite <- (take_drop_middle tr i e Hi) in Hrun.
  rewrite pace_run_app in Hrun.
  destruct (run p (take i tr)) as [p1|]; [|discriminate].
  simpl in Hrun. destruct (step p1 e) as [p2|] eqn:E; [|discriminate].
  eauto.
Qed.

Lemma pace_run_last_polled (p : pace) (tr : list event) (n : nat) :
  run p tr = Some (Polled n) ->
  (tr = [] /\ p = Polled n) \/ exists tr', tr = tr' ++ [StopKey false].
Proof.
  induction tr as [|e tr' _] using rev_ind; simpl.
  - intros [= ->]. left; split; reflexivity.
  - rewrite pace_run_snoc. destruct (run p tr') as [q|]; [|discriminate].
    intros H. apply step_to_polled in H as ->. right; eauto.
Qed.

(** In an accepted trace every sleep lasts one slice and comes directly
    after a poll that found the stop key up. *)
Lemma paced_sleep_after_poll (q : pace) (tr : list event) (i : nat) (x : Q) :
  run Idle tr = Some q ->
  tr !! i = Some (Sleep x) ->
  x == slice /\ exists j, i = S j /\ tr !! j = Some (StopKey false).
Proof.
  intros Hrun Hi.
  destruct (pace_run_middle _ _ _ _ _ Hrun Hi) as (p1 & p2 & H1 & H2 & _).
  apply step_from_polled in H2 as (Hx & n & -> & _). split; [exact Hx|].
  apply pace_run_last_polled in H1 as [[_ ?]|[tr' Htr']]; [discriminate|].
  assert (Hlen : length (take i tr) = i).
  { apply length_take_le. apply lookup_lt_Some in Hi. lia. }
  rewrite Htr', length_app in Hlen; simpl in Hlen.
  exists (length tr'). split; [lia|].
  assert (H : take i tr !! length tr' = Some (StopKey false)).
  { rewrite Htr'. rewrite lookup_app_r by lia.
    replace (length tr' - length tr')%nat with 0%nat by lia. reflexivity. }
  rewrite lookup_take_lt in H by lia. exact H.
Qed.

(** ... and the next thing that happens, if anything, is a poll. *)
Lemma paced_poll_after_sleep (q : pace) (tr : list event) (i : nat) (x : Q) :
  run Idle tr = Some q ->
  tr !! i = Some (Sleep x) ->
  tr !! S i = None \/ exists b, tr !! S i = Some (StopKey b).
Proof.
  intros Hrun Hi.
  destruct (pace_run_middle _ _ _ _ _ Hrun Hi) as (p1 & p2 & H1 & H2 & H3).
  apply step_from_polled in H2 as (_ & n & -> & ->).
  assert (Hd : tr !! S i = drop (S i) tr !! 0%nat).
  { rewrite lookup_drop. f_equal. lia. }
  rewrite Hd.
  destruct (drop (S i) tr) as [|e rest]; [left; reflexivity|right].
  cbn [pace_run] in H3.
  destruct (step (Waiting n) e) as [p3|] eqn:E; [|discriminate].
  apply step_from_waiting in E as [b ->]. eauto.
Qed.

(** Nothing happens after a poll that found the stop key down. *)
Lemma paced_stop_is_last (q : pace) (tr : list event) (i : nat) :
  run Idle tr = Some q ->
  tr !! i = Some (StopKey true) ->
  S i = length tr /\ q = Stopped.
Proof.
  intros Hrun Hi.
  destruct (pace_run_middle _ _ _ _ _ Hrun Hi) as (p1 & p2 & H1 & H2 & H3).
  apply step_stop_key_true in H2 as ->.
  destruct (drop (S i) tr) as [|e rest] eqn:E; simpl in H3; [|discriminate].
  injection H3 as <-. split; [|reflexivity].
  apply drop_nil_inv in E. apply lookup_lt_Some in Hi. lia.
Qed.

Lemma pace_run_delay (w : env) (n p : nat) :
  run (Waiting n) (delay_events w slice n p)
  = Some (if delay_pressed w n p then Stopped else Waiting 0).
Proof.
  revert p; induction n as [|n IH]; intros p; [reflexivity|].
  rewrite delay_events_S, delay_pressed_S.
  destruct (stop_key w p); [reflexivity|].
  cbn [pace_run pace_step]. rewrite Qeq_bool_refl. apply IH.
Qed.

Lemma paced_stopped_last (p : pace) (tr : list event) :
  run p tr = Some Stopped ->
  (tr = [] /\ p = Stopped) \/ exists tr', tr = tr' ++ [StopKey true].
Proof.
  induction tr as [|e tr' _] using rev_ind; simpl.
  - intros [= ->]. left; split; reflexivity.
  - rewrite pace_run_snoc. destruct (run p tr') as [q|]; [|discriminate].
    intros H. apply step_to_stopped in H as ->. right; eauto.
Qed.

Lemma step_reroll (p q : pace) :
  step p (Reroll (Ok tt)) = Some q -> q = Waiting slices.
Proof. destruct p as [|[|k]|k|]; simpl; congruence. Qed.

Lemma waiting_delay_shape (n : nat) (l : list event) (q : pace) :
  run (Waiting n) l = Some q -> delay_shape slice n l.
Proof.
  revert l; induction n as [|n IH]; intros l H.
  - destruct l as [|[[]| | | | |] l]; simpl in *; try discriminate; auto.
    destruct l; [reflexivity|discriminate].
  - destruct l as [|[[]| | | | |] l]; simpl in *; try discriminate; auto.
    + destruct l; [reflexivity|discriminate].
    + destruct l as [|[| | | | |x] l]; simpl in *; try discriminate; auto.
      destruct (Qeq_bool x slice) eqn:E; [|discriminate].
      split; [apply Qeq_bool_iff, E|apply IH, H].
Qed.

Lemma paced_delay_after_reroll (q : pace) (tr : list event) (i : nat) :
  run Idle tr = Some q ->
  tr !! i = Some (Reroll (Ok tt)) ->
  delay_shape slice slices (drop (S i) tr).
Proof.
  intros Hrun Hi.
  destruct (pace_run_middle _ _ _ _ _ Hrun Hi) as (p1 & p2 & _ & H2 & H3).
  apply step_reroll in H2 as ->.
  apply (waiting_delay_shape _ _ _ H3).
Qed.

(** A run that is [paced] is [well_paced]. *)
Lemma paced_well_paced (r : result (option outcome)) (st : state) :
  paced slices slice r st -> well_paced slices slice (r, st).
Proof.
  intros (q & Hrun & Hq). unfold well_paced; simpl.
  split; [|split; [|split]].
  - intros i x Hi. split; [|split].
    + apply (paced_sleep_after_poll q (trace st) i x Hrun Hi).
    + apply (paced_sleep_after_poll q (trace st) i x Hrun Hi).
    + apply (paced_poll_after_sleep q (trace st) i x Hrun Hi).
  - intros i Hi. apply (paced_delay_after_reroll q (trace st) i Hrun Hi).
  - intros i Hi.
    destruct (paced_stop_is_last q (trace st) i Hrun Hi) as [Hlen ->].
    split; [exact Hlen|]. apply Hq. reflexivity.
  - intros Hr. apply Hq in Hr. subst q.
    apply paced_stopped_last in Hrun as [[_ ?]|[tr' ->]]; [discriminate|].
    apply last_snoc.
Qed.

Lemma at_loop_entry_poll (st : state) (b : bool) (evs : list event) :
  at_loop_entry slices slice st ->
  run Idle (trace st ++ StopKey b :: evs)
  = run (if b then Stopped else Idle) evs.
Proof.
  intros [H|H]; rewrite pace_run_app, H; destruct b; reflexivity.
Qed.

(** A loop whose body keeps the pace, run under the handler of [main]. *)
Lemma main_paced (body : M control) (w : env) (fuel : nat) (st : state) :
  paced_body slices slice body w ->
  run Idle (trace st) = Some Idle ->
  let result :=
    try_catch (mbind get_window_at_start (fun _ => while_true fuel body))
      (fun e => mbind (print_error e) (fun _ => ret (Some (Failed e)))) w st in
  paced slices slice (fst result) (snd result).
Proof.
  intros Hbody Hst.
  unfold try_catch, mbind, get_window_at_start, print_error, ret, emit; simpl.
  destruct (window_at_start w) as [[]|e]; simpl.
  2:{ exists Idle. simpl. rewrite pace_run_snoc, Hst.
      split; [reflexivity|]. split; discriminate. }
  pose proof (while_true_invariant (at_loop_entry slices slice)
    (fun r st' =>
       match r with
       | Ok None => at_loop_entry slices slice st'
       | Ok (Some o) => paced slices slice (Ok (Some o)) st'
       | Raise _ => run Idle (trace st') = Some Idle
       end) body w (fun st' H => H)) as Hloop.
  assert (Hstep : forall st',
    at_loop_entry slices slice st' ->
    match body w st' with
    | (Ok Again, st'') => at_loop_entry slices slice st''
    | (Ok (Stop o), st'') => paced slices slice (Ok (Some o)) st''
    | (Raise _, st'') => run Idle (trace st'') = Some Idle
    end) by exact Hbody.
  specialize (Hloop Hstep fuel st (or_introl Hst)).
  destruct (while_true fuel body w st) as [[[o|]|e] st']; simpl in *.
  - exact Hloop.
  - destruct Hloop as [H|H]; eexists; (split; [exact H|]);
      split; discriminate.
  - exists Idle. simpl. rewrite pace_run_snoc, Hloop.
    split; [reflexivity|]. split; discriminate.
Qed.

End Pacing.
(** ** The keyword loop *)

Module KeywordFacts.
Import Keyword.

Lemma unchanged_iff (h : list string) :
  unchanged_for_3_tries h = Ok true <-> exists s, h = [s; s; s].
Proof.
  unfold unchanged_for_3_tries, getitem. split.
  - destruct h as [|a [|b [|c [|d h]]]]; simpl; try discriminate.
    destruct (String.eqb a b) eqn:Eab; [|discriminate].
    destruct (String.eqb b c) eqn:Ebc; [|discriminate].
    apply String.eqb_eq in Eab, Ebc; subst. eauto.
  - intros [s ->]; simpl. rewrite !String.eqb_refl. reflexivity.
Qed.

Lemma unchanged_total (h : list string) :
  exists b, unchanged_for_3_tries h = Ok b.
Proof.
  unfold unchanged_for_3_tries, getitem.
  destruct h as [|a [|b [|c [|d h]]]]; simpl; eauto.
  destruct (String.eqb a b); eauto.
Qed.

Lemma remember_length (h : list string) (x : string) :
  length h <= 3 -> length (remember h x) <= 3.
Proof.
  unfold remember. intros H.
  destruct (3 <? length (h ++ [x]))%nat eqn:E.
  - rewrite length_drop, length_app; simpl. lia.
  - apply Nat.ltb_ge in E. exact E.
Qed.

Lemma remember_last_n (l : list string) (x : string) :
  remember (last_n 3 l) x = last_n 3 (l ++ [x]).
Proof.
  unfold remember, last_n.
  rewrite !length_app, !length_drop. simpl.
  destruct (3 <? length l - (length l - 3) + 1)%nat eqn:E.
  - apply Nat.ltb_lt in E.
    rewrite (drop_app_le l) by lia.
    rewrite drop_app_le by (rewrite length_drop; lia).
    rewrite drop_drop. do 2 f_equal. lia.
  - apply Nat.ltb_ge in E.
    replace (length l - 3)%nat with 0%nat by lia.
    replace (length l + 1 - 3)%nat with 0%nat by lia. reflexivity.
Qed.

Lemma remember_snoc (h : list string) (x : string) :
  exists h', remember h x = h' ++ [x].
Proof.
  unfold remember. destruct h as [|a h]; simpl.
  - exists []. reflexivity.
  - destruct (3 <? S (length (h ++ [x])))%nat; eauto.
    exists (a :: h). reflexivity.
Qed.

Lemma scan_for_stats_eq (w : env) (st : state) :
  scan_for_stats w st =
    match region_text w (samples st) with
    | Ok text =>
        (Ok (Some (scanned text)),
         after st (polls st) (S (samples st)) (rerolls st)
           [Sample (Ok text); scan_entry text] (text_history st))
    | Raise e =>
        (Ok None,
         after st (polls st) (S (samples st)) (rerolls st)
           [Sample (Raise e); ErrorPrinted e] (text_history st))
    end.
Proof.
  unfold scan_for_stats, try_catch, mbind, sample_region, lift, log, ret,
    print_error, emit, after, scanned, scan_entry; simpl.
  destruct (region_text w (samples st)) as [text|e]; simpl.
  - destruct (extract_item_drop_rate_ok text) as [idr ->].
    destruct (extract_mesos_obtained_ok text) as [mo ->]. simpl.
    rewrite <- app_assoc. reflexivity.
  - rewrite <- app_assoc. reflexivity.
Qed.

Lemma reroll_and_wait_eq (w : env) (st : state) :
  reroll_and_wait w st =
    match retry_action w (rerolls st) with
    | Ok _ =>
        (Ok (if delay_pressed w split_delay (polls st)
             then Stop Cancelled else Again),
         after st (delay_polls w split_delay (polls st)) (samples st)
           (S (rerolls st))
           (Reroll (Ok tt) :: delay_events w split_time split_delay (polls st))
           (text_history st))
    | Raise e =>
        (Raise e,
         after st (polls st) (samples st) (S (rerolls st))
           [Reroll (Raise e)] (text_history st))
    end.
Proof.
  unfold reroll_and_wait, mbind, invoke_retry_action, emit, after.
  destruct (retry_action w (rerolls st)) as [[]|e]; [|reflexivity].
  rewrite sliced_delay_spec; simpl.
  rewrite <- app_assoc; simpl.
  destruct (delay_pressed w split_delay (polls st)); reflexivity.
Qed.

Lemma keyword_body_eq (max_mode : bool) (w : env) (st : state) :
  loop_body max_mode w st =
    if stop_key w (polls st)
    then (Ok (Stop Cancelled),
          after st (S (polls st)) (samples st) (rerolls st) [StopKey true]
            (text_history st))
    else
      match region_text w (samples st) with
      | Raise e =>
          reroll_and_wait w
            (after st (S (polls st)) (S (samples st)) (rerolls st)
               [StopKey false; Sample (Raise e); ErrorPrinted e]
               (text_history st))
      | Ok text =>
          let h := remember (text_history st) text in
          let evs := [StopKey false; Sample (Ok text); scan_entry text] in
          if stuck h
          then (Ok (Stop Stuck),
                after st (S (polls st)) (S (samples st)) (rerolls st)
                  (evs ++ [Logged (TextUnchanged text)]) h)
          else if goal_reached max_mode (scanned text)
          then (Ok (Stop Succeeded),
                after st (S (polls st)) (S (samples st)) (rerolls st)
                  (evs ++ [success_entry max_mode text]) h)
          else reroll_and_wait w
                 (after st (S (polls st)) (S (samples st)) (rerolls st) evs h)
      end.
Proof.
  unfold loop_body. unfold mbind at 1. unfold check_stop_key at 1; simpl.
  destruct (stop_key w (polls st)) eqn:Hk; [reflexivity|].
  unfold ret at 1. unfold mbind at 1. rewrite scan_for_stats_eq; simpl.
  destruct (region_text w (samples st)) as [text|e] eqn:Hr.
  - unfold after, emit; simpl. unfold mbind at 1.
    unfold check_stuck, mbind, get_text_history, set_text_history, lift, log,
      ret, emit, stuck; simpl.
    destruct (unchanged_total (remember (text_history st) text)) as [b ->].
    destruct b; simpl.
    + rewrite <- !app_assoc. reflexivity.
    + unfold check_goal, goal_reached, mbind, log, ret, emit; simpl.
      unfold success_entry.
      destruct max_mode, (count_prime_lines (scanned text)) as [|[|n]];
        simpl; rewrite <- ?app_assoc; reflexivity.
  - unfold after, emit, mbind, check_stuck, check_goal, ret; simpl.
    rewrite <- !app_assoc. reflexivity.
Qed.

Lemma goal_reached_threshold (max_mode : bool) (text : string) :
  goal_reached max_mode (scanned text)
  = (threshold max_mode <=? prime_line_count text)%nat.
Proof.
  unfold goal_reached, threshold, prime_line_count, count_prime_lines, scanned.
  simpl.
  destruct max_mode, (contains "item drop" (lower text)),
    (contains "mesos" (lower text)); reflexivity.
Qed.

(** *** The history is a queue of three *)

Lemma reroll_and_wait_frame (w : env) (st : state) :
  text_history (snd (reroll_and_wait w st)) = text_history st
  /\ sampled_texts (trace (snd (reroll_and_wait w st)))
     = sampled_texts (trace st).
Proof.
  rewrite reroll_and_wait_eq.
  destruct (retry_action w (rerolls st)) as [[]|e]; simpl;
    rewrite sampled_texts_app; simpl;
    rewrite ?sampled_texts_delay, app_nil_r; split; reflexivity.
Qed.

Lemma loop_body_fifo (max_mode : bool) (w : env) (st : state) :
  fifo st -> fifo (snd (loop_body max_mode w st)).
Proof.
  unfold fifo; intros H. rewrite keyword_body_eq.
  destruct (stop_key w (polls st)); simpl.
  { rewrite sampled_texts_app, app_nil_r. exact H. }
  destruct (region_text w (samples st)) as [text|e]; simpl.
  - assert (Hpush :
      remember (text_history st) text
      = last_n 3 (sampled_texts (trace st ++
                    [StopKey false; Sample (Ok text); scan_entry text]))).
    { rewrite sampled_texts_app; simpl. rewrite H. apply remember_last_n. }
    destruct (stuck (remember (text_history st) text)); simpl.
    { rewrite Hpush, !sampled_texts_app. reflexivity. }
    destruct (goal_reached max_mode (scanned text)); simpl.
    { rewrite Hpush, !sampled_texts_app. reflexivity. }
    destruct (reroll_and_wait_frame w
                (after st (S (polls st)) (S (samples st)) (rerolls st)
                   [StopKey false; Sample (Ok text); scan_entry text]
                   (remember (text_history st) text))) as [-> ->].
    exact Hpush.
  - destruct (reroll_and_wait_frame w
                (after st (S (polls st)) (S (samples st)) (rerolls st)
                   [StopKey false; Sample (Raise e); ErrorPrinted e]
                   (text_history st))) as [-> ->].
    simpl. rewrite sampled_texts_app, app_nil_r. exact H.
Qed.

Lemma run_fifo (fuel : nat) (max_mode : bool) (w : env) :
  fifo (snd (run fuel max_mode w)).
Proof.
  unfold run, main, mbind, set_text_history, try_catch, get_window_at_start;
    simpl.
  destruct (window_at_start w) as [[]|e]; simpl; [|reflexivity].
  pose proof (while_true_invariant fifo (fun _ st => fifo st)
                (loop_body max_mode) w (fun st H => H)) as Hloop.
  specialize (Hloop (fun st H =>
    match loop_body max_mode w st as x
      return fifo (snd x) ->
             match x with
             | (Ok Again, st') => fifo st'
             | (Ok (Stop _), st') => fifo st'
             | (Raise _, st') => fifo st'
             end
    with
    | (Ok Again, _) | (Ok (Stop _), _) | (Raise _, _) => fun H' => H'
    end (loop_body_fifo max_mode w st H))).
  specialize (Hloop fuel initial eq_refl).
  change (State 0 0 0 [] []) with initial.
  destruct (while_true fuel (loop_body max_mode) w initial) as [[o|e] st'];
    simpl in *; [exact Hloop|].
  unfold fifo in *; simpl. rewrite sampled_texts_app, app_nil_r. exact Hloop.
Qed.

(** *** The trace of the keyword loop is well paced *)

Lemma reroll_and_wait_paced (w : env) (st : state) :
  pace_run split_delay split_time Idle (trace st) = Some Idle ->
  match reroll_and_wait w st with
  | (Ok Again, st') => at_loop_entry split_delay split_time st'
  | (Ok (Stop o), st') => paced split_delay split_time (Ok (Some o)) st'
  | (Raise _, st') =>
      pace_run split_delay split_time Idle (trace st') = Some Idle
  end.
Proof.
  intros H. rewrite reroll_and_wait_eq.
  destruct (retry_action w (rerolls st)) as [[]|e]; simpl.
  - pose proof (pace_run_delay split_delay split_time w split_delay (polls st))
      as Hd.
    assert (Hrun :
      pace_run split_delay split_time Idle
        (trace st ++ Reroll (Ok tt)
           :: delay_events w split_time split_delay (polls st))
      = Some (if delay_pressed w split_delay (polls st)
              then Stopped else Waiting 0)).
    { rewrite pace_run_app, H. exact Hd. }
    destruct (delay_pressed w split_delay (polls st)); simpl.
    + exists Stopped. split; [exact Hrun|]. split; reflexivity.
    + right. exact Hrun.
  - rewrite pace_run_snoc, H. reflexivity.
Qed.

Lemma keyword_body_paced (max_mode : bool) (w : env) :
  paced_body split_delay split_time (loop_body max_mode) w.
Proof.
  intros st H. rewrite keyword_body_eq.
  destruct (stop_key w (polls st)); simpl.
  { exists Stopped. split; [|split; reflexivity].
    unfold after; cbn [trace].
    apply (at_loop_entry_poll _ _ st true [] H). }
  destruct (region_text w (samples st)) as [text|e]; simpl.
  - destruct (stuck (remember (text_history st) text)); simpl.
    { exists Idle. split; [|split; discriminate].
      unfold after; cbn [trace].
      rewrite (at_loop_entry_poll _ _ st false _ H). reflexivity. }
    destruct (goal_reached max_mode (scanned text)); simpl.
    { exists Idle. split; [|split; discriminate].
      unfold after; cbn [trace].
      rewrite (at_loop_entry_poll _ _ st false _ H). reflexivity. }
    apply reroll_and_wait_paced; simpl.
    unfold after; cbn [trace].
      rewrite (at_loop_entry_poll _ _ st false _ H). reflexivity.
  - apply reroll_and_wait_paced; simpl.
    unfold after; cbn [trace].
      rewrite (at_loop_entry_poll _ _ st false _ H). reflexivity.
Qed.

Lemma keyword_run_paced (fuel : nat) (max_mode : bool) (w : env) :
  paced split_delay split_time
    (fst (run fuel max_mode w)) (snd (run fuel max_mode w)).
Proof.
  apply (main_paced split_delay split_time (loop_body max_mode) w fuel initial
           (keyword_body_paced max_mode w) eq_refl).
Qed.

(** One iteration that is neither stuck nor at the goal, with the stop
    key up and a retry action that succeeds: the loop goes round again
    with one more sample, remembered in the history. *)
Lemma keyword_body_retry (max_mode : bool) (w : env) (st : state)
    (text : string) :
  (forall k, stop_key w k = false) ->
  (forall k, retry_action w k = Ok tt) ->
  region_text w (samples st) = Ok text ->
  stuck (Keyword.remember (text_history st) text) = false ->
  prime_line_count text < threshold max_mode ->
  exists st',
    Keyword.loop_body max_mode w st = (Ok Again, st')
    /\ samples st' = S (samples st)
    /\ text_history st' = Keyword.remember (text_history st) text.
Proof.
  intros Hkey Hretry Htext Hstuck Hgoal.
  rewrite keyword_body_eq, Hkey, Htext. cbn zeta.
  rewrite Hstuck, goal_reached_threshold.
  destruct (threshold max_mode <=? prime_line_count text)%nat eqn:E;
    [apply Nat.leb_le in E; lia|].
  rewrite reroll_and_wait_eq, Hretry.
  rewrite (never_pressed w _ _ Hkey).
  eexists. split; [reflexivity|]. split; reflexivity.
Qed.

End KeywordFacts.
(** ** The comparative parser and scorer *)

Module ComparativeFacts.
Import Comparative.

Lemma split_plus_head (s : string) :
  split "+" s !! 0%nat = Some (up_to_plus s).
Proof.
  induction s as [|c t IH]; simpl; [reflexivity|].
  destruct (Ascii.eqb c "+"); simpl; [reflexivity|].
  destruct (split "+" t) as [|w ws]; simpl in *; congruence.
Qed.

Lemma split_plus_second (s : string) :
  split "+" s !! 1%nat = after_first_plus s.
Proof.
  induction s as [|c t IH]; simpl; [reflexivity|].
  destruct (Ascii.eqb c "+"); simpl.
  - apply split_plus_head.
  - destruct (split "+" t) as [|w ws]; simpl in *; [congruence|exact IH].
Qed.

Section Parser.
Variables MAIN_STAT SECONDARY_STAT : string.

Abbreviation contribution := (contribution MAIN_STAT SECONDARY_STAT).
Abbreviation latest := (latest MAIN_STAT SECONDARY_STAT).
Abbreviation parsed_line := (parsed_line MAIN_STAT SECONDARY_STAT).

Lemma try_assign_plus (stats : gmap string Z) (key line : string) :
  try_assign stats key (getitem (split "+" line) 1)
  = Ok (assign stats key (integer_after_plus line)).
Proof.
  unfold try_assign, integer_after_plus, getitem. rewrite split_plus_second.
  destruct (after_first_plus line) as [v|]; simpl; [|reflexivity].
  destruct (int v) as [n|e] eqn:E; simpl; [reflexivity|].
  apply int_raises_ValueError in E as ->. reflexivity.
Qed.

Lemma try_assign_percent (stats : gmap string Z) (key line : string) :
  try_assign stats key
    (bind (getitem (split "+" line) 1) (fun value => Ok (replace "%" "" value)))
  = Ok (assign stats key (percent_after_plus line)).
Proof.
  unfold try_assign, percent_after_plus, getitem. rewrite split_plus_second.
  destruct (after_first_plus line) as [v|]; simpl; [|reflexivity].
  destruct (int (replace "%" "" v)) as [n|e] eqn:E; simpl; [reflexivity|].
  apply int_raises_ValueError in E as ->. reflexivity.
Qed.

Lemma parse_line_ok (stats : gmap string Z) (line : string) :
  parse_line MAIN_STAT SECONDARY_STAT stats line = Ok (parsed_line stats line).
Proof.
  unfold parse_line, parsed_line.
  rewrite !try_assign_plus.
  destruct (contains MAIN_STAT (normalize line)); simpl;
  destruct (contains SECONDARY_STAT (normalize line)); simpl;
  rewrite ?try_assign_plus; simpl;
  destruct (contains "WEAPON ATTACK" (normalize line) || contains "WEAPON ATT" (normalize line));
  simpl; rewrite ?try_assign_plus; simpl;
  destruct (contains "All Stats" (normalize line));
  rewrite ?try_assign_percent; reflexivity.
Qed.

Lemma lookup_assign (stats : gmap string Z) (key k : string) (v : option Z) :
  assign stats key v !! k =
    if String.eqb k key then (match v with Some n => Some n | None => stats !! k end)
    else stats !! k.
Proof.
  unfold assign. destruct (String.eqb k key) eqn:E.
  - apply String.eqb_eq in E as ->. destruct v; [apply lookup_insert_eq|reflexivity].
  - apply String.eqb_neq in E. destruct v; [|reflexivity].
    apply lookup_insert_ne. congruence.
Qed.

Lemma lookup_parsed_line (stats : gmap string Z) (line k : string) :
  parsed_line stats line !! k =
    match contribution k line with
    | Some n => Some n
    | None => stats !! k
    end.
Proof.
  unfold parsed_line, contribution.
  set (l := normalize line).
  destruct (contains MAIN_STAT l), (contains SECONDARY_STAT l),
    (contains "WEAPON ATTACK" l || contains "WEAPON ATT" l),
    (contains "All Stats" l);
    rewrite ?lookup_assign;
    destruct (String.eqb k "main_stat") eqn:E1;
    destruct (String.eqb k "secondary_stat") eqn:E2;
    destruct (String.eqb k "weapon_attack") eqn:E3;
    destruct (String.eqb k "all_stat_percent") eqn:E4;
    try (apply String.eqb_eq in E1; subst k; discriminate);
    try (apply String.eqb_eq in E2; subst k; discriminate);
    try (apply String.eqb_eq in E3; subst k; discriminate);
    try reflexivity;
    repeat match goal with
           | |- context [match ?v with Some _ => _ | None => _ end] => destruct v
           end; reflexivity.
Qed.

Lemma parse_lines_ok (lines : list string) (stats : gmap string Z) :
  exists stats',
    parse_lines MAIN_STAT SECONDARY_STAT stats lines = Ok stats'
    /\ forall k, stats' !! k = latest k lines (stats !! k).
Proof.
  revert stats; induction lines as [|line lines IH]; intros stats; simpl.
  - exists stats. split; reflexivity.
  - rewrite parse_line_ok; simpl.
    destruct (IH (parsed_line stats line)) as (stats' & -> & Hk).
    exists stats'. split; [reflexivity|].
    intros k. rewrite Hk, lookup_parsed_line. reflexivity.
Qed.

Lemma latest_app (key : string) (l1 l2 : list string) (v : option Z) :
  latest key (l1 ++ l2) v = latest key l2 (latest key l1 v).
Proof. apply fold_left_app. Qed.

Lemma latest_none (key : string) (lines : list string) (v : option Z) :
  Forall (fun l => contribution key l = None) lines ->
  latest key lines v = v.
Proof.
  induction 1 as [|l lines Hl _ IH]; simpl; [reflexivity|].
  unfold latest in *; simpl. rewrite Hl. exact IH.
Qed.

Lemma latest_last (key : string) (earlier later : list string) (line : string)
    (n : Z) (v : option Z) :
  contribution key line = Some n ->
  Forall (fun l => contribution key l = None) later ->
  latest key (earlier ++ line :: later) v = Some n.
Proof.
  intros Hn Hlater. rewrite latest_app.
  unfold latest at 1; simpl. rewrite Hn.
  apply (latest_none key later (Some n) Hlater).
Qed.

Lemma lookup_initial_stats (k : string) :
  initial_stats !! k =
    if String.eqb k "main_stat" || String.eqb k "secondary_stat"
       || String.eqb k "weapon_attack" || String.eqb k "magic_attack"
       || String.eqb k "all_stat_percent"
    then Some 0%Z else None.
Proof.
  unfold initial_stats.
  repeat match goal with
  | |- context [String.eqb k ?x] =>
      let E := fresh in
      destruct (String.eqb k x) eqn:E;
      [apply String.eqb_eq in E; subst k; reflexivity
      |apply String.eqb_neq in E; rewrite lookup_insert_ne by congruence]
  end.
  simpl. apply lookup_empty.
Qed.

Lemma contribution_magic_attack (line : string) :
  contribution "magic_attack" line = None.
Proof. reflexivity. Qed.

End Parser.

Lemma split_nonempty (c : ascii) (s : string) : split c s <> [].
Proof.
  induction s as [|a s IH]; simpl; [discriminate|].
  destruct (Ascii.eqb a c); [discriminate|].
  destruct (split c s); [contradiction|discriminate].
Qed.

Lemma split_free (c : ascii) (s : string) : free_of c s -> split c s = [s].
Proof.
  unfold free_of. induction s as [|a s IH]; simpl; [reflexivity|].
  destruct (Ascii.eqb c a) eqn:E; simpl.
  - destruct s; discriminate.
  - intros H. rewrite Ascii.eqb_sym, E.
    rewrite IH; [reflexivity|].
    destruct s; simpl in *; [reflexivity|exact H].
Qed.

Lemma split_app (c : ascii) (s t : string) :
  free_of c s ->
  split c (s ++ String c t)%string = s :: split c t.
Proof.
  unfold free_of. induction s as [|a s IH]; simpl.
  - rewrite Ascii.eqb_refl. reflexivity.
  - destruct (Ascii.eqb c a) eqn:E; simpl.
    + destruct s; discriminate.
    + intros H. rewrite Ascii.eqb_sym, E.
      rewrite IH; [reflexivity|].
      destruct s; simpl in *; [reflexivity|exact H].
Qed.

(** ** The scorer *)

Lemma calculate_flame_score_eq (stats : gmap string Z) (p s w a : Z) :
  stats !! "main_stat" = Some p ->
  stats !! "secondary_stat" = Some s ->
  stats !! "weapon_attack" = Some w ->
  stats !! "all_stat_percent" = Some a ->
  calculate_flame_score stats
  = Ok (inject_Z (p + w * 4 + a * 8) + inject_Z s / 8)%Q.
Proof.
  intros Hp Hs Hw Ha. unfold calculate_flame_score, lookup_key.
  rewrite Hp, Hs, Hw, Ha. reflexivity.
Qed.

Lemma score_ignores_magic_attack (stats : gmap string Z) (v : Z) :
  calculate_flame_score (<["magic_attack" := v]> stats)
  = calculate_flame_score stats.
Proof.
  unfold calculate_flame_score, lookup_key.
  rewrite !lookup_insert_ne by discriminate. reflexivity.
Qed.

Lemma stats_of_text_ok (MAIN_STAT SECONDARY_STAT text : string) :
  exists stats,
    stats_of_text MAIN_STAT SECONDARY_STAT text = Ok stats
    /\ forall key,
         stats !! key
         = latest MAIN_STAT SECONDARY_STAT key (split "010" text)
             (initial_stats !! key).
Proof. apply parse_lines_ok. Qed.

Lemma latest_is_some (MAIN SEC key : string) (lines : list string) (v : option Z) :
  is_Some v -> is_Some (latest MAIN SEC key lines v).
Proof.
  revert v; induction lines as [|l lines IH]; intros v Hv; [exact Hv|].
  unfold latest; simpl. apply IH.
  destruct (contribution MAIN SEC key l); [eauto|exact Hv].
Qed.

Lemma score_of_text_ok (MAIN_STAT SECONDARY_STAT text : string) :
  exists stats q,
    stats_of_text MAIN_STAT SECONDARY_STAT text = Ok stats
    /\ calculate_flame_score stats = Ok q.
Proof.
  destruct (stats_of_text_ok MAIN_STAT SECONDARY_STAT text) as (stats & Hs & Hk).
  exists stats.
  assert (Hsome : forall key, is_Some (initial_stats !! key) -> is_Some (stats !! key)).
  { intros key H. rewrite Hk. apply latest_is_some, H. }
  destruct (Hsome "main_stat") as [p Hp]; [rewrite lookup_initial_stats; eauto|].
  destruct (Hsome "secondary_stat") as [s Hsec]; [rewrite lookup_initial_stats; eauto|].
  destruct (Hsome "weapon_attack") as [w Hw]; [rewrite lookup_initial_stats; eauto|].
  destruct (Hsome "all_stat_percent") as [a Ha]; [rewrite lookup_initial_stats; eauto|].
  eexists. split; [exact Hs|].
  apply (calculate_flame_score_eq stats p s w a); assumption.
Qed.

(** ** The comparative loop *)

Section Loop.
Variables MAIN_STAT SECONDARY_STAT : string.

Abbreviation score := (score_of MAIN_STAT SECONDARY_STAT).
Abbreviation body := (loop_body MAIN_STAT SECONDARY_STAT).

Lemma score_of_eq (text : string) :
  exists stats,
    stats_of_text MAIN_STAT SECONDARY_STAT text = Ok stats
    /\ calculate_flame_score stats = Ok (score text).
Proof.
  destruct (score_of_text_ok MAIN_STAT SECONDARY_STAT text)
    as (stats & q & Hs & Hq).
  exists stats. split; [exact Hs|].
  unfold score_of. rewrite Hs; simpl. rewrite Hq. reflexivity.
Qed.

Lemma comparative_body_eq (w : env) (st : state) :
  body w st =
    if stop_key w (polls st)
    then (Ok (Stop Cancelled),
          after st (S (polls st)) (samples st) (rerolls st) [StopKey true]
            (text_history st))
    else
      match region_text w (samples st) with
      | Raise e =>
          (Raise e,
           after st (S (polls st)) (S (samples st)) (rerolls st)
             [StopKey false; Sample (Raise e)] (text_history st))
      | Ok before =>
          match region_text w (S (samples st)) with
          | Raise e =>
              (Raise e,
               after st (S (polls st)) (S (S (samples st))) (rerolls st)
                 [StopKey false; Sample (Ok before); Sample (Raise e)]
                 (text_history st))
          | Ok later =>
              let evs :=
                [StopKey false; Sample (Ok before); Sample (Ok later)] in
              if stop_key w (S (polls st))
              then (Ok (Stop Cancelled),
                    after st (S (S (polls st))) (S (S (samples st)))
                      (rerolls st) (evs ++ [StopKey true]) (text_history st))
              else if float_lt (score later) (score before)
              then
                match retry_action w (rerolls st) with
                | Ok _ =>
                    (Ok (if delay_pressed w SPLIT_DELAY (S (S (polls st)))
                         then Stop Cancelled else Again),
                     after st
                       (delay_polls w SPLIT_DELAY (S (S (polls st))))
                       (S (S (samples st))) (S (rerolls st))
                       (evs ++ StopKey false :: Reroll (Ok tt)
                            :: delay_events w split_time SPLIT_DELAY
                                 (S (S (polls st))))
                       (text_history st))
                | Raise e =>
                    (Raise e,
                     after st (S (S (polls st))) (S (S (samples st)))
                       (S (rerolls st))
                       (evs ++ [StopKey false; Reroll (Raise e)])
                       (text_history st))
                end
              else (Ok (Stop Succeeded),
                    after st (S (S (polls st))) (S (S (samples st)))
                      (rerolls st) (evs ++ [StopKey false]) (text_history st))
          end
      end.
Proof.
  unfold loop_body, extract_stats.
  unfold mbind at 1. unfold check_stop_key at 1; simpl.
  destruct (stop_key w (polls st)) eqn:Hk; [reflexivity|].
  unfold ret, mbind, sample_region, lift, emit, after; simpl.
  destruct (region_text w (samples st)) as [before|e] eqn:Hb; simpl.
  2:{ rewrite <- !app_assoc. reflexivity. }
  destruct (score_of_eq before) as (bs & -> & ->).
  destruct (region_text w (S (samples st))) as [later|e] eqn:Ha; simpl.
  2:{ rewrite <- !app_assoc. reflexivity. }
  destruct (score_of_eq later) as (ls & -> & ->).
  unfold check_stop_key, emit; simpl.
  destruct (stop_key w (S (polls st))) eqn:Hk2; simpl.
  { rewrite <- !app_assoc. reflexivity. }
  destruct (float_lt (score later) (score before)); simpl.
  2:{ rewrite <- !app_assoc. reflexivity. }
  unfold invoke_retry_action, emit; simpl.
  destruct (retry_action w (rerolls st)) as [[]|e]; simpl.
  2:{ rewrite <- !app_assoc. reflexivity. }
  rewrite sliced_delay_spec; simpl.
  rewrite <- !app_assoc; simpl.
  destruct (delay_pressed w SPLIT_DELAY (S (S (polls st)))); reflexivity.
Qed.

Lemma comparative_body_paced (w : env) : paced_body SPLIT_DELAY split_time body w.
Proof.
  intros st H. rewrite comparative_body_eq.
  destruct (stop_key w (polls st)); simpl.
  { exists Stopped. split; [|split; reflexivity].
    unfold after; cbn [trace].
    apply (at_loop_entry_poll _ _ st true [] H). }
  destruct (region_text w (samples st)) as [before|e]; simpl.
  2:{ unfold after; cbn [trace].
      rewrite (at_loop_entry_poll _ _ st false _ H). reflexivity. }
  destruct (region_text w (S (samples st))) as [later|e]; simpl.
  2:{ unfold after; cbn [trace].
      rewrite (at_loop_entry_poll _ _ st false _ H). reflexivity. }
  destruct (stop_key w (S (polls st))); simpl.
  { exists Stopped. split; [|split; reflexivity].
    unfold after; cbn [trace].
    rewrite (at_loop_entry_poll _ _ st false _ H). reflexivity. }
  destruct (float_lt (score later) (score before)); simpl.
  2:{ exists Idle. split; [|split; discriminate].
      unfold after; cbn [trace].
      rewrite (at_loop_entry_poll _ _ st false _ H). reflexivity. }
  destruct (retry_action w (rerolls st)) as [[]|e]; simpl.
  2:{ unfold after; cbn [trace].
      rewrite (at_loop_entry_poll _ _ st false _ H). reflexivity. }
  assert (Hrun :
    pace_run SPLIT_DELAY split_time Idle
      (trace st ++
         StopKey false :: Sample (Ok before) :: Sample (Ok later)
         :: StopKey false :: Reroll (Ok tt)
         :: delay_events w split_time SPLIT_DELAY (S (S (polls st))))
    = Some (if delay_pressed w SPLIT_DELAY (S (S (polls st)))
            then Stopped else Waiting 0)).
  { rewrite (at_loop_entry_poll _ _ st false _ H).
    cbn [pace_run pace_step].
    apply (pace_run_delay SPLIT_DELAY split_time w SPLIT_DELAY). }
  destruct (delay_pressed w SPLIT_DELAY (S (S (polls st)))); simpl.
  - exists Stopped. split; [exact Hrun|]. split; reflexivity.
  - right. exact Hrun.
Qed.

Lemma comparative_run_paced (fuel : nat) (w : env) :
  paced SPLIT_DELAY split_time
    (fst (run MAIN_STAT SECONDARY_STAT fuel w))
    (snd (run MAIN_STAT SECONDARY_STAT fuel w)).
Proof.
  apply (main_paced SPLIT_DELAY split_time body w fuel initial
           (comparative_body_paced w) eq_refl).
Qed.

End Loop.

End ComparativeFacts.
(** ** The regular expressions *)

Module OcrFacts.

(** *** Characters *)

Lemma accepts_colon (c : ascii) : accepts true (Chr ":") c = Ascii.eqb ":" c.
Proof. destruct c as [[] [] [] [] [] [] [] []]; reflexivity. Qed.

Lemma accepts_plus (c : ascii) : accepts true (Chr "+") c = Ascii.eqb "+" c.
Proof. destruct c as [[] [] [] [] [] [] [] []]; reflexivity. Qed.

Lemma accepts_percent (c : ascii) : accepts true (Chr "%") c = Ascii.eqb "%" c.
Proof. destruct c as [[] [] [] [] [] [] [] []]; reflexivity. Qed.

Lemma space_not_digit (c : ascii) : isspace c = true -> isdigit c = false.
Proof. destruct c as [[] [] [] [] [] [] [] []]; vm_compute; congruence. Qed.

Lemma space_not_plus (c : ascii) : isspace c = true -> Ascii.eqb "+" c = false.
Proof. destruct c as [[] [] [] [] [] [] [] []]; vm_compute; congruence. Qed.

Lemma digit_not_percent (c : ascii) :
  isdigit c = true -> Ascii.eqb "%" c = false.
Proof. destruct c as [[] [] [] [] [] [] [] []]; vm_compute; congruence. Qed.

Lemma digit_not_int_space (c : ascii) : isdigit c = true -> int_space c = false.
Proof. destruct c as [[] [] [] [] [] [] [] []]; vm_compute; congruence. Qed.

Lemma digit_not_sign (c : ascii) :
  isdigit c = true -> c <> "+"%char /\ c <> "-"%char.
Proof.
  destruct c as [[] [] [] [] [] [] [] []]; vm_compute; try discriminate;
    intros _; split; discriminate.
Qed.

Lemma digit_not_space (c : ascii) : isdigit c = true -> isspace c = false.
Proof. destruct c as [[] [] [] [] [] [] [] []]; vm_compute; congruence. Qed.


(** *** Strings *)

Lemma append_cons (c : ascii) (s t : string) :
  (String c s ++ t)%string = String c (s ++ t)%string.
Proof. reflexivity. Qed.

Lemma append_empty (s : string) : (s ++ "")%string = s.
Proof.
  induction s as [|c s IH]; [reflexivity|].
  rewrite append_cons, IH. reflexivity.
Qed.

Lemma append_assoc (a b c : string) :
  ((a ++ b) ++ c)%string = (a ++ (b ++ c))%string.
Proof.
  induction a as [|x a IH]; [reflexivity|].
  rewrite !append_cons, IH. reflexivity.
Qed.

Lemma take_drop_while (p : ascii -> bool) (s : string) :
  (take_while p s ++ drop_while p s)%string = s.
Proof.
  induction s as [|c s IH]; simpl; [reflexivity|].
  destruct (p c); [rewrite append_cons, IH|]; reflexivity.
Qed.

Lemma all_chars_take_while (p : ascii -> bool) (s : string) :
  all_chars p (take_while p s) = true.
Proof.
  induction s as [|c s IH]; simpl; [reflexivity|].
  destruct (p c) eqn:E; simpl; [rewrite E; exact IH|reflexivity].
Qed.

(** *** Matching without backtracking *)

Lemma orelse_none (a : option matched) : orelse a None = a.
Proof. destruct a; reflexivity. Qed.

Lemma regroup (o : option matched) :
  match o with
  | Some (groups, rest) => Some (groups, rest)
  | None => None
  end = o.
Proof. destruct o as [[? ?]|]; reflexivity. Qed.

(** A greedy repetition takes every character it can when what follows
    the repetition cannot start with such a character. *)
Lemma greedy_span (ok : ascii -> bool)
    (k : string -> string -> option matched) (taken s : string) :
  (forall taken' c t, ok c = true -> k taken' (String c t) = None) ->
  greedy ok k taken s
  = k (taken ++ take_while ok s)%string (drop_while ok s).
Proof.
  intros Hk. revert taken; induction s as [|c s IH]; intros taken; simpl.
  - rewrite append_empty. reflexivity.
  - destruct (ok c) eqn:E.
    + rewrite IH, (Hk taken c s E), orelse_none, append_assoc. reflexivity.
    + rewrite append_empty. reflexivity.
Qed.

Lemma match_here_once ic a cap p s :
  match_here ic (Piece Once a cap :: p) s =
    match s with
    | String c t =>
        if accepts ic a c then continue_with ic cap p (String c "") t else None
    | "" => None
    end.
Proof. destruct s; reflexivity. Qed.

Lemma match_here_optional ic a cap p s :
  match_here ic (Piece Optional a cap :: p) s =
    match s with
    | String c t =>
        if accepts ic a c
        then orelse (continue_with ic cap p (String c "") t) (continue_with ic cap p "" s)
        else continue_with ic cap p "" s
    | "" => continue_with ic cap p "" s
    end.
Proof. destruct s; reflexivity. Qed.

Lemma match_here_zero_or_more ic a cap p s :
  match_here ic (Piece ZeroOrMore a cap :: p) s
  = greedy (accepts ic a) (continue_with ic cap p) "" s.
Proof. destruct s; reflexivity. Qed.

Lemma match_here_one_or_more ic a cap p s :
  match_here ic (Piece OneOrMore a cap :: p) s =
    match s with
    | String c t =>
        if accepts ic a c
        then greedy (accepts ic a) (continue_with ic cap p) (String c "") t
        else None
    | "" => None
    end.
Proof. destruct s; reflexivity. Qed.

Lemma continue_plain ic p taken rest :
  continue_with ic false p taken rest = match_here ic p rest.
Proof. unfold continue_with. apply regroup. Qed.

Lemma percent_value_eq :
  percent_value = Piece Optional (Chr ":") false :: space_plus_digits_tail.
Proof. reflexivity. Qed.

Lemma match_percent (s : string) :
  match_here true percent_tail s =
    match s with
    | String c rest => if Ascii.eqb "%" c then Some ([], rest) else None
    | "" => None
    end.
Proof.
  unfold percent_tail. rewrite match_here_once.
  destruct s as [|c rest]; [reflexivity|].
  rewrite accepts_percent. destruct (Ascii.eqb "%" c); reflexivity.
Qed.

Lemma digits_percent_digit (c : ascii) (t : string) :
  isdigit c = true ->
  digits_percent (String c t) =
    match drop_while isdigit t with
    | String x rest =>
        if Ascii.eqb "%" x then Some (String c (take_while isdigit t), rest)
        else None
    | "" => None
    end.
Proof. intros H. unfold digits_percent; simpl. rewrite H. reflexivity. Qed.

Lemma digits_percent_other (c : ascii) (t : string) :
  isdigit c = false -> digits_percent (String c t) = None.
Proof. intros H. unfold digits_percent; simpl. rewrite H. reflexivity. Qed.

Lemma match_digits (s : string) :
  match_here true digits_tail s = as_match (digits_percent s).
Proof.
  unfold digits_tail. rewrite match_here_one_or_more.
  destruct s as [|c t]; [reflexivity|].
  change (accepts true Digit) with isdigit.
  destruct (isdigit c) eqn:E.
  - rewrite greedy_span.
    + unfold continue_with. rewrite match_percent, (digits_percent_digit c t E).
      rewrite append_cons.
      destruct (drop_while isdigit t) as [|x rest]; [reflexivity|].
      destruct (Ascii.eqb "%" x); reflexivity.
    + intros taken' x u Hx. unfold continue_with. rewrite match_percent.
      rewrite (digit_not_percent x Hx). reflexivity.
  - rewrite (digits_percent_other c t E). reflexivity.
Qed.

Lemma drop_char_cons (x c : ascii) (t : string) :
  drop_char x (String c t) = if Ascii.eqb x c then t else String c t.
Proof. reflexivity. Qed.

Lemma match_plus_digits (s : string) :
  match_here true plus_digits_tail s
  = as_match (digits_percent (drop_char "+" s)).
Proof.
  unfold plus_digits_tail. rewrite match_here_optional.
  destruct s as [|c t]; [rewrite continue_plain; apply match_digits|].
  rewrite accepts_plus, !continue_plain, !match_digits. unfold drop_char.
  destruct (Ascii.eqb "+" c) eqn:E; [|reflexivity].
  apply Ascii.eqb_eq in E as <-.
  rewrite (digits_percent_other "+" t eq_refl). apply orelse_none.
Qed.

Lemma match_space_plus_digits (s : string) :
  match_here true space_plus_digits_tail s
  = as_match (digits_percent (drop_char "+" (drop_while isspace s))).
Proof.
  unfold space_plus_digits_tail. rewrite match_here_zero_or_more.
  change (accepts true Space) with isspace.
  rewrite greedy_span.
  - rewrite continue_plain. apply match_plus_digits.
  - intros taken' c t Hc. rewrite continue_plain, match_plus_digits.
    unfold drop_char. rewrite (space_not_plus c Hc).
    rewrite (digits_percent_other c t (space_not_digit c Hc)). reflexivity.
Qed.

Lemma match_percent_value (s : string) :
  match_here true percent_value s
  = as_match
      (digits_percent
         (drop_char "+" (drop_while isspace (drop_char ":" s)))).
Proof.
  rewrite percent_value_eq, match_here_optional.
  destruct s as [|c t]; [rewrite continue_plain; apply match_space_plus_digits|].
  rewrite accepts_colon, !continue_plain, !match_space_plus_digits.
  rewrite (drop_char_cons ":" c t).
  destruct (Ascii.eqb ":" c) eqn:E; [|reflexivity].
  apply Ascii.eqb_eq in E as <-.
  change (drop_while isspace (String ":" t)) with (String ":" t).
  change (drop_char "+" (String ":" t)) with (String ":" t).
  rewrite (digits_percent_other ":" t eq_refl). apply orelse_none.
Qed.

Lemma match_literally (label : string) (p : pattern) (s : string) :
  match_here true (literally label ++ p) s =
    if starts_with_label label s
    then match_here true p (drop_chars (String.length label) s)
    else None.
Proof.
  revert s; induction label as [|a label IH]; intros s; [reflexivity|].
  cbn [literally app]. unfold literal. rewrite match_here_once.
  destruct s as [|b s]; [reflexivity|].
  cbn [accepts starts_with_label String.length drop_chars].
  destruct (Ascii.eqb (lower_char a) (lower_char b)); [|reflexivity].
  rewrite continue_plain. apply IH.
Qed.

Lemma match_label_percent_value (label s : string) :
  match_here true (literally label ++ percent_value) s
  = as_match (occurrence_at label s).
Proof.
  rewrite match_literally. unfold occurrence_at.
  destruct (starts_with_label label s); [|reflexivity].
  apply match_percent_value.
Qed.

(** *** The direct matcher finds exactly the occurrences *)

Lemma length_append (a b : string) :
  String.length (a ++ b)%string = (String.length a + String.length b)%nat.
Proof.
  induction a as [|x a IH]; [reflexivity|].
  rewrite append_cons. simpl. rewrite IH. reflexivity.
Qed.

Lemma length_lower (s : string) : String.length (lower s) = String.length s.
Proof. induction s as [|c s IH]; simpl; congruence. Qed.

Lemma starts_with_label_split (label s : string) :
  starts_with_label label s = true ->
  exists lab,
    s = (lab ++ drop_chars (String.length label) s)%string
    /\ lower lab = lower label.
Proof.
  revert s; induction label as [|a label IH]; intros s H.
  - exists "". split; reflexivity.
  - destruct s as [|b s]; [discriminate|].
    cbn [starts_with_label] in H. apply andb_prop in H as [Hab H].
    apply Ascii.eqb_eq in Hab.
    destruct (IH s H) as (lab & Hs & Hlab).
    exists (String b lab). split.
    + cbn [String.length drop_chars]. rewrite append_cons. congruence.
    + simpl. congruence.
Qed.

Lemma starts_with_label_append (label lab rest : string) :
  lower lab = lower label ->
  starts_with_label label (lab ++ rest) = true
  /\ drop_chars (String.length label) (lab ++ rest) = rest.
Proof.
  revert lab; induction label as [|a label IH]; intros lab H.
  - destruct lab; [|discriminate]. split; reflexivity.
  - destruct lab as [|b lab]; [discriminate|].
    simpl in H. injection H as Hab H.
    destruct (IH lab H) as [H1 H2].
    rewrite append_cons. cbn [starts_with_label String.length drop_chars].
    rewrite Hab, Ascii.eqb_refl, H1, H2. split; reflexivity.
Qed.

Lemma drop_char_split (c : ascii) (s : string) :
  exists x, (x = "" \/ x = String c "") /\ s = (x ++ drop_char c s)%string.
Proof.
  destruct s as [|c' t]; [exists ""; split; auto|].
  rewrite drop_char_cons. destruct (Ascii.eqb c c') eqn:E.
  - apply Ascii.eqb_eq in E as <-. exists (String c ""). split; auto.
  - exists "". split; auto.
Qed.

Lemma digits_percent_split (s ds rest : string) :
  digits_percent s = Some (ds, rest) ->
  s = (ds ++ "%" ++ rest)%string /\ ds <> "" /\ all_chars isdigit ds = true.
Proof.
  unfold digits_percent. intros H.
  pose proof (take_drop_while isdigit s) as Hs.
  pose proof (all_chars_take_while isdigit s) as Hd.
  destruct (take_while isdigit s) as [|d ds']; [discriminate|].
  destruct (drop_while isdigit s) as [|c rest']; [discriminate|].
  destruct (Ascii.eqb "%" c) eqn:E; [|discriminate].
  apply Ascii.eqb_eq in E as <-. injection H as <- <-.
  split; [symmetry; exact Hs|]. split; [discriminate|exact Hd].
Qed.

Lemma occurrence_at_sound (label text ds rest : string) :
  occurrence_at label text = Some (ds, rest) ->
  exists s,
    text = (s ++ rest)%string /\ occurrence label s (decimal ds)
    /\ ds <> "" /\ all_chars isdigit ds = true.
Proof.
  unfold occurrence_at. intros H.
  destruct (starts_with_label label text) eqn:Hl; [|discriminate].
  apply starts_with_label_split in Hl as (lab & Htext & Hlab).
  set (t0 := drop_chars (String.length label) text) in *.
  destruct (drop_char_split ":" t0) as (colon & Hcolon & H0).
  set (t1 := drop_char ":" t0) in *.
  pose proof (take_drop_while isspace t1) as H1.
  pose proof (all_chars_take_while isspace t1) as Hws.
  set (ws := take_while isspace t1) in *.
  set (t2 := drop_while isspace t1) in *.
  destruct (drop_char_split "+" t2) as (plus & Hplus & H2).
  set (t3 := drop_char "+" t2) in *.
  apply digits_percent_split in H as (H3 & Hne & Hds).
  exists (lab ++ colon ++ ws ++ plus ++ ds ++ "%")%string.
  split; [|split; [|split; assumption]].
  - rewrite Htext, H0, <- H1, H2, H3.
    rewrite !append_assoc. reflexivity.
  - constructor; assumption.
Qed.

Lemma take_while_all (p : ascii -> bool) (ds : string) (c : ascii)
    (rest : string) :
  all_chars p ds = true -> p c = false ->
  take_while p (ds ++ String c rest) = ds
  /\ drop_while p (ds ++ String c rest) = String c rest.
Proof.
  intros Hds Hc. induction ds as [|d ds IH].
  - simpl. rewrite Hc. split; reflexivity.
  - simpl in Hds. apply andb_prop in Hds as [Hd Hds].
    destruct (IH Hds) as [IH1 IH2].
    rewrite append_cons. simpl. rewrite Hd, IH1, IH2. split; reflexivity.
Qed.

Lemma drop_while_all (p : ascii -> bool) (ws rest : string) :
  all_chars p ws = true ->
  drop_while p (ws ++ rest) = drop_while p rest.
Proof.
  intros H. induction ws as [|c ws IH]; [reflexivity|].
  simpl in H. apply andb_prop in H as [Hc H].
  rewrite append_cons. simpl. rewrite Hc. exact (IH H).
Qed.

Lemma digits_percent_complete (ds rest : string) :
  ds <> "" -> all_chars isdigit ds = true ->
  digits_percent (ds ++ "%" ++ rest) = Some (ds, rest).
Proof.
  intros Hne Hds. unfold digits_percent.
  change ("%" ++ rest)%string with (String "%" rest).
  destruct (take_while_all isdigit ds "%" rest Hds eq_refl) as [-> ->].
  destruct ds; [contradiction|reflexivity].
Qed.

(** What follows the label and the colon of an occurrence starts with a
    white space, a plus sign or a digit. *)
Lemma tail_not_colon (ws plus ds rest : string) :
  all_chars isspace ws = true ->
  plus = "" \/ plus = "+" ->
  ds <> "" -> all_chars isdigit ds = true ->
  drop_char ":" (ws ++ plus ++ ds ++ rest) = (ws ++ plus ++ ds ++ rest)%string.
Proof.
  intros Hws Hplus Hne Hds.
  destruct ws as [|c ws].
  - destruct Hplus as [-> | ->]; [|reflexivity].
    destruct ds as [|d ds]; [contradiction|].
    simpl in Hds. apply andb_prop in Hds as [Hd _].
    change ("" ++ "" ++ String d ds ++ rest)%string
      with (String d (ds ++ rest)).
    rewrite drop_char_cons.
    destruct (Ascii.eqb ":" d) eqn:E; [|reflexivity].
    apply Ascii.eqb_eq in E as <-. discriminate.
  - simpl in Hws. apply andb_prop in Hws as [Hc _].
    rewrite append_cons, drop_char_cons.
    destruct (Ascii.eqb ":" c) eqn:E; [|reflexivity].
    apply Ascii.eqb_eq in E as <-. discriminate.
Qed.

Lemma tail_not_space (plus ds rest : string) :
  plus = "" \/ plus = "+" ->
  ds <> "" -> all_chars isdigit ds = true ->
  drop_while isspace (plus ++ ds ++ rest) = (plus ++ ds ++ rest)%string.
Proof.
  intros Hplus Hne Hds.
  destruct Hplus as [-> | ->]; [|reflexivity].
  destruct ds as [|d ds]; [contradiction|].
  simpl in Hds. apply andb_prop in Hds as [Hd _].
  change ("" ++ String d ds ++ rest)%string with (String d (ds ++ rest)).
  simpl. rewrite (digit_not_space d Hd). reflexivity.
Qed.

Lemma tail_not_plus (ds rest : string) :
  ds <> "" -> all_chars isdigit ds = true ->
  drop_char "+" (ds ++ rest) = (ds ++ rest)%string.
Proof.
  intros Hne Hds.
  destruct ds as [|d ds]; [contradiction|].
  simpl in Hds. apply andb_prop in Hds as [Hd _].
  rewrite append_cons, drop_char_cons.
  destruct (Ascii.eqb "+" d) eqn:E; [|reflexivity].
  apply Ascii.eqb_eq in E as <-. discriminate.
Qed.

Lemma occurrence_at_complete (label s rest : string) (n : Z) :
  occurrence label s n ->
  exists ds,
    occurrence_at label (s ++ rest) = Some (ds, rest)
    /\ decimal ds = n /\ ds <> "" /\ all_chars isdigit ds = true.
Proof.
  intros [lab colon ws plus ds Hlab Hcolon Hws Hplus Hne Hds].
  exists ds. split; [|auto].
  unfold occurrence_at. rewrite !append_assoc.
  destruct (starts_with_label_append label lab
              (colon ++ ws ++ plus ++ ds ++ "%" ++ rest) Hlab) as [-> ->].
  assert (H1 : drop_char ":" (colon ++ ws ++ plus ++ ds ++ "%" ++ rest)
               = (ws ++ plus ++ ds ++ "%" ++ rest)%string).
  { destruct Hcolon as [-> | ->]; [|reflexivity].
    apply (tail_not_colon ws plus ds ("%" ++ rest) Hws Hplus Hne Hds). }
  rewrite H1, (drop_while_all isspace ws _ Hws).
  rewrite (tail_not_space plus ds ("%" ++ rest) Hplus Hne Hds).
  assert (H2 : drop_char "+" (plus ++ ds ++ "%" ++ rest)
               = (ds ++ "%" ++ rest)%string).
  { destruct Hplus as [-> | ->]; [|reflexivity].
    apply (tail_not_plus ds ("%" ++ rest) Hne Hds). }
  rewrite H2. apply digits_percent_complete; assumption.
Qed.

(** *** [finditer] and the extractors *)

Lemma finditer_from_skip (ic : bool) (p : pattern) (u v : string) :
  finditer_from ic p (String.length u) (u ++ v) = finditer_from ic p 0 v.
Proof.
  induction u as [|c u IH]; [reflexivity|].
  rewrite append_cons. simpl. exact IH.
Qed.

Lemma finditer_match (ic : bool) (p : pattern) (s rest : string)
    (groups : list string) :
  s <> "" ->
  match_here ic p (s ++ rest) = Some (groups, rest) ->
  finditer ic p (s ++ rest) = (groups, rest) :: finditer ic p rest.
Proof.
  intros Hs Hm. destruct s as [|c s]; [contradiction|].
  unfold finditer. rewrite append_cons in *.
  cbn [finditer_from]. rewrite Hm. f_equal.
  replace (String.length (String c (s ++ rest)) - String.length rest - 1)%nat
    with (String.length s).
  - apply finditer_from_skip.
  - cbn [String.length]. rewrite length_append. lia.
Qed.

Lemma finditer_no_match (ic : bool) (p : pattern) (c : ascii) (t : string) :
  match_here ic p (String c t) = None ->
  finditer ic p (String c t) = finditer ic p t.
Proof. intros Hm. unfold finditer. cbn [finditer_from]. rewrite Hm. reflexivity. Qed.

Lemma digits_value_digits (ds : string) (acc : Z) (after_digit : bool) :
  all_chars isdigit ds = true ->
  digits_value acc after_digit ds
  = if after_digit || negb (String.eqb ds "") then Some (decimal_from acc ds)
    else None.
Proof.
  revert acc after_digit; induction ds as [|d ds IH]; intros acc b H.
  - simpl. destruct b; reflexivity.
  - simpl in H. apply andb_prop in H as [Hd H].
    cbn [digits_value decimal_from]. rewrite Hd, (IH _ true H).
    rewrite orb_true_r. reflexivity.
Qed.

Lemma int_strip_digits (ds : string) :
  all_chars isdigit ds = true ->
  int_lstrip ds = ds /\ int_rstrip ds = ds.
Proof.
  intros H. split.
  - destruct ds as [|d ds]; [reflexivity|].
    simpl in H. apply andb_prop in H as [Hd _].
    simpl. rewrite (digit_not_int_space d Hd). reflexivity.
  - induction ds as [|d ds IH]; [reflexivity|].
    simpl in H. apply andb_prop in H as [Hd H].
    simpl. rewrite (IH H), (digit_not_int_space d Hd).
    destruct ds; reflexivity.
Qed.

(** [int] of a non-empty string of digits_tail is the number it denotes. *)
Lemma int_digits (ds : string) :
  ds <> "" -> all_chars isdigit ds = true -> int ds = Ok (decimal ds).
Proof.
  intros Hne H. unfold int.
  destruct (int_strip_digits ds H) as [-> ->].
  destruct ds as [|d ds]; [contradiction|].
  pose proof H as H'. simpl in H'. apply andb_prop in H' as [Hd _].
  destruct (digit_not_sign d Hd) as [Hplus Hminus].
  assert (Hv : digits_value 0 false (String d ds) = Some (decimal (String d ds))).
  { rewrite (digits_value_digits _ 0 false H). reflexivity. }
  destruct d as [[] [] [] [] [] [] [] []];
    try (rewrite Hv; reflexivity); congruence.
Qed.

Lemma accumulate_digits (total : Z) (ds rest : string) :
  ds <> "" -> all_chars isdigit ds = true ->
  accumulate (Ok total) ([ds], rest) = Ok (total + decimal ds)%Z.
Proof.
  intros Hne H. unfold accumulate, group, getitem; simpl.
  rewrite (int_digits ds Hne H). reflexivity.
Qed.

Lemma accumulate_delta (m : matched) :
  exists d, forall t, accumulate (Ok t) m = Ok (t + d)%Z.
Proof.
  unfold accumulate, group, getitem; simpl.
  destruct (fst m !! 0%nat) as [g|]; simpl.
  - destruct (int g) as [n|e] eqn:E; simpl.
    + exists n. reflexivity.
    + apply int_raises_ValueError in E as ->. exists 0%Z.
      intros t. simpl. f_equal. lia.
  - exists 0%Z. intros t. f_equal. lia.
Qed.

Lemma fold_accumulate_delta (ms : list matched) :
  exists k, forall t, fold_left accumulate ms (Ok t) = Ok (t + k)%Z.
Proof.
  induction ms as [|m ms [k IH]].
  - exists 0%Z. intros t. simpl. f_equal. lia.
  - destruct (accumulate_delta m) as [d Hd].
    exists (d + k)%Z. intros t. cbn [fold_left].
    rewrite Hd, IH. f_equal. lia.
Qed.

Lemma fold_accumulate_shift (ms : list matched) (total k : Z) :
  fold_left accumulate ms (Ok 0%Z) = Ok k ->
  fold_left accumulate ms (Ok total) = Ok (total + k)%Z.
Proof.
  destruct (fold_accumulate_delta ms) as [k' Hk'].
  rewrite !Hk'. intros [= <-]. f_equal.
Qed.

Section Extractor.
Variable label : string.

Abbreviation pattern_of := (literally label ++ percent_value).
Abbreviation extracted := (extracted label).

Lemma occurrence_not_empty (s : string) (n : Z) :
  occurrence label s n -> s <> "".
Proof.
  intros [lab colon ws plus ds _ _ _ _ Hne _] H.
  apply (f_equal String.length) in H.
  rewrite !length_append in H. destruct ds; [contradiction|].
  simpl in H. lia.
Qed.

Lemma extracted_occurrences (text : string) (ns : list Z) :
  occurrences label text ns -> extracted text = Ok (sum ns).
Proof.
  unfold extracted.
  induction 1 as [|s rest n ns Hocc _ IH|c t ns Hno _ IH].
  - reflexivity.
  - destruct (occurrence_at_complete label s rest n Hocc)
      as (ds & Hat & Hn & Hne & Hds).
    rewrite (finditer_match true pattern_of s rest [ds]
               (occurrence_not_empty s n Hocc)).
    2:{ rewrite match_label_percent_value, Hat. reflexivity. }
    cbn [fold_left]. rewrite (accumulate_digits 0 ds rest Hne Hds).
    rewrite (fold_accumulate_shift _ (0 + decimal ds) (sum ns) IH).
    simpl. rewrite Hn. f_equal; lia.
  - rewrite finditer_no_match; [exact IH|].
    rewrite match_label_percent_value.
    destruct (occurrence_at label (String c t)) as [[ds rest]|] eqn:Hat;
      [|reflexivity].
    apply occurrence_at_sound in Hat as (s & Hs & Hocc & _).
    destruct (Hno s (decimal ds) rest Hocc Hs).
Qed.

Lemma occurrences_exist (text : string) : exists ns, occurrences label text ns.
Proof.
  remember (String.length text) as len eqn:Hlen.
  revert text Hlen.
  induction len as [len IH] using lt_wf_ind; intros text Hlen.
  destruct text as [|c t]; [exists []; constructor|].
  destruct (occurrence_at label (String c t)) as [[ds rest]|] eqn:Hat.
  - apply occurrence_at_sound in Hat as (s & Hs & Hocc & _).
    destruct (IH (String.length rest)) with (text := rest) as [ns Hns];
      [|reflexivity|].
    + subst len. rewrite Hs, length_append.
      pose proof (occurrence_not_empty s _ Hocc).
      destruct s; [contradiction|simpl; lia].
    + exists (decimal ds :: ns). rewrite Hs. constructor; assumption.
  - destruct (IH (String.length t)) with (text := t) as [ns Hns];
      [subst len; simpl; lia|reflexivity|].
    exists ns. constructor; [|exact Hns].
    intros s n rest Hocc Hs.
    destruct (occurrence_at_complete label s rest n Hocc) as (ds & Hat' & _).
    rewrite <- Hs in Hat'. congruence.
Qed.

(** Building the occurrences of a text with the direct matcher. *)
Lemma occurrences_here_at (text ds rest : string) (n : Z) (ns : list Z) :
  occurrence_at label text = Some (ds, rest) ->
  decimal ds = n ->
  occurrences label rest ns ->
  occurrences label text (n :: ns).
Proof.
  intros Hat Hn Hns.
  apply occurrence_at_sound in Hat as (s & -> & Hocc & _).
  subst n. constructor; assumption.
Defined.

Lemma occurrences_skip_at (c : ascii) (t : string) (ns : list Z) :
  occurrence_at label (String c t) = None ->
  occurrences label t ns ->
  occurrences label (String c t) ns.
Proof.
  intros Hat Hns. constructor; [|exact Hns].
  intros s n rest Hocc Hs.
  destruct (occurrence_at_complete label s rest n Hocc) as (ds & Hat' & _).
  rewrite <- Hs in Hat'. congruence.
Defined.

End Extractor.
End OcrFacts.


(* ===================================================================== *)
(** * Further facts about strings *)
(* ===================================================================== *)

Module TextFacts.

Lemma startswith_cons_contains (a c : ascii) (p s : string) :
  startswith (String a (String c p)) s = true ->
  exists b t, s = String b t /\ startswith (String c "") t = true.
Proof.
  destruct s as [|b t]; [discriminate|]. cbn [startswith].
  destruct (Ascii.eqb a b); [|discriminate].
  destruct t as [|d t']; [discriminate|]. cbn [startswith].
  destruct (Ascii.eqb c d) eqn:E; [|discriminate]. intros _.
  exists b, (String d t'). split; [reflexivity|].
  cbn [startswith]. rewrite E. reflexivity.
Qed.

Lemma free_of_tail (c a : ascii) (t : string) :
  free_of c (String a t) -> Ascii.eqb c a = false /\ free_of c t.
Proof.
  unfold free_of. cbn [contains startswith].
  destruct (Ascii.eqb c a); [discriminate|].
  cbn [orb]. auto.
Qed.

Lemma free_of_space_plus (s : string) :
  free_of "+" s -> contains " +" s = false.
Proof.
  induction s as [|b t IH]; intros H; [reflexivity|].
  apply free_of_tail in H as [Hb Ht].
  cbn [contains]. rewrite (IH Ht), orb_false_r.
  destruct (startswith " +" (String b t)) eqn:E; [|reflexivity].
  apply startswith_cons_contains in E as (b' & t' & [= <- <-] & E).
  unfold free_of in Ht. destruct t as [|d t']; [discriminate|].
  cbn [contains] in Ht. rewrite E in Ht. discriminate.
Qed.

Lemma free_of_plus_space (s : string) :
  free_of "+" s -> contains "+ " s = false.
Proof.
  induction s as [|b t IH]; intros H; [reflexivity|].
  apply free_of_tail in H as [Hb Ht].
  cbn [contains]. rewrite (IH Ht), orb_false_r.
  cbn [startswith]. rewrite Hb. reflexivity.
Qed.

Lemma contains_tail (sub : string) (c : ascii) (t : string) :
  contains sub (String c t) = false -> contains sub t = false.
Proof.
  cbn [contains]. intros H. apply orb_false_iff in H as [_ H]. exact H.
Qed.

Lemma contains_head (sub : string) (c : ascii) (t : string) :
  contains sub (String c t) = false -> startswith sub (String c t) = false.
Proof.
  cbn [contains]. intros H. apply orb_false_iff in H as [H _]. exact H.
Qed.

(** [s.replace(old, new)] is [s] when [old] does not occur in [s]. *)
Lemma replace_absent (old new s : string) :
  contains old s = false -> replace old new s = s.
Proof.
  unfold replace. induction s as [|c t IH]; intros H; [reflexivity|].
  cbn [replace_from]. rewrite (contains_head _ _ _ H).
  rewrite (IH (contains_tail _ _ _ H)). reflexivity.
Qed.

Lemma free_of_cons (c a : ascii) (t : string) :
  Ascii.eqb c a = false -> free_of c t -> free_of c (String a t).
Proof.
  unfold free_of. cbn [contains startswith]. intros -> ->. reflexivity.
Qed.

Lemma split_free_lines (c sep : ascii) (s : string) :
  free_of c s -> Forall (free_of c) (split sep s).
Proof.
  induction s as [|a t IH]; intros H.
  { cbn [split]. constructor; [reflexivity|constructor]. }
  apply free_of_tail in H as [Ha Ht]. specialize (IH Ht).
  cbn [split]. destruct (Ascii.eqb a sep).
  - constructor; [reflexivity|exact IH].
  - destruct (split sep t) as [|w ws].
    + constructor; [|constructor]. apply free_of_cons; [exact Ha|reflexivity].
    + inversion IH as [|? ? Hw Hws]; subst.
      constructor; [|exact Hws]. apply free_of_cons; assumption.
Qed.

Lemma lower_append (a b : string) :
  lower (a ++ b)%string = (lower a ++ lower b)%string.
Proof.
  induction a as [|c a IH]; [reflexivity|].
  rewrite OcrFacts.append_cons. cbn [lower].
  rewrite OcrFacts.append_cons, IH. reflexivity.
Qed.

Lemma startswith_append (p rest : string) : startswith p (p ++ rest) = true.
Proof.
  induction p as [|c p IH]; [reflexivity|].
  rewrite OcrFacts.append_cons. cbn [startswith].
  rewrite Ascii.eqb_refl. exact IH.
Qed.

Lemma startswith_prefix (a b s : string) :
  startswith (a ++ b) s = true -> startswith a s = true.
Proof.
  revert s; induction a as [|c a IH]; intros s; [reflexivity|].
  rewrite OcrFacts.append_cons. destruct s as [|d s]; [discriminate|].
  cbn [startswith]. destruct (Ascii.eqb c d); [apply IH|discriminate].
Qed.

Lemma contains_prefix (a b s : string) :
  contains (a ++ b) s = true -> contains a s = true.
Proof.
  induction s as [|c t IH].
  - cbn [contains]. rewrite !orb_false_r. apply startswith_prefix.
  - cbn [contains]. intros H. apply orb_true_iff in H as [H|H].
    + rewrite (startswith_prefix _ _ _ H). reflexivity.
    + rewrite (IH H). apply orb_true_r.
Qed.

Lemma contains_startswith (p s : string) :
  startswith p s = true -> contains p s = true.
Proof. destruct s; cbn [contains]; intros ->; reflexivity. Qed.

Lemma decimal_from_app (x y : string) (acc : Z) :
  decimal_from acc (x ++ y) = decimal_from (decimal_from acc x) y.
Proof.
  revert acc; induction x as [|c x IH]; intros acc; [reflexivity|].
  rewrite OcrFacts.append_cons. cbn [decimal_from]. apply IH.
Qed.

Lemma all_chars_app (p : ascii -> bool) (x y : string) :
  all_chars p (x ++ y) = all_chars p x && all_chars p y.
Proof.
  induction x as [|c x IH]; [reflexivity|].
  rewrite OcrFacts.append_cons. cbn [all_chars]. rewrite IH.
  apply andb_assoc.
Qed.

End TextFacts.

(* ===================================================================== *)
(** * Further facts about the runs of the two loops *)
(* ===================================================================== *)

Module RunFacts.

Section KeywordRuns.
Import Keyword.

Lemma stuck_three (h : list string) :
  stuck h = true -> exists s, h = [s; s; s].
Proof.
  unfold stuck. intros H. apply KeywordFacts.unchanged_iff.
  destruct (unchanged_for_3_tries h) as [[]|e]; [reflexivity|discriminate..].
Qed.

Lemma keyword_body_stops_at_first_goal (max_mode : bool) (w : env)
    (st : state) :
  fifo st ->
  Forall (below_goal max_mode) (sampled_texts (trace st)) ->
  match loop_body max_mode w st with
  | (Ok Again, st') =>
      fifo st' /\ Forall (below_goal max_mode) (sampled_texts (trace st'))
  | (Ok (Stop o), st') => stops_at_first_goal max_mode (Ok (Some o), st')
  | (Raise e, st') => Forall (below_goal max_mode) (sampled_texts (trace st'))
  end.
Proof.
  intros Hfifo Hbelow.
  pose proof (KeywordFacts.loop_body_fifo max_mode w st Hfifo) as Hfifo'.
  revert Hfifo'.
  rewrite KeywordFacts.keyword_body_eq.
  destruct (stop_key w (polls st)).
  { intros _. unfold stops_at_first_goal, after; cbn [fst snd trace].
    rewrite sampled_texts_app, app_nil_r. exact Hbelow. }
  destruct (region_text w (samples st)) as [text|e]; cbn zeta.
  - destruct (stuck (remember (text_history st) text)) eqn:Hstuck.
    + intros Hf. unfold stops_at_first_goal, after; cbn [fst snd trace].
      rewrite sampled_texts_app; cbn [sampled_texts app].
      apply stuck_three in Hstuck as [s Hs].
      rewrite Hfifo, KeywordFacts.remember_last_n in Hs.
      assert (Hin : text = s /\ In s (sampled_texts (trace st))).
      { revert Hs. generalize (sampled_texts (trace st)) as l. intros l.
        unfold last_n. rewrite length_app; cbn [length].
        destruct l as [|a l] using rev_ind; [discriminate|].
        clear IHl. destruct l as [|b l] using rev_ind.
        { simpl. discriminate. }
        clear IHl. rewrite !length_app; cbn [length].
        replace (length l + 1 + 1 + 1 - 3) with (length l) by lia.
        rewrite <- !app_assoc. rewrite drop_app_length.
        cbn [app]. intros [= -> -> ->]. split; [reflexivity|].
        apply in_or_app. right. left. reflexivity. }
      destruct Hin as [-> Hin]. split.
      * apply Forall_app. split; [exact Hbelow|].
        constructor; [|constructor].
        rewrite Forall_forall in Hbelow. apply Hbelow, list_elem_of_In, Hin.
      * exists s. rewrite <- Hs. reflexivity.
    + destruct (goal_reached max_mode (scanned text)) eqn:Hgoal.
      * intros _. unfold stops_at_first_goal, after; cbn [fst snd trace].
        rewrite sampled_texts_app; cbn [sampled_texts app].
        exists (sampled_texts (trace st)), text.
        split; [reflexivity|]. split; [exact Hbelow|].
        rewrite KeywordFacts.goal_reached_threshold in Hgoal.
        apply Nat.leb_le, Hgoal.
      * rewrite KeywordFacts.goal_reached_threshold in Hgoal.
        apply Nat.leb_gt in Hgoal.
        match goal with
        | |- context [reroll_and_wait w ?s] =>
            pose proof (proj2 (KeywordFacts.reroll_and_wait_frame w s)) as Hfr;
            set (st1 := s) in *
        end.
        assert (Hb1 : Forall (below_goal max_mode) (sampled_texts (trace st1))).
        { subst st1. unfold after; cbn [trace].
          rewrite sampled_texts_app; cbn [sampled_texts app].
          apply Forall_app. split; [exact Hbelow|].
          constructor; [exact Hgoal|constructor]. }
        rewrite <- Hfr in Hb1.
        assert (Hcases :
          forall r st', reroll_and_wait w st1 = (r, st') ->
            r = Ok Again \/ r = Ok (Stop Cancelled) \/ exists e, r = Raise e).
        { intros r st'. rewrite KeywordFacts.reroll_and_wait_eq.
          destruct (retry_action w (rerolls st1)) as [[]|e].
          - destruct (delay_pressed w split_delay (polls st1));
              intros [= <- _]; auto.
          - intros [= <- _]. eauto. }
        destruct (reroll_and_wait w st1) as [r st'] eqn:E.
        cbn [snd] in *.
        destruct (Hcases r st' eq_refl) as [->|[->|[e ->]]].
        -- intros Hf. split; [exact Hf|exact Hb1].
        -- intros _. exact Hb1.
        -- intros _. exact Hb1.
  - match goal with
    | |- context [reroll_and_wait w ?s] =>
        pose proof (proj2 (KeywordFacts.reroll_and_wait_frame w s)) as Hfr;
        set (st1 := s) in *
    end.
    assert (Hb1 : Forall (below_goal max_mode) (sampled_texts (trace st1))).
    { subst st1. unfold after; cbn [trace].
      rewrite sampled_texts_app; cbn [sampled_texts app].
      rewrite app_nil_r. exact Hbelow. }
    rewrite <- Hfr in Hb1.
    assert (Hcases :
      forall r st', reroll_and_wait w st1 = (r, st') ->
        r = Ok Again \/ r = Ok (Stop Cancelled) \/ exists e, r = Raise e).
    { intros r st'. rewrite KeywordFacts.reroll_and_wait_eq.
      destruct (retry_action w (rerolls st1)) as [[]|e'].
      - destruct (delay_pressed w split_delay (polls st1));
          intros [= <- _]; auto.
      - intros [= <- _]. eauto. }
    destruct (reroll_and_wait w st1) as [r st'] eqn:E.
    cbn [snd] in *.
    destruct (Hcases r st' eq_refl) as [->|[->|[e' ->]]].
    -- intros Hf. split; [exact Hf|exact Hb1].
    -- intros _. exact Hb1.
    -- intros _. exact Hb1.
Qed.

End KeywordRuns.

Local Ltac count :=
  unfold keyword_counts, comparative_counts, after;
  cbn [fst snd samples rerolls]; lia.

Lemma keyword_body_counts (max_mode : bool) (w : env) (st : state) :
  samples st = rerolls st ->
  match Keyword.loop_body max_mode w st with
  | (Ok Again, st') => samples st' = rerolls st'
  | (Ok (Stop o), st') => keyword_counts (Ok (Some o), st')
  | (Raise e, st') => samples st' = rerolls st'
  end.
Proof.
  intros H. rewrite KeywordFacts.keyword_body_eq.
  destruct (stop_key w (polls st)); [count|].
  destruct (region_text w (samples st)) as [text|e]; cbn zeta.
  - destruct (stuck _); [count|].
    destruct (goal_reached _ _); [count|].
    rewrite KeywordFacts.reroll_and_wait_eq. cbn [after rerolls polls samples].
    destruct (retry_action w (rerolls st)) as [[]|e].
    + destruct (delay_pressed _ _ _); count.
    + count.
  - rewrite KeywordFacts.reroll_and_wait_eq. cbn [after rerolls polls samples].
    destruct (retry_action w (rerolls st)) as [[]|e'].
    + destruct (delay_pressed _ _ _); count.
    + count.
Qed.

Lemma comparative_body_counts (MAIN SEC : string) (w : env) (st : state) :
  samples st = 2 * rerolls st ->
  match Comparative.loop_body MAIN SEC w st with
  | (Ok Again, st') => samples st' = 2 * rerolls st'
  | (Ok (Stop o), st') => comparative_counts (Ok (Some o), st')
  | (Raise e, st') => 2 * rerolls st' <= samples st' <= 2 * rerolls st' + 2
  end.
Proof.
  intros H. rewrite ComparativeFacts.comparative_body_eq.
  destruct (stop_key w (polls st)); [count|].
  destruct (region_text w (samples st)) as [before|e]; [|count].
  destruct (region_text w (S (samples st))) as [later|e]; [|count].
  cbn zeta.
  destruct (stop_key w (S (polls st))); [count|].
  destruct (Comparative.float_lt _ _); [|count].
  destruct (retry_action w (rerolls st)) as [[]|e]; [|count].
  destruct (delay_pressed _ _ _); count.
Qed.







End RunFacts.

(* ===================================================================== *)
(** * Further facts about the comparative parser *)
(* ===================================================================== *)

Module ParserFacts.
Import Comparative TextFacts.

Lemma normalize_free (line : string) :
  free_of "+" line -> normalize line = line.
Proof.
  intros H. unfold normalize.
  rewrite (replace_absent " +" "+" line (free_of_space_plus line H)).
  apply replace_absent, free_of_plus_space, H.
Qed.

Lemma after_first_plus_free (line : string) :
  free_of "+" line -> after_first_plus line = None.
Proof.
  induction line as [|c t IH]; intros H; [reflexivity|].
  apply free_of_tail in H as [Hc Ht].
  cbn [after_first_plus]. rewrite Ascii.eqb_sym, Hc. apply IH, Ht.
Qed.

Lemma contribution_free (MAIN SEC key line : string) :
  free_of "+" line -> contribution MAIN SEC key line = None.
Proof.
  intros H. unfold contribution, integer_after_plus, percent_after_plus.
  rewrite (normalize_free line H), (after_first_plus_free line H).
  repeat match goal with |- context [if ?b then _ else _] => destruct b end;
    reflexivity.
Qed.

Lemma stats_of_text_free (MAIN SEC text : string) :
  free_of "+" text -> stats_of_text MAIN SEC text = Ok initial_stats.
Proof.
  intros H.
  destruct (ComparativeFacts.stats_of_text_ok MAIN SEC text)
    as (stats & Hs & Hk).
  rewrite Hs. f_equal. apply map_eq. intros key. rewrite Hk.
  apply ComparativeFacts.latest_none.
  eapply Forall_impl; [apply split_free_lines, H|].
  intros line Hl. apply contribution_free, Hl.
Qed.

Lemma score_of_free (MAIN SEC text : string) :
  free_of "+" text -> score_of MAIN SEC text == 0.
Proof.
  intros H. unfold score_of. rewrite (stats_of_text_free MAIN SEC text H).
  vm_compute. reflexivity.
Qed.

Lemma all_chars_lstrip (s : string) :
  all_chars int_char (int_lstrip s) = true -> all_chars int_char s = true.
Proof.
  induction s as [|c t IH]; [reflexivity|].
  cbn [int_lstrip]. destruct (int_space c) eqn:E; [|auto].
  intros H. cbn [all_chars]. rewrite (IH H), andb_true_r.
  unfold int_char. rewrite E. rewrite !orb_true_r. reflexivity.
Qed.

Lemma all_chars_rstrip (s : string) :
  all_chars int_char (int_rstrip s) = true -> all_chars int_char s = true.
Proof.
  induction s as [|c t IH]; [reflexivity|].
  cbn [int_rstrip].
  destruct (int_rstrip t) as [|d t'] eqn:E.
  - destruct (int_space c) eqn:Ec.
    + intros _. cbn [all_chars]. rewrite (IH eq_refl), andb_true_r.
      unfold int_char. rewrite Ec, !orb_true_r. reflexivity.
    + cbn [all_chars]. rewrite andb_true_r. intros ->.
      rewrite (IH eq_refl). reflexivity.
  - cbn [all_chars]. intros H.
    apply andb_true_iff in H as [Hc H]. rewrite Hc.
    apply IH. exact H.
Qed.

Lemma all_chars_digits_value (s : string) (acc : Z) (b : bool) (n : Z) :
  digits_value acc b s = Some n -> all_chars int_char s = true.
Proof.
  revert acc b; induction s as [|c t IH]; intros acc b; [reflexivity|].
  cbn [digits_value all_chars]. unfold int_char at 1.
  destruct (isdigit c).
  - intros H. rewrite (IH _ _ H). reflexivity.
  - destruct (Ascii.eqb c "_"); [|discriminate].
    destruct b; [|discriminate].
    intros H. rewrite (IH _ _ H). reflexivity.
Qed.

(** [int(s)] raises [ValueError] as soon as [s] holds a character that is
    no digit, underscore, sign or white space. *)
Lemma int_chars (s : string) (n : Z) :
  int s = Ok n -> all_chars int_char s = true.
Proof.
  unfold int. intros H.
  apply all_chars_lstrip, all_chars_rstrip.
  destruct (int_rstrip (int_lstrip s)) as [|c t] eqn:E; [reflexivity|].
  destruct (Ascii.eqb c "+") eqn:Ep.
  { apply Ascii.eqb_eq in Ep as ->.
    destruct (digits_value 0 false t) as [m|] eqn:D; [|discriminate].
    cbn [all_chars]. rewrite (all_chars_digits_value _ _ _ _ D). reflexivity. }
  destruct (Ascii.eqb c "-") eqn:Em.
  { apply Ascii.eqb_eq in Em as ->.
    destruct (digits_value 0 false t) as [m|] eqn:D; [|discriminate].
    cbn [all_chars]. rewrite (all_chars_digits_value _ _ _ _ D). reflexivity. }
  assert (Hd : exists m, digits_value 0 false (String c t) = Some m).
  { revert H Ep Em. clear.
    destruct c as [[] [] [] [] [] [] [] []]; try discriminate;
      intros H _ _;
      match type of H with
      | match ?d with Some _ => _ | None => _ end = _ =>
          destruct d as [m|]; [exists m; reflexivity|discriminate]
      end. }
  destruct Hd as [m Hm]. apply (all_chars_digits_value _ _ _ _ Hm).
Qed.

End ParserFacts.

(* ===================================================================== *)
(** * Further facts about the keyword parser and the log *)
(* ===================================================================== *)

Module TotalsFacts.
Import Report TextFacts.

Lemma decimal_from_nonneg (ds : string) (acc : Z) :
  (0 <= acc)%Z -> (0 <= decimal_from acc ds)%Z.
Proof.
  revert acc; induction ds as [|c t IH]; intros acc H; [exact H|].
  cbn [decimal_from]. apply IH. unfold digit_value. lia.
Qed.

Lemma occurrence_facts (label s : string) (n : Z) (rest : string) :
  occurrence label s n ->
  (0 <= n)%Z /\ startswith (lower label) (lower (s ++ rest)) = true.
Proof.
  intros [lab colon ws plus ds Hlab _ _ _ _ _]. split.
  - apply decimal_from_nonneg. lia.
  - rewrite OcrFacts.append_assoc, lower_append, Hlab.
    apply startswith_append.
Qed.

Lemma occurrences_facts (label text : string) (ns : list Z) :
  occurrences label text ns ->
  Forall (fun n => 0 <= n)%Z ns
  /\ (ns <> [] -> contains (lower label) (lower text) = true).
Proof.
  induction 1 as [|s rest n ns Hocc _ [IH1 IH2]|c t ns _ _ [IH1 IH2]].
  - split; [constructor|congruence].
  - destruct (occurrence_facts label s n rest Hocc) as [Hn Hs].
    split; [constructor; assumption|].
    intros _. apply contains_startswith, Hs.
  - split; [exact IH1|]. intros Hns. cbn [lower contains].
    rewrite (IH2 Hns). apply orb_true_r.
Qed.

Lemma sum_nonneg (ns : list Z) :
  Forall (fun n => 0 <= n)%Z ns -> (0 <= sum ns)%Z.
Proof.
  induction 1 as [|n ns Hn _ IH]; [reflexivity|].
  unfold sum in *. cbn [fold_right]. lia.
Qed.

Lemma sum_nonzero (ns : list Z) : sum ns <> 0%Z -> ns <> [].
Proof. intros H ->. apply H. reflexivity. Qed.

Lemma mismatch_starts_with (label s rest : string) :
  mismatch_within label s = true ->
  starts_with_label label (s ++ rest) = false.
Proof.
  revert s; induction label as [|a label IH]; intros [|b s];
    cbn [mismatch_within]; try discriminate.
  rewrite OcrFacts.append_cons. cbn [starts_with_label].
  destruct (Ascii.eqb (lower_char a) (lower_char b)); cbn [negb orb andb].
  - apply IH.
  - reflexivity.
Qed.

Lemma occurrences_skip_prefix (label pre rest : string) (ns : list Z) :
  no_start label pre = true ->
  occurrences label rest ns ->
  occurrences label (pre ++ rest) ns.
Proof.
  induction pre as [|c t IH]; intros H Hrest; [exact Hrest|].
  cbn [no_start] in H. apply andb_true_iff in H as [Hc Ht].
  rewrite OcrFacts.append_cons.
  apply OcrFacts.occurrences_skip_at; [|apply IH; assumption].
  unfold occurrence_at. rewrite <- OcrFacts.append_cons.
  rewrite (mismatch_starts_with _ _ _ Hc). reflexivity.
Qed.

Lemma digit_mismatch (a c : ascii) :
  isdigit a = false -> isdigit (lower_char a) = false ->
  isdigit c = true ->
  negb (Ascii.eqb (lower_char a) (lower_char c)) = true.
Proof.
  intros Ha Hla Hc.
  assert (Hlc : lower_char c = c).
  { revert Hc. clear.
    destruct c as [[] [] [] [] [] [] [] []]; vm_compute; congruence. }
  rewrite Hlc. apply negb_true_iff, Ascii.eqb_neq. congruence.
Qed.

Lemma no_start_digits (a : ascii) (label ds : string) :
  isdigit a = false -> isdigit (lower_char a) = false ->
  all_chars isdigit ds = true ->
  no_start (String a label) ds = true.
Proof.
  intros Ha Hla. induction ds as [|c t IH]; [reflexivity|].
  cbn [all_chars no_start mismatch_within]. intros H.
  apply andb_true_iff in H as [Hc Ht].
  rewrite (digit_mismatch a c Ha Hla Hc), (IH Ht). reflexivity.
Qed.


Lemma digit_char_spec (d : N) :
  (d < 10)%N ->
  isdigit (digit_char d) = true /\ digit_value (digit_char d) = Z.of_N d.
Proof.
  intros H.
  assert (Hd : (d = 0 \/ d = 1 \/ d = 2 \/ d = 3 \/ d = 4 \/ d = 5
                \/ d = 6 \/ d = 7 \/ d = 8 \/ d = 9)%N) by lia.
  repeat (destruct Hd as [->|Hd]; [split; reflexivity|]).
  subst d. split; reflexivity.
Qed.

Lemma digits_of_spec (fuel : nat) (n : N) (acc : string) :
  (n < 2 ^ N.of_nat fuel)%N -> (1 <= fuel)%nat ->
  exists ds,
    digits_of fuel n acc = (ds ++ acc)%string
    /\ ds <> "" /\ all_chars isdigit ds = true
    /\ decimal ds = Z.of_N n.
Proof.
  revert n acc; induction fuel as [|fuel IH]; intros n acc Hn Hf; [lia|].
  cbn [digits_of].
  assert (Hmod : (n mod 10 < 10)%N) by (apply N.mod_lt; lia).
  destruct (digit_char_spec _ Hmod) as [Hdig Hval].
  destruct (n / 10 =? 0)%N eqn:E.
  - apply N.eqb_eq in E.
    exists (String (digit_char (n mod 10)) "").
    split; [reflexivity|]. split; [discriminate|].
    split; [cbn [all_chars]; rewrite Hdig; reflexivity|].
    unfold decimal. cbn [decimal_from]. rewrite Hval.
    pose proof (N.div_mod n 10). lia.
  - apply N.eqb_neq in E.
    assert (Hpow : (2 ^ N.of_nat (S fuel) = 2 * 2 ^ N.of_nat fuel)%N).
    { rewrite Nat2N.inj_succ, N.pow_succ_r'. reflexivity. }
    assert (Hdiv : (n / 10 < 2 ^ N.of_nat fuel)%N).
    { apply N.Div0.div_lt_upper_bound. rewrite Hpow in Hn. lia. }
    assert (Hfuel : (1 <= fuel)%nat).
    { destruct fuel; [|lia].
      change (2 ^ N.of_nat 0)%N with 1%N in Hdiv.
      apply N.lt_1_r in Hdiv. contradiction. }
    destruct (IH (n / 10)%N (String (digit_char (n mod 10)) acc) Hdiv Hfuel)
      as (ds & Hds & Hne & Hall & Hdec).
    exists (ds ++ String (digit_char (n mod 10)) "")%string.
    split.
    { rewrite Hds, OcrFacts.append_assoc, OcrFacts.append_cons. reflexivity. }
    split.
    { destruct ds; [contradiction|]. rewrite OcrFacts.append_cons.
      discriminate. }
    split.
    { rewrite all_chars_app, Hall. cbn [all_chars]. rewrite Hdig.
      reflexivity. }
    unfold decimal in *. rewrite decimal_from_app, Hdec.
    cbn [decimal_from]. rewrite Hval.
    pose proof (N.div_mod n 10). lia.
Qed.

Lemma str_digits (n : Z) :
  (0 <= n)%Z ->
  str n <> "" /\ all_chars isdigit (str n) = true /\ decimal (str n) = n.
Proof.
  intros Hn. destruct n as [|p|p]; [| |lia].
  { repeat split. discriminate. }
  unfold str, str_natural.
  destruct (digits_of_spec (S (N.to_nat (N.log2 (N.pos p)))) (N.pos p) "")
    as (ds & Hds & Hne & Hall & Hdec).
  - rewrite Nat2N.inj_succ, N2Nat.id.
    apply N.log2_spec. reflexivity.
  - lia.
  - rewrite Hds, OcrFacts.append_empty. auto.
Qed.

(** [int(str(n)) = n] *)
Lemma int_str (n : Z) : (0 <= n)%Z -> int (str n) = Ok n.
Proof.
  intros Hn. destruct (str_digits n Hn) as (Hne & Hall & Hdec).
  rewrite (OcrFacts.int_digits _ Hne Hall), Hdec. reflexivity.
Qed.

(** ** A line of the record read back *)

Lemma occurrences_stat_line (label : string) (n : Z) (rest : string)
    (ns : list Z) :
  (0 <= n)%Z ->
  occurrences label rest ns ->
  occurrences label ((label ++ ": +") ++ str n ++ "%" ++ rest) (n :: ns).
Proof.
  intros Hn Hrest. destruct (str_digits n Hn) as (Hne & Hall & Hdec).
  replace ((label ++ ": +") ++ str n ++ "%" ++ rest)%string
    with ((label ++ ":" ++ " " ++ "+" ++ str n ++ "%") ++ rest)%string.
  2:{ rewrite !OcrFacts.append_assoc. reflexivity. }
  apply occurrences_here; [|exact Hrest].
  rewrite <- Hdec at 2.
  apply Occurrence; auto.
Qed.

Lemma no_start_str (a : ascii) (label : string) (n : Z) :
  isdigit a = false -> isdigit (lower_char a) = false ->
  (0 <= n)%Z ->
  no_start (String a label) (str n) = true.
Proof.
  intros Ha Hla Hn. apply no_start_digits; [exact Ha|exact Hla|].
  apply (str_digits n Hn).
Qed.

End TotalsFacts.

(* ===================================================================== *)
(** * Facts about what is done to the machine *)
(* ===================================================================== *)

Module DesktopFacts.
Import Desktop DesktopSpec.
Local Open Scope Z_scope.

Lemma find_pid_some (procs : list process) (z : Z) :
  find_pid procs = Some z ->
  exists p, first_such is_maplestory procs p /\ pid p = z.
Proof.
  induction procs as [|q procs IH]; [discriminate|].
  cbn [find_pid]. destruct (is_maplestory q) eqn:E.
  - intros [= <-]. exists q. split; [|reflexivity].
    exists [], procs. split; [reflexivity|]. split; [constructor|exact E].
  - intros H. destruct (IH H) as (p & (l1 & l2 & -> & Hl1 & Hp) & Hz).
    exists p. split; [|exact Hz].
    exists (q :: l1), l2. split; [reflexivity|].
    split; [constructor; assumption|exact Hp].
Qed.

Lemma find_pid_none (procs : list process) :
  find_pid procs = None ->
  Forall (fun p => is_maplestory p = false) procs.
Proof.
  induction procs as [|q procs IH]; [constructor|].
  cbn [find_pid]. destruct (is_maplestory q) eqn:E; [discriminate|].
  intros H. constructor; [exact E|apply IH, H].
Qed.

Lemma enum_windows_from (z : Z) (ws : list window) (acc : list Z) :
  fold_left (callback z) ws acc
  = acc ++ map hwnd (List.filter (shown_by z) ws).
Proof.
  revert acc; induction ws as [|x ws IH]; intros acc.
  { cbn. rewrite app_nil_r. reflexivity. }
  cbn [fold_left List.filter]. rewrite IH. unfold callback, shown_by.
  destruct (visible x); cbn [andb]; [|reflexivity].
  destruct (owner x =? z); [|reflexivity].
  cbn [map]. rewrite <- app_assoc. reflexivity.
Qed.

Lemma filter_nil {A} (P : A -> bool) (l : list A) :
  List.filter P l = [] -> Forall (fun y => P y = false) l.
Proof.
  induction l as [|x l IH]; [constructor|].
  cbn [List.filter]. destruct (P x) eqn:E; [discriminate|].
  intros H. constructor; [exact E|apply IH, H].
Qed.

Lemma filter_head {A} (P : A -> bool) (l : list A) (x : A) (rest : list A) :
  List.filter P l = x :: rest -> first_such P l x.
Proof.
  induction l as [|y l IH]; [discriminate|].
  cbn [List.filter]. destruct (P y) eqn:E.
  - intros [= -> _]. exists [], l. split; [reflexivity|].
    split; [constructor|exact E].
  - intros H. destruct (IH H) as (l1 & l2 & -> & Hl1 & Hx).
    exists (y :: l1), l2. split; [reflexivity|].
    split; [constructor; assumption|exact Hx].
Qed.

Lemma enum_windows_nil (z : Z) (ws : list window) :
  enum_windows z ws = [] -> Forall (fun x => shown_by z x = false) ws.
Proof.
  unfold enum_windows. rewrite enum_windows_from. cbn [app].
  intros H. apply filter_nil. destruct (List.filter _ ws); [reflexivity|].
  discriminate.
Qed.

Lemma enum_windows_head (z : Z) (ws : list window) (h : Z) (hs : list Z) :
  enum_windows z ws = h :: hs ->
  exists x, first_such (shown_by z) ws x /\ hwnd x = h.
Proof.
  unfold enum_windows. rewrite enum_windows_from. cbn [app].
  destruct (List.filter (shown_by z) ws) as [|x rest] eqn:E; [discriminate|].
  intros [= <- _]. exists x. split; [|reflexivity].
  eapply filter_head, E.
Qed.

Lemma activate_cases (h : Z) (w : world) (st : dstate) :
  match activate h w st with
  | (Ok h', st') =>
      h' = h /\ calls st' = (calls st + 4)%nat
      /\ done st' = (done st ++ activation h)%list
  | (Raise e, st') =>
      exists a evs,
        done st' = (done st ++ evs ++ [Raised a e])%list
        /\ last (done st') = Some (Raised a e)
        /\ calls_of is_input evs = [] /\ is_input a = false
  end.
Proof.
  unfold activate, dbind, act, sleep, ret.
  destruct (fault w (calls st)) as [e|]; cbn [calls done].
  { exists DispatchShell, []. rewrite last_snoc. auto. }
  destruct (fault w (S (calls st))) as [e|]; cbn [calls done].
  { eexists (ShowWindow h 9), [_]. rewrite last_snoc, <- app_assoc. auto. }
  destruct (fault w (S (S (calls st)))) as [e|]; cbn [calls done].
  { eexists (SendKeys "%"), [_; _]. rewrite last_snoc, <- !app_assoc. auto. }
  destruct (fault w (S (S (S (calls st))))) as [e|]; cbn [calls done].
  { eexists (SetForegroundWindow h), [_; _; _].
    rewrite last_snoc, <- !app_assoc. auto. }
  split; [reflexivity|]. split; [lia|].
  rewrite <- !app_assoc. reflexivity.
Qed.

Lemma find_and_activate_eq (w : world) (st : dstate) :
  find_and_activate_maplestory w st =
    match find_pid (processes w) with
    | None => (Raise not_running, st)
    | Some z =>
        if z =? 0 then (Raise not_running, st)
        else match enum_windows z (windows w) with
             | [] => (Raise window_not_found, st)
             | h :: _ => activate h w st
             end
    end.
Proof.
  unfold find_and_activate_maplestory.
  destruct (find_pid (processes w)) as [z|]; [|reflexivity].
  destruct (z =? 0); [reflexivity|].
  destruct (enum_windows z (windows w)); reflexivity.
Qed.

Local Open Scope list_scope.





Local Open Scope Z_scope.

Lemma inside_iff (x_min y_min x_max y_max x y : Z) :
  inside (x_min, y_min, x_max, y_max) x y = true
  <-> x_min <= x < x_max /\ y_min <= y < y_max.
Proof.
  unfold inside. rewrite !andb_true_iff, !Z.leb_le, !Z.ltb_lt. lia.
Qed.

Lemma outside_iff (x_min y_min x_max y_max x y : Z) :
  inside (x_min, y_min, x_max, y_max) x y = false
  <-> ~ (x_min <= x < x_max /\ y_min <= y < y_max).
Proof.
  rewrite <- inside_iff. destruct (inside _ x y); split; congruence.
Qed.

Local Open Scope nat_scope.

Lemma ascii_compare_refl (c : ascii) : Ascii.compare c c = Eq.
Proof. unfold Ascii.compare. apply N.compare_refl. Qed.

Lemma string_lt_trans (a b d : string) :
  String.compare a b = Lt -> String.compare b d = Lt ->
  String.compare a d = Lt.
Proof.
  revert b d; induction a as [|x a IH]; intros [|y b] [|z d];
    cbn [String.compare]; try congruence.
  unfold Ascii.compare.
  destruct (N_of_ascii x ?= N_of_ascii y)%N eqn:Exy; [| |discriminate];
    (destruct (N_of_ascii y ?= N_of_ascii z)%N eqn:Eyz; [| |discriminate]);
    intros Hab Hbd.
  - apply N.compare_eq_iff in Exy, Eyz.
    rewrite Exy, Eyz, N.compare_refl. eapply IH; eassumption.
  - apply N.compare_eq_iff in Exy. rewrite Exy, Eyz. reflexivity.
  - apply N.compare_eq_iff in Eyz. rewrite <- Eyz, Exy. reflexivity.
  - apply N.compare_lt_iff in Exy, Eyz.
    assert (H : (N_of_ascii x ?= N_of_ascii z)%N = Lt)
      by (apply N.compare_lt_iff; eapply N.lt_trans; eassumption).
    rewrite H. reflexivity.
Qed.

Lemma string_compare_eq (a b : string) :
  String.compare a b = Eq -> a = b.
Proof. apply String.compare_eq_iff. Qed.

Lemma string_compare_refl (a : string) : String.compare a a = Eq.
Proof.
  induction a as [|c a IH]; [reflexivity|].
  cbn [String.compare]. rewrite ascii_compare_refl. exact IH.
Qed.

Lemma string_le_trans (a b d : string) :
  string_le a b -> string_le b d -> string_le a d.
Proof.
  unfold string_le, String.leb. intros Hab Hbd.
  destruct (String.compare a b) eqn:E1; [| |discriminate].
  - apply string_compare_eq in E1 as ->. exact Hbd.
  - destruct (String.compare b d) eqn:E2; [| |discriminate].
    + apply string_compare_eq in E2 as ->. rewrite E1. reflexivity.
    + rewrite (string_lt_trans a b d E1 E2). reflexivity.
Qed.

Lemma string_le_total (a b : string) : string_le a b \/ string_le b a.
Proof. apply String.leb_total. Qed.

Lemma insert_sorted_perm (x : string) (l : list string) :
  Permutation (insert_sorted x l) (x :: l).
Proof.
  induction l as [|y l IH]; [reflexivity|].
  cbn [insert_sorted]. destruct (String.leb x y); [reflexivity|].
  rewrite IH. apply perm_swap.
Qed.

Lemma sorted_perm (l : list string) : Permutation (sorted l) l.
Proof.
  induction l as [|x l IH]; [reflexivity|].
  cbn [sorted fold_right]. fold (sorted l).
  rewrite insert_sorted_perm, IH. reflexivity.
Qed.

Lemma insert_sorted_sorted (x : string) (l : list string) :
  StronglySorted string_le l -> StronglySorted string_le (insert_sorted x l).
Proof.
  induction 1 as [|y l Hl IH Hy]; cbn [insert_sorted].
  { repeat constructor. }
  destruct (String.leb x y) eqn:E.
  - constructor; [constructor; assumption|].
    constructor; [exact E|].
    eapply Forall_impl; [exact Hy|].
    intros z Hz. eapply string_le_trans; [exact E|exact Hz].
  - constructor; [exact IH|].
    rewrite (insert_sorted_perm x l). constructor; [|exact Hy].
    destruct (string_le_total x y) as [H|H]; [|exact H].
    unfold string_le in H. congruence.
Qed.

Lemma sorted_sorted (l : list string) : StronglySorted string_le (sorted l).
Proof.
  induction l as [|x l IH]; [constructor|].
  cbn [sorted fold_right]. apply insert_sorted_sorted, IH.
Qed.

Lemma remove_each_spec (paths : list string) (w : world) (st : dstate) :
  exists st' evs,
    remove_each paths w st = (Ok tt, st')
    /\ done st' = (done st ++ evs)%list
    /\ attempts evs = map Remove paths
    /\ ((forall k, fault w k = None) -> successes evs = map Remove paths).
Proof.
  revert st; induction paths as [|p paths IH]; intros st.
  { exists st, []. cbn. rewrite app_nil_r. auto. }
  cbn [remove_each]. unfold dbind, try_catch, act, print_error.
  destruct (fault w (calls st)) as [e|] eqn:Hf.
  - match goal with |- context [remove_each paths w ?s] =>
      destruct (IH s) as (st' & evs & -> & Hd & Ha & Hs)
    end.
    cbn [calls done] in Hd.
    exists st', (Raised (Remove p) e :: Printed e :: evs).
    split; [reflexivity|]. split.
    { rewrite Hd, <- !app_assoc. reflexivity. }
    split.
    { cbn [attempts map]. rewrite Ha. reflexivity. }
    intros Hnone. rewrite Hnone in Hf. discriminate.
  - match goal with |- context [remove_each paths w ?s] =>
      destruct (IH s) as (st' & evs & -> & Hd & Ha & Hs)
    end.
    cbn [calls done] in Hd.
    exists st', (Did (Remove p) :: evs).
    split; [reflexivity|]. split.
    { rewrite Hd, <- !app_assoc. reflexivity. }
    split.
    { cbn [attempts map]. rewrite Ha. reflexivity. }
    intros Hnone. cbn [successes map]. rewrite (Hs Hnone). reflexivity.
Qed.




End DesktopFacts.

(* ===================================================================== *)
(** * The claims *)
(* ===================================================================== *)

(** ** Stuck detector *)

(** C1.  The stuck detector signals stuck exactly when the history holds
    exactly three entries and all three are the same string: it never
    raises; three identical strings are stuck; three strings of which
    two differ are not; a history shorter than three never is.  When the
    detector signals stuck after a sample was appended, the loop stops
    as [Stuck]: whatever fuel is left, no further sample is taken and no
    retry action is invoked. *)
Theorem C1_stuck_detector :
  (forall h,
     Keyword.unchanged_for_3_tries h = Ok true <-> exists s, h = [s; s; s])
  /\ (forall h, exists b, Keyword.unchanged_for_3_tries h = Ok b)
  /\ (forall a b c,
        ~ (a = b /\ b = c) ->
        Keyword.unchanged_for_3_tries [a; b; c] = Ok false)
  /\ (forall h,
        length h < 3 -> Keyword.unchanged_for_3_tries h = Ok false)
  /\ (forall max_mode w st text fuel,
        stop_key w (polls st) = false ->
        region_text w (samples st) = Ok text ->
        Keyword.unchanged_for_3_tries
          (Keyword.remember (text_history st) text) = Ok true ->
        exists st',
          while_true (S fuel) (Keyword.loop_body max_mode) w st
          = (Ok (Some Stuck), st')
          /\ samples st' = S (samples st)
          /\ rerolls st' = rerolls st
          /\ text_history st' = [text; text; text]
          /\ last (trace st') = Some (Logged (TextUnchanged text))).
Proof.
  split; [exact KeywordFacts.unchanged_iff|].
  split; [exact KeywordFacts.unchanged_total|].
  split; [|split].
  - intros a b c Hne.
    destruct (KeywordFacts.unchanged_total [a; b; c]) as [[] H]; [|exact H].
    apply KeywordFacts.unchanged_iff in H as [s [= -> -> ->]].
    destruct Hne. split; reflexivity.
  - intros h Hlen.
    destruct (KeywordFacts.unchanged_total h) as [[] H]; [|exact H].
    apply KeywordFacts.unchanged_iff in H as [s ->]. simpl in Hlen. lia.
  - intros max_mode w st text fuel Hkey Htext Hstuck.
    cbn [while_true]. unfold mbind at 1.
    rewrite KeywordFacts.keyword_body_eq, Hkey, Htext. cbn zeta.
    unfold stuck. rewrite Hstuck.
    eexists. split; [reflexivity|]. cbn [after samples rerolls text_history trace].
    apply KeywordFacts.unchanged_iff in Hstuck as [s Hs].
    repeat split.
    + rewrite Hs.
      destruct (KeywordFacts.remember_snoc (text_history st) text) as [h' Hh].
      rewrite Hs in Hh.
      destruct h' as [|x1 [|x2 [|x3 h']]]; try discriminate.
      * injection Hh as -> -> ->. reflexivity.
      * destruct h'; discriminate.
    + rewrite app_assoc. apply last_snoc.
Qed.

(** The third identical sample in a row stops the keyword loop. *)
Lemma C1_witness :
  exists st',
    while_true 5 (Keyword.loop_body false) (steady_screen "same")
      (with_history ["same"; "same"])
    = (Ok (Some Stuck), st')
    /\ samples st' = 1
    /\ rerolls st' = 0
    /\ text_history st' = ["same"; "same"; "same"]
    /\ last (trace st') = Some (Logged (TextUnchanged "same")).
Proof.
  apply (proj2 (proj2 (proj2 (proj2 C1_stuck_detector))) false
           (steady_screen "same") (with_history ["same"; "same"]) "same" 4);
    reflexivity.
Defined.

(** ** History *)

(** C9.  The raw-text history is a bounded queue that keeps the order of
    arrival: after any number of iterations of the keyword loop, however
    the run went, it holds the last three texts sampled so far (all of
    them while there are fewer), oldest first, so its length never
    exceeds 3; one iteration that produces a sample appends the text and
    drops the oldest entry beyond three, and an iteration that produces
    none leaves the history as it was. *)
Theorem C9_history_bounded_fifo :
  (forall fuel max_mode w,
     let st := snd (Keyword.run fuel max_mode w) in
     length (text_history st) <= 3
     /\ text_history st = last_n 3 (sampled_texts (trace st)))
  /\ (forall h x,
        length h <= 3 ->
        length (Keyword.remember h x) <= 3
        /\ Keyword.remember h x = last_n 3 (h ++ [x]))
  /\ (forall max_mode w st,
        stop_key w (polls st) = false ->
        text_history (snd (Keyword.loop_body max_mode w st))
        = match region_text w (samples st) with
          | Ok text => Keyword.remember (text_history st) text
          | Raise _ => text_history st
          end).
Proof.
  split; [|split].
  - intros fuel max_mode w st.
    pose proof (KeywordFacts.run_fifo fuel max_mode w) as H.
    fold st in H. unfold fifo in H. split; [|exact H].
    rewrite H. apply last_n_length.
  - intros h x Hlen. split; [apply KeywordFacts.remember_length, Hlen|].
    unfold Keyword.remember, last_n. rewrite length_app; simpl.
    destruct (3 <? length h + 1)%nat eqn:E.
    + apply Nat.ltb_lt in E. f_equal. lia.
    + apply Nat.ltb_ge in E.
      replace (length h + 1 - 3)%nat with 0%nat by lia. reflexivity.
  - intros max_mode w st Hkey.
    rewrite KeywordFacts.keyword_body_eq, Hkey.
    destruct (region_text w (samples st)) as [text|e]; cbn zeta.
    + destruct (stuck (Keyword.remember (text_history st) text));
        [reflexivity|].
      destruct (goal_reached max_mode (scanned text)); [reflexivity|].
      rewrite (proj1 (KeywordFacts.reroll_and_wait_frame w _)). reflexivity.
    + rewrite (proj1 (KeywordFacts.reroll_and_wait_frame w _)). reflexivity.
Qed.

(** Five different texts pass through a history that already holds
    three: the oldest entry goes, the new text comes last. *)
Lemma C9_witness :
  length (Keyword.remember ["a"; "b"; "c"] "d") <= 3
  /\ Keyword.remember ["a"; "b"; "c"] "d" = last_n 3 (["a"; "b"; "c"] ++ ["d"]).
Proof.
  apply (proj1 (proj2 C9_history_bounded_fifo) ["a"; "b"; "c"] "d").
  simpl. lia.
Defined.

(** ** Goal of the keyword policy *)

(** C4.  In an iteration of the keyword loop whose sample does not
    trigger the stuck detector, the run ends as [Succeeded] if and only
    if the prime-line count, the number of the two labels ("item drop",
    "mesos") that occur in the lower-cased raw text, reaches the
    threshold, 1 in standard operation and 2 in max mode; the count does
    not look at the numbers the extractors found.  Otherwise the retry
    action is invoked and the loop waits out the sliced delay. *)
Theorem C4_keyword_goal (max_mode : bool) (w : env) (st : state)
    (text : string) :
  stop_key w (polls st) = false ->
  region_text w (samples st) = Ok text ->
  Keyword.unchanged_for_3_tries (Keyword.remember (text_history st) text)
  = Ok false ->
  (fst (Keyword.loop_body max_mode w st) = Ok (Stop Succeeded)
   <-> threshold max_mode <= prime_line_count text)
  /\ (threshold max_mode <= prime_line_count text ->
      forall fuel,
        fst (while_true (S fuel) (Keyword.loop_body max_mode) w st)
        = Ok (Some Succeeded)
        /\ rerolls (snd (while_true (S fuel) (Keyword.loop_body max_mode) w st))
           = rerolls st)
  /\ (prime_line_count text < threshold max_mode ->
      Keyword.loop_body max_mode w st
      = Keyword.reroll_and_wait w
          (after st (S (polls st)) (S (samples st)) (rerolls st)
             [StopKey false; Sample (Ok text); scan_entry text]
             (Keyword.remember (text_history st) text))
      /\ rerolls (snd (Keyword.loop_body max_mode w st)) = S (rerolls st)).
Proof.
  intros Hkey Htext Hstuck.
  assert (Hbody :
    Keyword.loop_body max_mode w st =
      if (threshold max_mode <=? prime_line_count text)%nat
      then (Ok (Stop Succeeded),
            after st (S (polls st)) (S (samples st)) (rerolls st)
              ([StopKey false; Sample (Ok text); scan_entry text]
               ++ [success_entry max_mode text])
              (Keyword.remember (text_history st) text))
      else Keyword.reroll_and_wait w
             (after st (S (polls st)) (S (samples st)) (rerolls st)
                [StopKey false; Sample (Ok text); scan_entry text]
                (Keyword.remember (text_history st) text))).
  { rewrite KeywordFacts.keyword_body_eq, Hkey, Htext. cbn zeta.
    unfold stuck. rewrite Hstuck.
    rewrite KeywordFacts.goal_reached_threshold. reflexivity. }
  assert (Hretry : forall st1,
    fst (Keyword.reroll_and_wait w st1) <> Ok (Stop Succeeded)
    /\ rerolls (snd (Keyword.reroll_and_wait w st1)) = S (rerolls st1)).
  { intros st1. rewrite KeywordFacts.reroll_and_wait_eq.
    destruct (retry_action w (rerolls st1)) as [[]|e]; simpl;
      [destruct (delay_pressed w Keyword.split_delay (polls st1))|];
      split; (discriminate || reflexivity). }
  destruct (threshold max_mode <=? prime_line_count text)%nat eqn:E.
  - apply Nat.leb_le in E. split; [|split].
    + rewrite Hbody. split; [intros _; exact E|reflexivity].
    + intros _ fuel. cbn [while_true]. unfold mbind.
      rewrite Hbody. split; reflexivity.
    + intros Hlt. lia.
  - apply Nat.leb_gt in E. split; [|split].
    + rewrite Hbody. split; [|lia].
      intros H. destruct (proj1 (Hretry _) H).
    + intros Hle. lia.
    + intros _. rewrite Hbody. split; [reflexivity|].
      rewrite (proj2 (Hretry _)). reflexivity.
Qed.

(** The label alone is a prime line: no number is needed. *)
Lemma C4_witness :
  (fst (Keyword.loop_body false (steady_screen "MESOS ???") initial)
   = Ok (Stop Succeeded)
   <-> threshold false <= prime_line_count "MESOS ???")
  /\ (threshold false <= prime_line_count "MESOS ???" ->
      forall fuel,
        fst (while_true (S fuel) (Keyword.loop_body false)
               (steady_screen "MESOS ???") initial)
        = Ok (Some Succeeded)
        /\ rerolls (snd (while_true (S fuel) (Keyword.loop_body false)
                           (steady_screen "MESOS ???") initial))
           = rerolls initial)
  /\ (prime_line_count "MESOS ???" < threshold false ->
      Keyword.loop_body false (steady_screen "MESOS ???") initial
      = Keyword.reroll_and_wait (steady_screen "MESOS ???")
          (after initial (S (polls initial)) (S (samples initial))
             (rerolls initial)
             [StopKey false; Sample (Ok "MESOS ???"); scan_entry "MESOS ???"]
             (Keyword.remember (text_history initial) "MESOS ???"))
      /\ rerolls (snd (Keyword.loop_body false (steady_screen "MESOS ???")
                         initial))
         = S (rerolls initial)).
Proof.
  apply (C4_keyword_goal false (steady_screen "MESOS ???") initial "MESOS ???");
    reflexivity.
Defined.

(** ** Scorer *)



(** C10.  Whatever the text and the two configured attribute names, the
    comparative parser returns stats whose field [magic_attack] is 0: no
    line contributes to it.  The flame score does not read the field:
    changing it in any stats dictionary leaves the score as it was. *)
Theorem C10_magic_attack :
  (forall MAIN_STAT SECONDARY_STAT text,
     exists stats,
       Comparative.stats_of_text MAIN_STAT SECONDARY_STAT text = Ok stats
       /\ stats !! "magic_attack" = Some 0%Z)
  /\ (forall MAIN_STAT SECONDARY_STAT line,
        contribution MAIN_STAT SECONDARY_STAT "magic_attack" line = None)
  /\ (forall (stats : gmap string Z) (v : Z),
        Comparative.calculate_flame_score (<["magic_attack" := v]> stats)
        = Comparative.calculate_flame_score stats).
Proof.
  split; [|split].
  - intros MAIN SEC text.
    destruct (ComparativeFacts.stats_of_text_ok MAIN SEC text) as (stats & Hs & Hk).
    exists stats. split; [exact Hs|]. rewrite Hk.
    rewrite (ComparativeFacts.latest_none MAIN SEC "magic_attack").
    + reflexivity.
    + apply Forall_forall. intros line _. reflexivity.
  - reflexivity.
  - exact ComparativeFacts.score_ignores_magic_attack.
Qed.

(** ** Comparative-mode parser *)

(** C6.  The comparative-mode parser never raises, and the value it
    returns for a field is the contribution of the last line that
    contributes to the field, or the default 0 when no line does; a line
    contributes to a field when the label of the field is on the line
    and the text after the first plus sign of the normalized line (for
    "All Stats" with the per cent signs removed) is an integer, and then
    it contributes that integer.  So a later line overwrites an earlier
    one, a line whose integer is missing or unreadable leaves the field
    as it was, and of two lines with the same label and two integers the
    second wins. *)
Theorem C6_last_match_wins (MAIN_STAT SECONDARY_STAT : string) :
  (forall text,
     exists stats,
       Comparative.stats_of_text MAIN_STAT SECONDARY_STAT text = Ok stats
       /\ forall key,
            stats !! key
            = latest MAIN_STAT SECONDARY_STAT key (split newline text)
                (Comparative.initial_stats !! key))
  /\ (forall stats line,
        Comparative.parse_line MAIN_STAT SECONDARY_STAT stats line
        = Ok (parsed_line MAIN_STAT SECONDARY_STAT stats line)
        /\ forall key,
             parsed_line MAIN_STAT SECONDARY_STAT stats line !! key
             = match contribution MAIN_STAT SECONDARY_STAT key line with
               | Some n => Some n
               | None => stats !! key
               end)
  /\ (forall key earlier line later n before,
        contribution MAIN_STAT SECONDARY_STAT key line = Some n ->
        Forall
          (fun l => contribution MAIN_STAT SECONDARY_STAT key l = None) later ->
        latest MAIN_STAT SECONDARY_STAT key (earlier ++ line :: later) before
        = Some n)
  /\ (forall key lines before,
        Forall
          (fun l => contribution MAIN_STAT SECONDARY_STAT key l = None) lines ->
        latest MAIN_STAT SECONDARY_STAT key lines before = before)
  /\ (forall key first second n1 n2,
        free_of newline first ->
        free_of newline second ->
        contribution MAIN_STAT SECONDARY_STAT key first = Some n1 ->
        contribution MAIN_STAT SECONDARY_STAT key second = Some n2 ->
        exists stats,
          Comparative.stats_of_text MAIN_STAT SECONDARY_STAT
            (first ++ String newline second)%string = Ok stats
          /\ stats !! key = Some n2).
Proof.
  unfold newline.
  split; [exact (ComparativeFacts.stats_of_text_ok MAIN_STAT SECONDARY_STAT)|].
  split; [|split; [|split]].
  - intros stats line.
    split; [apply ComparativeFacts.parse_line_ok|].
    intros key. apply ComparativeFacts.lookup_parsed_line.
  - intros key earlier line later n before.
    apply ComparativeFacts.latest_last.
  - intros key lines before. apply ComparativeFacts.latest_none.
  - intros key first second n1 n2 Hfirst Hsecond H1 H2.
    destruct (ComparativeFacts.stats_of_text_ok MAIN_STAT SECONDARY_STAT
                (first ++ String "010" second)%string) as (stats & Hs & Hk).
    exists stats. split; [exact Hs|].
    rewrite Hk.
    rewrite (ComparativeFacts.split_app _ first second Hfirst).
    rewrite (ComparativeFacts.split_free _ second Hsecond).
    apply (ComparativeFacts.latest_last MAIN_STAT SECONDARY_STAT key
             [first] [] second n2 _ H2).
    constructor.
Qed.

(** Two lines with the label DEX: the integer of the second is the
    value of the field. *)
Lemma C6_witness :
  exists stats,
    Comparative.stats_of_text "DEX" "STR"
      ("DEX  +  12" ++ String newline "DEX: +7")%string = Ok stats
    /\ stats !! "main_stat" = Some 7%Z.
Proof.
  apply (proj2 (proj2 (proj2 (proj2 (C6_last_match_wins "DEX" "STR"))))
           "main_stat" "DEX  +  12" "DEX: +7" 12%Z 7%Z);
    reflexivity.
Defined.

(** ** Decision of the comparative policy *)




(** ** Failures during sampling *)

(** C7, policy by policy.  In the keyword policy a failure raised
    while sampling is caught inside the sampling step and printed, and
    the iteration goes on without a sample: the history is left alone,
    the stuck and goal checks are passed over, the retry action is
    invoked and, when it succeeds and the stop key stays up during the
    delay, the loop goes round again.  In the comparative policy a
    failure raised while sampling (either of the two regions) is caught
    only by the handler around the whole loop: it is printed and the
    run ends as [Failed], with no retry action and no further
    iteration. *)
Theorem C7_sampling_failure :
  (forall max_mode w st e,
     stop_key w (polls st) = false ->
     region_text w (samples st) = Raise e ->
     let body := Keyword.loop_body max_mode in
     body w st
     = Keyword.reroll_and_wait w
         (after st (S (polls st)) (S (samples st)) (rerolls st)
            [StopKey false; Sample (Raise e); ErrorPrinted e]
            (text_history st))
     /\ text_history (snd (body w st)) = text_history st
     /\ (retry_action w (rerolls st) = Ok tt ->
         delay_pressed w Keyword.split_delay (S (polls st)) = false ->
         fst (body w st) = Ok Again
         /\ forall fuel,
              while_true (S fuel) body w st
              = while_true fuel body w (snd (body w st))))
  /\ (forall MAIN_STAT SECONDARY_STAT w st e fuel,
        window_at_start w = Ok tt ->
        stop_key w (polls st) = false ->
        region_text w (samples st) = Raise e
        \/ (exists before,
              region_text w (samples st) = Ok before
              /\ region_text w (S (samples st)) = Raise e) ->
        let run := Comparative.main MAIN_STAT SECONDARY_STAT (S fuel) w st in
        fst run = Ok (Some (Failed e))
        /\ last (trace (snd run)) = Some (ErrorPrinted e)
        /\ rerolls (snd run) = rerolls st
        /\ polls (snd run) = S (polls st)).
Proof.
  split.
  - intros max_mode w st e Hkey Hfail body. subst body.
    assert (Hbody :
      Keyword.loop_body max_mode w st
      = Keyword.reroll_and_wait w
          (after st (S (polls st)) (S (samples st)) (rerolls st)
             [StopKey false; Sample (Raise e); ErrorPrinted e]
             (text_history st))).
    { rewrite KeywordFacts.keyword_body_eq, Hkey, Hfail. reflexivity. }
    split; [exact Hbody|]. split.
    + rewrite Hbody.
      rewrite (proj1 (KeywordFacts.reroll_and_wait_frame w _)). reflexivity.
    + intros Hretry Hdelay.
      assert (Hfst : fst (Keyword.loop_body max_mode w st) = Ok Again).
      { rewrite Hbody, KeywordFacts.reroll_and_wait_eq.
        cbn [after rerolls polls]. rewrite Hretry, Hdelay. reflexivity. }
      split; [exact Hfst|].
      intros fuel. cbn [while_true]. unfold mbind.
      destruct (Keyword.loop_body max_mode w st) as [r st']; simpl in *.
      rewrite Hfst. reflexivity.
  - intros MAIN SEC w st e fuel Hwin Hkey Hfail run. subst run.
    unfold Comparative.main, try_catch, mbind, get_window_at_start.
    rewrite Hwin. cbn [while_true]. unfold mbind.
    rewrite ComparativeFacts.comparative_body_eq, Hkey.
    destruct Hfail as [Hfail|(before & Hbefore & Hfail)].
    + rewrite Hfail. unfold print_error, ret, emit, after; simpl.
      repeat split. apply last_snoc.
    + rewrite Hbefore, Hfail. unfold print_error, ret, emit, after; simpl.
      repeat split. apply last_snoc.
Qed.

(** The keyword loop goes round again after a sampling that failed. *)
Lemma C7_witness :
  let body := Keyword.loop_body false in
  let w := screen_failing_once window_lost "nothing" in
  body w initial
  = Keyword.reroll_and_wait w
      (after initial (S (polls initial)) (S (samples initial))
         (rerolls initial)
         [StopKey false; Sample (Raise window_lost); ErrorPrinted window_lost]
         (text_history initial))
  /\ text_history (snd (body w initial)) = text_history initial
  /\ (retry_action w (rerolls initial) = Ok tt ->
      delay_pressed w Keyword.split_delay (S (polls initial)) = false ->
      fst (body w initial) = Ok Again
      /\ forall fuel,
           while_true (S fuel) body w initial
           = while_true fuel body w (snd (body w initial))).
Proof.
  apply (proj1 C7_sampling_failure false
           (screen_failing_once window_lost "nothing") initial window_lost);
    reflexivity.
Defined.

(** C7 for both policies alike fails in the comparative policy: the
    first sampling raises, the screen would be readable again at the
    next one, and there is fuel for five iterations; the run ends as
    [Failed] after one poll and one sampling, and nothing is sampled
    again. *)
Lemma C7_counterexample :
  fst (Comparative.run "DEX" "STR" 5 (screen_failing_once window_lost "DEX +5"))
  = Ok (Some (Failed window_lost))
  /\ trace (snd (Comparative.run "DEX" "STR" 5
                   (screen_failing_once window_lost "DEX +5")))
     = [StopKey false; Sample (Raise window_lost); ErrorPrinted window_lost]
  /\ samples (snd (Comparative.run "DEX" "STR" 5
                     (screen_failing_once window_lost "DEX +5"))) = 1.
Proof. repeat split; vm_compute; reflexivity. Qed.

(** ** Cancellation and the sliced delay *)

(** C8.  In both policies the delay between attempts is cut into 4
    equal slices, and in the trace of every run, however long and
    whatever the environment does: a sleep lasts one slice, comes
    directly after a poll of the stop key that found it up and is
    directly followed by the next poll (the one of the next slice or,
    after the last slice, the one at the entry of the loop), so the loop
    never sleeps for more than one slice between two polls; a retry
    action that succeeded is followed by such a delay of 4 slices; a
    poll that finds the stop key down is the last thing that happens,
    and the outcome is then, and only then, [Cancelled]; and every
    iteration of either loop starts with a poll, and stops as
    [Cancelled] at once when that poll finds the key down. *)
Theorem C8_cancellation_polled_every_slice :
  (4 * Keyword.split_time == Keyword.reroll_delay
   /\ 4 * Comparative.split_time == Comparative.REROLL_DELAY
   /\ Keyword.split_delay = 4 /\ Comparative.SPLIT_DELAY = 4)
  /\ (forall fuel max_mode w,
        well_paced 4 Keyword.split_time (Keyword.run fuel max_mode w))
  /\ (forall MAIN_STAT SECONDARY_STAT fuel w,
        well_paced 4 Comparative.split_time
          (Comparative.run MAIN_STAT SECONDARY_STAT fuel w))
  /\ (forall max_mode w st,
        polled_at_entry (Keyword.loop_body max_mode) w st)
  /\ (forall MAIN_STAT SECONDARY_STAT w st,
        polled_at_entry (Comparative.loop_body MAIN_STAT SECONDARY_STAT) w st).
Proof.
  split; [|split; [|split; [|split]]].
  4:{ intros max_mode w st. unfold polled_at_entry.
      rewrite KeywordFacts.keyword_body_eq.
      destruct (stop_key w (polls st)).
      { split; [intros _; reflexivity|]. exists []. reflexivity. }
      split; [discriminate|].
      destruct (region_text w (samples st)) as [text|e]; cbn zeta.
      - destruct (stuck (Keyword.remember (text_history st) text));
          [eexists; reflexivity|].
        destruct (goal_reached max_mode (scanned text));
          [eexists; reflexivity|].
        rewrite KeywordFacts.reroll_and_wait_eq.
        destruct (retry_action w _) as [[]|e]; simpl;
          rewrite <- app_assoc; eexists; reflexivity.
      - rewrite KeywordFacts.reroll_and_wait_eq.
        destruct (retry_action w _) as [[]|e']; simpl;
          rewrite <- app_assoc; eexists; reflexivity. }
  4:{ intros MAIN SEC w st. unfold polled_at_entry.
      rewrite ComparativeFacts.comparative_body_eq.
      destruct (stop_key w (polls st)).
      { split; [intros _; reflexivity|]. exists []. reflexivity. }
      split; [discriminate|].
      destruct (region_text w (samples st)) as [before|e];
        [|eexists; reflexivity].
      destruct (region_text w (S (samples st))) as [later|e];
        [|eexists; reflexivity].
      cbn zeta.
      destruct (stop_key w (S (polls st))); [eexists; reflexivity|].
      destruct (Comparative.float_lt _ _); [|eexists; reflexivity].
      destruct (retry_action w (rerolls st)) as [[]|e];
        eexists; reflexivity. }
  - repeat split; reflexivity.
  - intros fuel max_mode w.
    pose proof (KeywordFacts.keyword_run_paced fuel max_mode w) as H.
    apply paced_well_paced in H.
    destruct (Keyword.run fuel max_mode w) as [r st]. exact H.
  - intros MAIN SEC fuel w.
    pose proof (ComparativeFacts.comparative_run_paced MAIN SEC fuel w) as H.
    apply paced_well_paced in H.
    destruct (Comparative.run MAIN SEC fuel w) as [r st]. exact H.
Qed.

(** A run of the keyword loop on a screen that never shows a keyword:
    the first sleep of the first delay is the sixth event; it lasts a
    quarter of a second, follows a poll and is followed by one. *)
Lemma C8_witness :
  (1 # 4) == Keyword.split_time
  /\ (exists j,
        5 = S j
        /\ trace (snd (Keyword.run 2 false (steady_screen "nothing"))) !! j
           = Some (StopKey false))
  /\ (trace (snd (Keyword.run 2 false (steady_screen "nothing"))) !! 6 = None
      \/ exists b,
           trace (snd (Keyword.run 2 false (steady_screen "nothing"))) !! 6
           = Some (StopKey b)).
Proof.
  apply (proj1 (proj1 (proj2 C8_cancellation_polled_every_slice)
                  2 false (steady_screen "nothing")) 5 (1 # 4)).
  reflexivity.
Defined.

(** ** Totals of the keyword-mode parser *)

(** C5.  For every text and for each of the two categories, the
    keyword-mode extractor returns, without raising, the sum of the
    integers of the occurrences of
    [<label> [optional colon] [white space] [optional '+'] <integer> %]
    (the label read without regard to case) that are met when the text
    is read from the left, an occurrence being passed over as a whole so
    that occurrences do not overlap, and anything else character by
    character; a text without occurrences gives 0. *)
Theorem C5_keyword_totals (text : string) :
  (exists ns, occurrences "Item Drop Rate" text ns)
  /\ (forall ns,
        occurrences "Item Drop Rate" text ns ->
        extract_item_drop_rate text = Ok (sum ns))
  /\ (occurrences "Item Drop Rate" text [] ->
      extract_item_drop_rate text = Ok 0%Z)
  /\ (exists ns, occurrences "Mesos Obtained" text ns)
  /\ (forall ns,
        occurrences "Mesos Obtained" text ns ->
        extract_mesos_obtained text = Ok (sum ns))
  /\ (occurrences "Mesos Obtained" text [] ->
      extract_mesos_obtained text = Ok 0%Z).
Proof.
  split; [apply OcrFacts.occurrences_exist|].
  split; [exact (OcrFacts.extracted_occurrences "Item Drop Rate" text)|].
  split; [exact (OcrFacts.extracted_occurrences "Item Drop Rate" text [])|].
  split; [apply OcrFacts.occurrences_exist|].
  split; [exact (OcrFacts.extracted_occurrences "Mesos Obtained" text)|].
  exact (OcrFacts.extracted_occurrences "Mesos Obtained" text []).
Qed.

Lemma C5_witness :
  extract_item_drop_rate two_drop_rate_lines = Ok (sum [12; 7]%Z).
Proof.
  apply (proj1 (proj2 (C5_keyword_totals two_drop_rate_lines))).
  repeat first
    [ apply occurrences_end
    | apply OcrFacts.occurrences_skip_at; [vm_compute; reflexivity|]
    | eapply OcrFacts.occurrences_here_at;
        [vm_compute; reflexivity|vm_compute; reflexivity|] ].
Defined.

(* ===================================================================== *)
(** * Further properties of the two loops *)
(* ===================================================================== *)

(** ** A run that ends as stuck *)

(** X1.  A run of the keyword loop on a screen that shows the same text
    three times, a text that does not reach the goal, with the stop key
    up and a retry action that succeeds: the first two iterations retry,
    the third finds the three remembered texts identical and ends the
    run as [Stuck]; three samples were taken and two retry actions
    invoked, whatever the screen would have shown next and however much
    fuel is left. *)
Theorem X1_three_identical_samples_stuck (max_mode : bool)
    (text later : string) (fuel : nat) :
  prime_line_count text < threshold max_mode ->
  let run :=
    Keyword.run (3 + fuel) max_mode (scripted_screen [text; text; text] later)
  in
  fst run = Ok (Some Stuck)
  /\ samples (snd run) = 3
  /\ rerolls (snd run) = 2
  /\ text_history (snd run) = [text; text; text].
Proof.
  intros Hgoal run. subst run.
  set (w := scripted_screen [text; text; text] later).
  assert (Hkey : forall k, stop_key w k = false) by reflexivity.
  assert (Hretry : forall k, retry_action w k = Ok tt) by reflexivity.
  unfold Keyword.run, Keyword.main, mbind, set_text_history, try_catch,
    get_window_at_start.
  change (window_at_start w) with (@Ok unit tt).
  cbn [initial polls samples rerolls trace].
  change (3 + fuel) with (S (S (S fuel))).
  change (State 0 0 0 [] []) with initial.
  destruct (KeywordFacts.keyword_body_retry max_mode w initial text
              Hkey Hretry eq_refl)
    as (st1 & H1 & Hs1 & Hh1); [reflexivity|exact Hgoal|].
  destruct (KeywordFacts.keyword_body_retry max_mode w st1 text Hkey Hretry)
    as (st2 & H2 & Hs2 & Hh2);
    [rewrite Hs1; reflexivity| |exact Hgoal|].
  { rewrite Hh1. reflexivity. }
  assert (Hr1 : rerolls st1 = 1).
  { pose proof (f_equal snd H1) as E. cbn [snd] in E. subst st1.
    rewrite KeywordFacts.keyword_body_eq, Hkey.
    change (region_text w (samples initial)) with (@Ok string text).
    cbn zeta.
    change (stuck (Keyword.remember (text_history initial) text)) with false.
    cbv iota.
    destruct (goal_reached max_mode (scanned text)) eqn:G.
    - rewrite KeywordFacts.goal_reached_threshold in G.
      apply Nat.leb_le in G. lia.
    - rewrite KeywordFacts.reroll_and_wait_eq, Hretry.
      rewrite (never_pressed w _ _ Hkey). reflexivity. }
  cbn [while_true]. unfold mbind. rewrite H1.
  cbn [while_true]. unfold mbind. rewrite H2.
  cbn [while_true]. unfold mbind.
  assert (Hr2 : rerolls st2 = 2).
  { pose proof (f_equal snd H2) as E. cbn [snd] in E. subst st2.
    rewrite KeywordFacts.keyword_body_eq, Hkey.
    replace (region_text w (samples st1)) with (@Ok string text)
      by (rewrite Hs1; reflexivity).
    cbn zeta. rewrite Hh1.
    change (stuck (Keyword.remember
                     (Keyword.remember (text_history initial) text) text))
      with false.
    cbv iota.
    destruct (goal_reached max_mode (scanned text)) eqn:G.
    - rewrite KeywordFacts.goal_reached_threshold in G.
      apply Nat.leb_le in G. lia.
    - rewrite KeywordFacts.reroll_and_wait_eq, Hretry.
      rewrite (never_pressed w _ _ Hkey). cbn [snd after rerolls].
      rewrite Hr1. reflexivity. }
  rewrite KeywordFacts.keyword_body_eq, Hkey.
  replace (region_text w (samples st2)) with (@Ok string text)
    by (rewrite Hs2, Hs1; reflexivity).
  cbn zeta. rewrite Hh2, Hh1.
  replace (stuck (Keyword.remember
                    (Keyword.remember
                       (Keyword.remember (text_history initial) text) text)
                    text))
    with true.
  2:{ unfold stuck, Keyword.remember, Keyword.unchanged_for_3_tries, getitem;
        simpl.
      rewrite !String.eqb_refl. reflexivity. }
  cbn [fst snd after samples rerolls text_history]. rewrite Hs2, Hs1, Hr2.
  repeat split.
Qed.

(** A screen stuck on a text without keywords. *)
Lemma X1_witness :
  let run :=
    Keyword.run (3 + 4) false
      (scripted_screen ["nothing"; "nothing"; "nothing"] "Item Drop Rate +5%")
  in
  fst run = Ok (Some Stuck)
  /\ samples (snd run) = 3
  /\ rerolls (snd run) = 2
  /\ text_history (snd run) = ["nothing"; "nothing"; "nothing"].
Proof.
  apply (X1_three_identical_samples_stuck false "nothing"
           "Item Drop Rate +5%" 4).
  vm_compute. lia.
Defined.

(** ** Scoring what the parser returns *)


(** ** A window that is not found *)

(** X3.  When the lookup of the game window at the start of a run
    raises, either policy prints the error and ends the run as [Failed]:
    the stop key is not polled, nothing is sampled and no retry action
    is invoked. *)
Theorem X3_window_not_found (w : env) (e : exn) :
  window_at_start w = Raise e ->
  (forall fuel max_mode,
     Keyword.run fuel max_mode w
     = (Ok (Some (Failed e)), State 0 0 0 [ErrorPrinted e] []))
  /\ (forall MAIN_STAT SECONDARY_STAT fuel,
        Comparative.run MAIN_STAT SECONDARY_STAT fuel w
        = (Ok (Some (Failed e)), State 0 0 0 [ErrorPrinted e] [])).
Proof.
  intros Hwin. split.
  - intros fuel max_mode.
    unfold Keyword.run, Keyword.main, mbind, set_text_history, try_catch,
      get_window_at_start.
    rewrite Hwin. reflexivity.
  - intros MAIN SEC fuel.
    unfold Comparative.run, Comparative.main, mbind, try_catch,
      get_window_at_start.
    rewrite Hwin. reflexivity.
Qed.

Lemma X3_witness :
  (forall fuel max_mode,
     Keyword.run fuel max_mode (without_window window_lost)
     = (Ok (Some (Failed window_lost)),
        State 0 0 0 [ErrorPrinted window_lost] []))
  /\ (forall MAIN_STAT SECONDARY_STAT fuel,
        Comparative.run MAIN_STAT SECONDARY_STAT fuel
          (without_window window_lost)
        = (Ok (Some (Failed window_lost)),
           State 0 0 0 [ErrorPrinted window_lost] [])).
Proof.
  apply (X3_window_not_found (without_window window_lost) window_lost).
  reflexivity.
Defined.

(** ** Where a run of the keyword loop stops *)

(** X4.  In every run of the keyword loop, whatever the environment
    does and however long the run: no text sampled before the last one
    reaches the goal (the loop never passes over a sample that reaches
    it); a run that ended as [Succeeded] ended on a sample that reaches
    the goal; a run that ended as [Stuck] read the same text three times
    in a row, and that text does not reach the goal; in a run that ended
    otherwise no sampled text reaches the goal. *)
Theorem X4_keyword_stops_at_first_goal (fuel : nat) (max_mode : bool)
    (w : env) :
  stops_at_first_goal max_mode (Keyword.run fuel max_mode w).
Proof.
  unfold Keyword.run, Keyword.main, mbind, set_text_history, try_catch,
    get_window_at_start.
  cbn [initial polls samples rerolls trace].
  destruct (window_at_start w) as [[]|e].
  2:{ unfold stops_at_first_goal. simpl. constructor. }
  pose proof (while_true_invariant
    (fun st => fifo st
               /\ Forall (below_goal max_mode) (sampled_texts (trace st)))
    (fun r st =>
       match r with
       | Ok o => stops_at_first_goal max_mode (Ok o, st)
       | Raise e => Forall (below_goal max_mode) (sampled_texts (trace st))
       end)
    (Keyword.loop_body max_mode) w) as H.
  specialize (H (fun st HI => proj2 HI)).
  assert (Hbody : forall st,
    fifo st /\ Forall (below_goal max_mode) (sampled_texts (trace st)) ->
    match Keyword.loop_body max_mode w st with
    | (Ok Again, st') =>
        fifo st' /\ Forall (below_goal max_mode) (sampled_texts (trace st'))
    | (Ok (Stop o), st') => stops_at_first_goal max_mode (Ok (Some o), st')
    | (Raise e, st') =>
        Forall (below_goal max_mode) (sampled_texts (trace st'))
    end).
  { intros st [H1 H2].
    apply RunFacts.keyword_body_stops_at_first_goal; assumption. }
  specialize (H Hbody fuel (State 0 0 0 [] [])).
  assert (Hinit : fifo (State 0 0 0 [] [])
                  /\ Forall (below_goal max_mode)
                       (sampled_texts (trace (State 0 0 0 [] [])))).
  { split; [reflexivity|constructor]. }
  specialize (H Hinit).
  destruct (while_true fuel (Keyword.loop_body max_mode) w (State 0 0 0 [] []))
    as [[o|e] st'].
  - exact H.
  - cbn [fst snd] in H. unfold stops_at_first_goal, print_error, ret, emit.
    cbn [fst snd trace]. rewrite sampled_texts_app, app_nil_r. exact H.
Qed.

(** ** Samplings and retry actions *)

(** X5.  In every run of the keyword loop each retry action follows a
    sampling of its own: the samplings are as many as the retry actions,
    and one more when the run ended as [Succeeded] or [Stuck].  In every
    run of the comparative loop two samplings precede each retry action:
    the samplings are between twice the retry actions and two more, two
    more when the run ended as [Succeeded], and exactly twice as many
    while the loop is still running. *)
Theorem X5_samplings_before_retries :
  (forall fuel max_mode w, keyword_counts (Keyword.run fuel max_mode w))
  /\ (forall MAIN_STAT SECONDARY_STAT fuel w,
        comparative_counts (Comparative.run MAIN_STAT SECONDARY_STAT fuel w)).
Proof.
  split.
  - intros fuel max_mode w.
    unfold Keyword.run, Keyword.main, mbind, set_text_history, try_catch,
      get_window_at_start.
    cbn [initial polls samples rerolls trace].
    destruct (window_at_start w) as [[]|e]; [|reflexivity].
    pose proof (while_true_invariant
      (fun st => samples st = rerolls st)
      (fun r st =>
         match r with
         | Ok o => keyword_counts (Ok o, st)
         | Raise e => samples st = rerolls st
         end)
      (Keyword.loop_body max_mode) w (fun st H => H)
      (RunFacts.keyword_body_counts max_mode w) fuel (State 0 0 0 [] [])
      eq_refl) as H.
    destruct (while_true fuel (Keyword.loop_body max_mode) w _) as [[o|e] st'].
    + exact H.
    + exact H.
  - intros MAIN SEC fuel w.
    unfold Comparative.run, Comparative.main, mbind, try_catch,
      get_window_at_start.
    destruct (window_at_start w) as [[]|e];
      [|unfold comparative_counts; simpl; lia].
    pose proof (while_true_invariant
      (fun st => samples st = 2 * rerolls st)
      (fun r st =>
         match r with
         | Ok o => comparative_counts (Ok o, st)
         | Raise e => 2 * rerolls st <= samples st <= 2 * rerolls st + 2
         end)
      (Comparative.loop_body MAIN SEC) w (fun st H => H)
      (RunFacts.comparative_body_counts MAIN SEC w) fuel initial eq_refl) as H.
    destruct (while_true fuel (Comparative.loop_body MAIN SEC) w _)
      as [[o|e] st'].
    + exact H.
    + exact H.
Qed.

(** ** Where a failure comes from *)


(** ** The comparative loop has no stuck detector *)



(** ** Boxes without a plus sign *)

(** X8.  A text without any plus sign (the empty text among them) is
    parsed, for every attribute configuration, to the stats that are
    all 0, and scores 0.  So when neither box shows a plus sign the two
    scores tie, and the comparative loop, the stop key being up at its
    two polls, ends at its first iteration as [Succeeded] without a
    retry action. *)
Theorem X8_unreadable_boxes_tie (MAIN_STAT SECONDARY_STAT : string)
    (before later : string) (w : env) (fuel : nat) :
  free_of "+" before -> free_of "+" later ->
  window_at_start w = Ok tt ->
  stop_key w 0 = false -> stop_key w 1 = false ->
  region_text w 0 = Ok before -> region_text w 1 = Ok later ->
  Comparative.stats_of_text MAIN_STAT SECONDARY_STAT before
  = Ok Comparative.initial_stats
  /\ Comparative.stats_of_text MAIN_STAT SECONDARY_STAT later
     = Ok Comparative.initial_stats
  /\ score_of MAIN_STAT SECONDARY_STAT before == 0
  /\ score_of MAIN_STAT SECONDARY_STAT later == 0
  /\ fst (Comparative.run MAIN_STAT SECONDARY_STAT (S fuel) w)
     = Ok (Some Succeeded)
  /\ rerolls (snd (Comparative.run MAIN_STAT SECONDARY_STAT (S fuel) w)) = 0.
Proof.
  intros Hb Hl Hwin Hk0 Hk1 Hr0 Hr1.
  split; [apply ParserFacts.stats_of_text_free, Hb|].
  split; [apply ParserFacts.stats_of_text_free, Hl|].
  split; [apply ParserFacts.score_of_free, Hb|].
  split; [apply ParserFacts.score_of_free, Hl|].
  unfold Comparative.run, Comparative.main, mbind, try_catch,
    get_window_at_start.
  rewrite Hwin. cbn [while_true]. unfold mbind.
  rewrite ComparativeFacts.comparative_body_eq.
  cbn [initial polls samples rerolls]. rewrite Hk0, Hr0, Hr1. cbn zeta.
  rewrite Hk1.
  assert (Hlt : Comparative.float_lt
                  (score_of MAIN_STAT SECONDARY_STAT later)
                  (score_of MAIN_STAT SECONDARY_STAT before) = false).
  { unfold Comparative.float_lt. apply negb_false_iff, Qle_bool_iff.
    rewrite (ParserFacts.score_of_free _ _ _ Hb),
      (ParserFacts.score_of_free _ _ _ Hl).
    apply Qle_refl. }
  rewrite Hlt. split; reflexivity.
Qed.

Lemma X8_witness :
  Comparative.stats_of_text "DEX" "STR" "" = Ok Comparative.initial_stats
  /\ Comparative.stats_of_text "DEX" "STR" "DEX 12"
     = Ok Comparative.initial_stats
  /\ score_of "DEX" "STR" "" == 0
  /\ score_of "DEX" "STR" "DEX 12" == 0
  /\ fst (Comparative.run "DEX" "STR" (S 2) (two_boxes "" "DEX 12"))
     = Ok (Some Succeeded)
  /\ rerolls (snd (Comparative.run "DEX" "STR" (S 2) (two_boxes "" "DEX 12")))
     = 0.
Proof.
  apply (X8_unreadable_boxes_tie "DEX" "STR" "" "DEX 12"
           (two_boxes "" "DEX 12") 2); reflexivity.
Defined.

(** ** Values that [int] refuses *)

(** X9.  When the text after the first plus sign of the normalized
    line (up to the next plus sign) holds a character that is no digit,
    underscore, sign or white space (a per cent sign, a letter, a
    bracket), the line leaves every field but [all_stat_percent] as it
    was, whatever labels it holds, and parsing goes on without an
    exception. *)
Theorem X9_stray_characters_ignored (MAIN_STAT SECONDARY_STAT : string)
    (stats : gmap string Z) (key line v : string) :
  key <> "all_stat_percent" ->
  after_first_plus (Comparative.normalize line) = Some v ->
  all_chars int_char v = false ->
  exists stats',
    Comparative.parse_line MAIN_STAT SECONDARY_STAT stats line = Ok stats'
    /\ stats' !! key = stats !! key.
Proof.
  intros Hkey Hv Hchars.
  rewrite ComparativeFacts.parse_line_ok. eexists. split; [reflexivity|].
  rewrite ComparativeFacts.lookup_parsed_line.
  assert (Hint : integer_after_plus (Comparative.normalize line) = None).
  { unfold integer_after_plus. rewrite Hv.
    destruct (int v) as [n|e] eqn:E; [|reflexivity].
    apply ParserFacts.int_chars in E. congruence. }
  unfold contribution. rewrite Hint.
  destruct (String.eqb key "all_stat_percent") eqn:E.
  { apply String.eqb_eq in E. contradiction. }
  repeat match goal with |- context [if ?b then _ else _] => destruct b end;
    reflexivity.
Qed.

Lemma X9_witness :
  exists stats',
    Comparative.parse_line "DEX" "STR" (stats_with 3 0 0 0 0) "DEX: +5%"
    = Ok stats'
    /\ stats' !! "main_stat" = stats_with 3 0 0 0 0 !! "main_stat".
Proof.
  apply (X9_stray_characters_ignored "DEX" "STR" (stats_with 3 0 0 0 0)
           "main_stat" "DEX: +5%" "5%").
  - discriminate.
  - reflexivity.
  - reflexivity.
Defined.

(** ** Scoring a dictionary *)




(** ** Totals and keyword flags *)

(** X12.  For every text both totals of the keyword parser are
    returned and are not negative; a total that is not 0 comes with the
    keyword flag of its category, so a sample with a total that is not 0
    reaches the goal of standard operation. *)
Theorem X12_totals_and_keywords (text : string) :
  exists n m,
    extract_item_drop_rate text = Ok n
    /\ extract_mesos_obtained text = Ok m
    /\ (0 <= n)%Z /\ (0 <= m)%Z
    /\ (n <> 0%Z -> Keyword.has_item_keyword (scanned text) = true)
    /\ (m <> 0%Z -> Keyword.has_mesos_keyword (scanned text) = true)
    /\ (n <> 0%Z \/ m <> 0%Z -> goal_reached false (scanned text) = true).
Proof.
  destruct (OcrFacts.occurrences_exist "Item Drop Rate" text) as [ns Hns].
  destruct (OcrFacts.occurrences_exist "Mesos Obtained" text) as [ms Hms].
  pose proof (OcrFacts.extracted_occurrences "Item Drop Rate" text ns Hns)
    as En.
  pose proof (OcrFacts.extracted_occurrences "Mesos Obtained" text ms Hms)
    as Em.
  destruct (TotalsFacts.occurrences_facts _ _ _ Hns) as [Pn Cn].
  destruct (TotalsFacts.occurrences_facts _ _ _ Hms) as [Pm Cm].
  assert (Hitem : sum ns <> 0%Z -> contains "item drop" (lower text) = true).
  { intros H. apply (TextFacts.contains_prefix "item drop" " rate").
    apply Cn, TotalsFacts.sum_nonzero, H. }
  assert (Hmesos : sum ms <> 0%Z -> contains "mesos" (lower text) = true).
  { intros H. apply (TextFacts.contains_prefix "mesos" " obtained").
    apply Cm, TotalsFacts.sum_nonzero, H. }
  exists (sum ns), (sum ms).
  split; [exact En|]. split; [exact Em|].
  split; [apply TotalsFacts.sum_nonneg, Pn|].
  split; [apply TotalsFacts.sum_nonneg, Pm|].
  split; [exact Hitem|]. split; [exact Hmesos|].
  unfold goal_reached, Keyword.count_prime_lines, scanned.
  cbn [Keyword.has_item_keyword Keyword.has_mesos_keyword negb andb orb].
  intros [H|H].
  - rewrite (Hitem H). destruct (contains "mesos" (lower text)); reflexivity.
  - rewrite (Hmesos H).
    destruct (contains "item drop" (lower text)); reflexivity.
Qed.

(** ** The success record read back *)

Local Ltac skip_piece :=
  apply TotalsFacts.occurrences_skip_prefix;
  [ first [ vm_compute; reflexivity
          | apply TotalsFacts.no_start_str; [reflexivity|reflexivity|lia] ]
  | ].

Local Ltac read_back label :=
  rewrite !OcrFacts.append_assoc;
  rewrite <- (OcrFacts.append_empty (String "010" "")) at 5;
  repeat skip_piece;
  apply (TotalsFacts.occurrences_stat_line label); [assumption|];
  repeat skip_piece; apply occurrences_end.

(** X13.  The record that [main] appends to the log when the goal is
    reached can be read back: in standard operation and in max mode
    alike, the two extractors applied to the record return the two
    totals that were written into it, provided these are not negative;
    and they are not for the totals of a scanned text. *)
Theorem X13_success_record_read_back :
  (forall max_mode n m k,
     (0 <= n)%Z -> (0 <= m)%Z ->
     extract_item_drop_rate (Report.success_record max_mode n m k) = Ok n
     /\ extract_mesos_obtained (Report.success_record max_mode n m k)
        = Ok m)
  /\ (forall max_mode text,
        let r := scanned text in
        let record :=
          Report.success_record max_mode (Keyword.item_drop_rate r)
            (Keyword.mesos_obtained r) (Keyword.count_prime_lines r) in
        extract_item_drop_rate record = extract_item_drop_rate text
        /\ extract_mesos_obtained record = extract_mesos_obtained text).
Proof.
  assert (Hfirst : forall max_mode n m k,
     (0 <= n)%Z -> (0 <= m)%Z ->
     extract_item_drop_rate (Report.success_record max_mode n m k) = Ok n
     /\ extract_mesos_obtained (Report.success_record max_mode n m k)
        = Ok m).
  { intros max_mode n m k Hn Hm.
    assert (Hk : (0 <= Z.of_nat k)%Z) by lia.
    split.
    - replace (Ok n) with (Ok (sum [n])) by (f_equal; apply Z.add_0_r).
      apply (OcrFacts.extracted_occurrences "Item Drop Rate").
      unfold Report.success_record, Report.nl.
      destruct max_mode; cbn [negb]; read_back "Item Drop Rate".
    - replace (Ok m) with (Ok (sum [m])) by (f_equal; apply Z.add_0_r).
      apply (OcrFacts.extracted_occurrences "Mesos Obtained").
      unfold Report.success_record, Report.nl.
      destruct max_mode; cbn [negb]; read_back "Mesos Obtained". }
  split; [exact Hfirst|].
  intros max_mode text r record. subst r record.
  unfold scanned.
  cbn [Keyword.item_drop_rate Keyword.mesos_obtained].
  destruct (OcrFacts.occurrences_exist "Item Drop Rate" text) as [ns Hns].
  destruct (OcrFacts.occurrences_exist "Mesos Obtained" text) as [ms Hms].
  pose proof (OcrFacts.extracted_occurrences "Item Drop Rate" text ns Hns)
    as En.
  pose proof (OcrFacts.extracted_occurrences "Mesos Obtained" text ms Hms)
    as Em.
  change (extracted "Item Drop Rate" text)
    with (extract_item_drop_rate text) in En.
  change (extracted "Mesos Obtained" text)
    with (extract_mesos_obtained text) in Em.
  rewrite En, Em. cbn [total].
  apply Hfirst.
  - apply TotalsFacts.sum_nonneg, (TotalsFacts.occurrences_facts _ _ _ Hns).
  - apply TotalsFacts.sum_nonneg, (TotalsFacts.occurrences_facts _ _ _ Hms).
Qed.

(* ===================================================================== *)
(** * Properties of what is done to the machine *)
(* ===================================================================== *)

Import Desktop DesktopSpec.

(** ** The window lookup *)

(** X14.  [find_and_activate_maplestory] looks at the first process
    whose name is maplestory.exe, case ignored, and at no other: it
    returns the handle of the first visible window of that process,
    after the four calls that bring it to the front and a sleep of
    0.2 s; it raises "MapleStory.exe is not running!", nothing done,
    when no process has that name or the pid of the first one is 0; it
    raises "MapleStory window not found!", nothing done, when that
    process has no visible window, whatever windows a later process of
    the same name has; and otherwise it raises what a call of the
    activation raised. *)
Theorem X14_window_lookup (w : world) (st : dstate) :
  window_lookup w st (find_and_activate_maplestory w st).
Proof.
  rewrite DesktopFacts.find_and_activate_eq.
  destruct (find_pid (processes w)) as [z|] eqn:Hpid.
  2:{ left. split; [reflexivity|]. split; [reflexivity|].
      left. apply DesktopFacts.find_pid_none, Hpid. }
  apply DesktopFacts.find_pid_some in Hpid as (p & Hp & <-).
  destruct (pid p =? 0)%Z eqn:Hz.
  { left. split; [reflexivity|]. split; [reflexivity|].
    right. exists p. split; [exact Hp|]. apply Z.eqb_eq, Hz. }
  apply Z.eqb_neq in Hz.
  destruct (enum_windows (pid p) (windows w)) as [|h hs] eqn:Hw.
  { right. left. split; [reflexivity|]. split; [reflexivity|].
    exists p. split; [exact Hp|]. split; [exact Hz|].
    apply DesktopFacts.enum_windows_nil, Hw. }
  apply DesktopFacts.enum_windows_head in Hw as (x & Hx & <-).
  pose proof (DesktopFacts.activate_cases (hwnd x) w st) as H.
  destruct (activate (hwnd x) w st) as [[h'|e] st'].
  - destruct H as (-> & _ & Hd). exists p, x. auto.
  - destruct H as (a & evs & _ & Hl & _ & Ha).
    right. right. exists p, x, a. auto.
Qed.

(** Two clients, only the second with a visible window: the window is
    not found. *)
Lemma X14_witness :
  window_lookup two_clients fresh (Raise window_not_found, fresh).
Proof. exact (X14_window_lookup two_clients fresh). Defined.

(** ** The retry actions *)

(** X15.  [click_reroll_button] raises exactly when the window
    activation raises, and then touches neither mouse nor keyboard.
    Once the window is activated it does not raise: it moves to the
    point (647, 550) of the window, clicks once and presses Enter three
    times, sleeping 0.8 s in all, and returns [True]; or, when one of
    these calls raises, it makes no further call, prints the exception
    and returns [False]. *)
Theorem X15_click_reroll_button (rect : bbox) (w : world) (st : dstate) :
  match find_and_activate_maplestory w st with
  | (Raise e, st1) => click_reroll_button rect w st = (Raise e, st1)
  | (Ok _, st1) => click_contract rect st1 (click_reroll_button rect w st)
  end.
Proof.
  destruct rect as [[[x1 y1] x2] y2].
  unfold click_reroll_button, dbind.
  destruct (find_and_activate_maplestory w st) as [[h|e] st1]; [|reflexivity].
  unfold try_catch, dbind, act, sleep, print_error, ret. cbn [calls done].
  destruct (fault w (calls st1)) as [e|]; cbn [calls done].
  { eexists _, 0, e. rewrite <- !app_assoc.
    split; [reflexivity|]. split; [lia|]. repeat split. }
  destruct (fault w (S (calls st1))) as [e|]; cbn [calls done].
  { eexists _, 1, e. rewrite <- !app_assoc.
    split; [reflexivity|]. split; [lia|]. repeat split. }
  destruct (fault w (S (S (calls st1)))) as [e|]; cbn [calls done].
  { eexists _, 2, e. rewrite <- !app_assoc.
    split; [reflexivity|]. split; [lia|]. repeat split. }
  destruct (fault w (S (S (S (calls st1))))) as [e|]; cbn [calls done].
  { eexists _, 3, e. rewrite <- !app_assoc.
    split; [reflexivity|]. split; [lia|]. repeat split. }
  destruct (fault w (S (S (S (S (calls st1)))))) as [e|]; cbn [calls done].
  { eexists _, 4, e. rewrite <- !app_assoc.
    split; [reflexivity|]. split; [lia|]. repeat split. }
  eexists. rewrite <- !app_assoc.
  split; [reflexivity|]. repeat split.
Qed.

(** The click, the sixth call, raises: the pointer was moved, nothing
    was clicked or pressed, and the result is [False]. *)
Lemma X15_witness :
  click_contract game_window (DState 4 (activation 2))
    (Ok false,
     DState 6
       (activation 2
        ++ [Slept (1 # 10); Did (MoveTo 747 600 (3 # 10)); Slept (5 # 100);
            Raised Click pointer_lost; Printed pointer_lost])).
Proof.
  exact (X15_click_reroll_button game_window (failing_at 5) fresh).
Defined.



(** ** The regions *)

(** X17.  Wherever the window is: the two boxes the comparative policy
    captures have no point in common; the point [reroll] clicks lies
    in neither of them, and the box of its debug screenshots meets
    neither; the point [click_reroll_button] clicks lies outside the
    region the keyword policy captures. *)
Theorem X17_regions (rect : bbox) :
  disjoint (stat_box rect true) (stat_box rect false)
  /\ (forall x y d,
        In (MoveTo x y d) (reroll_plan rect) ->
        forall is_before,
          inside (stat_box rect is_before) x y = false
          /\ disjoint (debug_box x y 20) (stat_box rect is_before))
  /\ (forall x y d,
        In (MoveTo x y d) (click_plan rect) ->
        inside (stat_region rect) x y = false).
Proof.
  destruct rect as [[[x1 y1] x2] y2].
  split; [|split].
  - intros x y. unfold stat_box.
    rewrite DesktopFacts.inside_iff, DesktopFacts.outside_iff. lia.
  - intros x y d [[= <- <- <-]|[[=]|[[=]|[[=]|[]]]]] is_before.
    split.
    + destruct is_before; unfold stat_box;
        rewrite DesktopFacts.outside_iff; lia.
    + intros x y. unfold debug_box. change (20 / 2)%Z with 10%Z.
      destruct is_before; unfold stat_box;
        rewrite DesktopFacts.inside_iff, DesktopFacts.outside_iff; lia.
  - intros x y d [[= <- <- <-]|[[=]|[[=]|[[=]|[[=]|[]]]]]].
    unfold stat_region, region_box. rewrite DesktopFacts.outside_iff. lia.
Qed.

(** ** The queue of debug screenshots *)

(** X18.  The pruning of the debug screenshots in [scan_for_stats]
    never raises.  It tries to remove the screenshots that come first
    in the order of their paths, each one once and in that order, and
    keeps the others: 7 of them, or all when there are no more than 7;
    no path that is kept comes before one that is removed.  When no
    removal fails every one of them is removed. *)
Theorem X18_screenshot_queue (listing : list string) (w : world)
    (st : dstate) :
  let olds := old_screenshots listing in
  let kept := drop (length olds) (sorted listing) in
  Permutation listing (olds ++ kept)
  /\ length kept = Nat.min screenshot_queue_size (length listing)
  /\ (forall o k, In o olds -> In k kept -> String.leb o k = true)
  /\ exists st' evs,
       prune_screenshots listing w st = (Ok tt, st')
       /\ done st' = done st ++ evs
       /\ attempts evs = map Remove olds
       /\ ((forall k, fault w k = None) -> successes evs = map Remove olds).
Proof.
  intros olds kept.
  assert (Holds : olds = take (length olds) (sorted listing)).
  { subst olds. unfold old_screenshots.
    destruct (screenshot_queue_size <? length (sorted listing))%nat;
      [|reflexivity].
    rewrite length_take. f_equal. lia. }
  assert (Hsplit : sorted listing = olds ++ kept).
  { subst kept. rewrite Holds at 1. symmetry. apply take_drop. }
  assert (Hlen : length (sorted listing) = length listing).
  { apply Permutation_length, DesktopFacts.sorted_perm. }
  split; [rewrite <- Hsplit; symmetry; apply DesktopFacts.sorted_perm|].
  split.
  { subst kept. rewrite length_drop, Hlen. subst olds.
    unfold old_screenshots, screenshot_queue_size in *.
    destruct (7 <? length (sorted listing))%nat eqn:E.
    - apply Nat.ltb_lt in E. rewrite length_take. lia.
    - apply Nat.ltb_ge in E. cbn [length]. lia. }
  split.
  { intros o k Ho Hk. pose proof (DesktopFacts.sorted_sorted listing) as Hs.
    rewrite Hsplit in Hs.
    apply (StronglySorted_app_1_elem_of _ _ _ o k Hs);
      apply list_elem_of_In; assumption. }
  apply DesktopFacts.remove_each_spec.
Qed.

(** Of ten screenshots the three that sort first are removed. *)
Lemma X18_witness :
  let olds := ["s_01"; "s_02"; "s_03"] in
  let kept := ["s_04"; "s_05"; "s_06"; "s_07"; "s_08"; "s_09"; "s_10"] in
  Permutation ten_screenshots (olds ++ kept)
  /\ length kept = Nat.min screenshot_queue_size (length ten_screenshots)
  /\ (forall o k, In o olds -> In k kept -> String.leb o k = true)
  /\ exists st' evs,
       prune_screenshots ten_screenshots (failing_at 1) fresh = (Ok tt, st')
       /\ done st' = done fresh ++ evs
       /\ attempts evs = map Remove olds
       /\ ((forall k, fault (failing_at 1) k = None) ->
           successes evs = map Remove olds).
Proof.
  exact (X18_screenshot_queue ten_screenshots (failing_at 1) fresh).
Defined.

(** ** The retry actions inside the loops *)


